(* ===== verification/_CoqProject ===== *)
-Q . S2P
Prelude.v
Loops.v
RealModel.v
FloatModel.v
Config.v
Integrator.v
Fit.v
FitSession.v
Inverse.v
Accuracy.v
Histogram.v
MonteCarlo.v
MonteCarloArrays.v
Canvas.v
Registry.v
CanvasCpp.v
Plots.v
Macro.v
