(* ===== verification/Prelude.v ===== *)
(** * Newton's law of cooling: a verification development of the ROOT macros
      [src/gr1.cpp] and [src/gr2.cpp]

    ** The program

    Both macros are ROOT (CERN) scripts.  They share three process-wide
    globals [Ta], [To], [k] (ambient temperature, initial temperature,
    cooling constant; [gr1.cpp:12-14], [gr2.cpp:12-14]) and four functions:
    - [len_dif(x, y) = -k*(y - Ta)], the right-hand side of the cooling law
      [dT/dt = -k (T - Ta)] ([gr1.cpp:273-275]);
    - [rk4_solver(xo, yo, h, x)], a classical fixed-step Runge-Kutta-4 loop
      over [len_dif] that runs [n = (Int_t)((x - xo)/h)] steps
      ([gr1.cpp:278-290], [gr2.cpp:236-248]);
    - [fitFunc(x, par)], the model handed to ROOT's fitter: [rk4_solver]
      from [(0, par[0])] with step [0.1] ([gr1.cpp:292-300]);
    - [CanvasPartition], the pad layout of the 2x2 canvas
      ([gr1.cpp:304-380]).
    [gr1()] synthesises ten noisy checkpoints by Monte Carlo: for each
    nominal temperature [30 + 5 i] it draws 1000 Gaussian temperatures from a
    single [TRandom3], maps each through the closed-form inverse
    [t = -ln((T - Ta)/(To - Ta))/k], fills a [TH1D] with range
    [[0, 2 t(T_i))], and reads its mean and RMS with a clamp and a fallback
    ([gr1.cpp:51-64]).  Both macros then fit three experimental data sets
    (plastic, porcelain, glass) with one shared [TF1 f1] and draw the results.

    ** How the development is organised

    - [Prelude] (this file): the [Double] interface, a type class of the
      [Double_t] operations the macros use (arithmetic, [<], the C++
      conversion to [Int_t], [sqrt]) and [DoubleLog] ([TMath::Log], partial:
      [None] is the IEEE non-finite result of a logarithm of a non-positive
      number); the [dbl_scope] notations; shared list and option lemmas
      and the [cooling] hint database.
    - [Loops]: the C++ loop [for (Int_t i = i0; i < n; i++)] as [for_loop],
      with a 32-bit counter and a fuel bound, its reference [iterate_from],
      and stores into C arrays ([set_nth], [write_seq]).
    - [RealModel]: the instance of [Double] and [DoubleLog] on the Standard
      Library's real numbers [R] (exact arithmetic; rounding is not
      modelled), with the truncating conversion [Rtrunc] and the tactic
      [dsimpl] that turns the interface into [R] operations for [lra]/[nra].
    - [FloatModel]: the instance on primitive IEEE-754 binary64 floats
      ([PrimFloat]), the very arithmetic of [Double_t]; every definition that
      does not need a logarithm runs on it under [vm_compute].
    - [Config]: the globals of each macro and the constant arrays
      (experiment parameters, measured times and temperatures).
    - [Integrator]: [len_dif], one loop body [rk4_step], the loop
      [rk4_loop], the conversion [rk4_steps], the whole function [rk4]
      (generic in the derivative) and [rk4_solver]; [rk4_cpp] is the same
      function with the loop of [Loops].
    - [Fit]: [fitFunc], the [TF1] model it defines, [TGraphErrors], the
      effective-variance chi-square [chi2] that [TGraphErrors::Fit]
      minimises, and the graphs of the macros.  ROOT's derivative rule and
      minimiser are the record [FitBackend], a parameter of every theorem.
    - [FitSession]: the state the fits of a macro share: the parameters of
      [TF1 f1] and the six graph objects with their lists of functions,
      addressed by pointer; [Fit] ([TGraph::Fit]: minimise from [f1], store
      into [f1], keep a copy in the graph), [fit_sequence], and
      [GetFunction] that fetches the fitted curves back ([overlay]).
    - [Inverse]: the closed-form inverse [time_for] of [gr1.cpp:53] and the
      exact solution [closed_form] of the cooling law.
    - [Accuracy]: [rk4_solver] against the exact solution
      [exact_solution]: bounds on [exp(-z)] from its alternating series,
      and the part of the interval the step count leaves out ([grid_lag]).
    - [Histogram]: the statistics of a [TH1D] ([TH1D_new], [Fill], the
      range test [counts], [GetMean], [GetRMS]) as ROOT keeps them, in
      running sums over the entries inside the axis range.
    - [MonteCarlo]: the checkpoint loop of [gr1()] ([checkpoint],
      [simulate]) with the generator's state passed through every draw;
      the generator [Gaus] is a Section variable, [Gaus_stream] one instance.
    - [MonteCarloArrays]: the same loop as the code writes it, on C arrays:
      the buffer [t_err] shared by all checkpoints, the four result arrays
      declared without initial values, and the three nested [for_loop]s.
    - [Canvas]: [CanvasPartition], the pads it creates ([Pad]) from the
      spans of each axis ([axis_step], [axis_spans]), and the loops that
      carry [hposr] and [vposu] from one iteration to the next.
    - [Plots]: the graph [gr1()] draws from the simulated arrays
      ([sim_graph]).
    - [Registry]: ROOT's list of named objects as an association list
      ([find_object] is [gROOT->FindObject], [delete_object] is [delete],
      [register] is the find-delete-create sequence of [CanvasPartition]),
      the names [pad_i_j] of [sprintf] with stdpp's [pretty], and the
      macros' loop [lookup_pads] that fetches every pad back by name.
    - [CanvasCpp]: [CanvasPartition] once more, statement by statement as
      [gr2.cpp:262-338] writes it: its ten uninitialised [Float_t]
      variables ([CPVars]), the branches [col_branch], [row_branch], the
      pad creation [create_pad] on the registry, and the two [for_loop]s
      ([CanvasPartition_cpp]).
    - [Macro]: the macro [gr1()] as the sequence of its computing
      statements ([gr1_run], with [plots_run] the part [gr2()] shares):
      Monte Carlo, [f1], partition, pad lookup, graphs, fits,
      [GetFunction]; a null pointer dereferenced or a loop out of fuel is
      [None].  [gr2()] has no run of its own: [gr2.cpp] does not compile.

    Files depend on each other in this order: [Integrator] on [Config] and
    [Loops]; [Fit], [Inverse], [Accuracy] on [Integrator]; [FitSession] on
    [Fit]; [MonteCarlo] on [Inverse]
    and [Histogram]; [MonteCarloArrays] on [MonteCarlo] and [Loops];
    [Canvas] on [Prelude] and [RealModel] only; [Registry] on [Canvas] (it
    is the one file that loads stdpp, for its strings and [mapM]); [Plots]
    on [Fit] and [MonteCarloArrays]; [CanvasCpp] on [Registry] and
    [Loops]; [Macro] on [FitSession], [Registry] and [Plots] (it loads
    stdpp for [mapM]).

    ** What the theorems show

    - The fit ([Fit]): the chi-square does not depend on [par[1]], since
      [fitFunc] stores [par[1]] in a local [k] that [len_dif] never reads;
      hence the fit cannot determine [k]; ROOT's effective-variance
      chi-square is bounded by the specification's temperature-only
      chi-square and equals it exactly when at every point the residual or
      the x-error term [ex f'(x)] vanishes.
    - The fit session ([FitSession]): the three fits of each macro are
      chained through the one [TF1] while [GetFunction] returns each
      graph's own result, and [nullptr] on the graphs not fitted.
    - The integrator ([Integrator]): the closed form
      [Ta + (yo - Ta) P(h k)^n] of the loop on the cooling law, [P] the
      degree-4 Taylor polynomial of [exp(-z)]; the refinement of the
      specification's integrator [integrate_spec], written from its section
      4.1 ([floor] step count, the classical stages); the step count as a
      floor with its bounds; the decay invariant and the monotonicity in
      time; the count on the [TF1] range and its binary64 behaviour at
      [0.3/0.1].
    - The accuracy ([Accuracy]): for [0 <= h k <= 1] the error against the
      exact solution at the last grid point is at most
      [n (h k)^5/120 |yo - Ta| <= (x - xo) h^4 k^5/120 |yo - Ta|] (order 4);
      at a target off the grid the lag [r < h] adds an error of at least
      [(yo - Ta) e^(-k (x - xo)) (k r - (k r)^2/2)] (order 1).
    - The inverse ([Inverse]): the closed form solves [len_dif]'s law; the
      inverse and the closed form are mutual inverses; the sign of the
      time.
    - The statistics ([Histogram]): [GetMean] and [GetRMS] of a fresh
      histogram equal the two-pass mean and standard deviation of the
      in-range entries; the mean lies in the range.
    - The Monte Carlo ([MonteCarlo]): with a noiseless generator a
      checkpoint is the analytic inverse with the clamp and fallback; the
      time of a checkpoint between [Ta] and [To] lies in [[0, 2 t_i)]; every
      time is non-negative; the error fallback differs from the
      specification (it compares with [sigma_temperatura]); the draws are
      consumed in order from the generator; the series has [npts] points,
      point [j] at the nominal temperature [Tmin + 5 j]; with one draw
      per checkpoint the time is that draw's inverse only inside the
      histogram range [[0, 2 t_i)], and [0] outside it.
    - The canvas ([Canvas]): the pads are the product of the column spans
      and the row spans; the spans of an axis tile [[0, 1]] with the
      spacing between them; a single pad drops the high margin; with a
      positive pitch every pad is a valid [TPad].
    - The canvas as written ([CanvasCpp]): the loops over the
      uninitialised variables stop and register exactly the pads of the
      functional geometry, in creation order, whatever the variables held.
    - The plots ([Plots]): with a noiseless generator the points of the
      simulated graph lie on the exact cooling curve.
    - The loops ([Loops], [Integrator], [MonteCarloArrays]): a [for] loop
      with [Int_t] start and bound stops after exactly [max(n - i0, 0)]
      iterations, and not with less fuel; [rk4_solver]'s loop stops and equals [rk4]; the shared
      buffer [t_err] never carries a draw from one checkpoint into the
      next; the array-level Monte Carlo stops, writes every entry of the
      uninitialised arrays and equals [simulate].
    - The registry ([Registry]): after [CanvasPartition] the macros' lookup
      loop finds every [pad[i][j]] (no null pointer is drawn), and it is
      the pad just created at [(i, j)], even when an earlier run left pads
      of the same names; a rerun keeps the registry's size; [register]
      keeps names unique; the names fit [char name[16]] below [10^5], not
      for every [Int_t].
    - The macro ([Macro]): [gr1()] reaches its last statement on every
      registry without two objects of one name, every generator, minimiser
      and initial array contents, given the fuel of its loops (liveness);
      it leaves the columns of [simulate] in its arrays and draws the
      curves of its three chained fits.

    ** Bounds and fuel

    The list-level models need no fuel: every loop of the macros has a
    bound known on entry ([npts], [nerr], [Nx], [Ny], and [n] for
    [rk4_solver]) and is a structural recursion on it; a C++ loop whose
    bound is not positive runs no iteration, which [Z.to_nat] expresses.
    The loop-level models ([for_loop], [rk4_cpp], [checkpoint_cpp],
    [simulate_cpp]) take a fuel, the number of condition tests allowed;
    the termination theorems show that any fuel above the bound (above
    [max(npts, nerr)] for the Monte Carlo, above [max(Nx, Ny)] for
    [CanvasPartition_cpp]) is enough and gives the
    list-level result, and [for_loop_terminates] that less is not; the
    macro needs fuel above [nerr = 1000].  [Int_t] is 32 bits: the one
    conversion that could overflow, the step count of [fitFunc], is shown
    to stay in [[0, 30000]] on the [TF1]'s range.  Most theorems hold on the
    real-number instance; the binary64 instance evaluates the definitions
    (step counts, histogram statistics) under [vm_compute].

    ** Not modelled

    Drawing (graphs, legends, axes, [TLatex], pad drawing state), ROOT's
    minimiser (MINUIT) and derivative rule beyond the objective they
    minimise, the [TRandom3] generator (a parameter of the Monte Carlo),
    the bin contents and automatic-binning buffer of [TH1D] (only the
    statistics the macro reads are kept), and [tiempo_porc_nev]
    ([gr2.cpp:32]), which is not valid C++ and is a parameter of
    [gr2_graphs]; [gr2()] as a whole, which does not compile ([gr2.cpp:32],
    [gr2.cpp:181]): only its fits and the parts it shares with [gr1()] are
    modelled.
    The [xFactor]/[yFactor] ratios of pad sizes ([gr1.cpp:107-114] and
    the like) are written and never read; the canvas [C] found, deleted
    and created by name ([gr1.cpp:71-74]) only hosts the drawing.
    Rounding is not modelled in the theorems on [R]. *)

From Stdlib Require Import ZArith List Lia.
Import ListNotations.

(** ** The [Double_t] interface *)

(** The operations of C++ [double] that the macros and the ROOT routines
    they call use.  [d_to_int] is the
    implicit conversion [Int_t n = <double>] (truncation toward zero);
    [d_of_Z] gives the value of an integer literal such as [2.] or [6.]. *)
Class Double (F : Type) := {
  d_add : F -> F -> F;
  d_sub : F -> F -> F;
  d_mul : F -> F -> F;
  d_div : F -> F -> F;
  d_opp : F -> F;
  d_of_Z : Z -> F;
  d_ltb : F -> F -> bool;
  d_eqb : F -> F -> bool;
  d_to_int : F -> Z;
  d_sqrt : F -> F
}.

(** [TMath::Log]: [None] stands for the non-finite result ([NaN] or [-inf])
    of the logarithm of a non-positive number. *)
Class DoubleLog (F : Type) := {
  d_log : F -> option F
}.

Declare Scope dbl_scope.
Delimit Scope dbl_scope with D.

Notation "x + y" := (d_add x y) : dbl_scope.
Notation "x - y" := (d_sub x y) : dbl_scope.
Notation "x * y" := (d_mul x y) : dbl_scope.
Notation "x / y" := (d_div x y) : dbl_scope.
Notation "- x" := (d_opp x) : dbl_scope.
Notation "x <? y" := (d_ltb x y) : dbl_scope.
Notation "x =? y" := (d_eqb x y) : dbl_scope.
Notation "# z" := (d_of_Z z%Z) (at level 1, format "# z") : dbl_scope.

(** A decimal literal [m * 10^-e], as written in the source ([0.5] is
    [dec 5 1], [0.000764] is [dec 764 6]).  On binary64 floats both
    operands are exact and the quotient is correctly rounded, so this is the
    double the C++ compiler reads. *)
Definition dec {F} `{Double F} (m : Z) (e : nat) : F :=
  d_div (d_of_Z m) (d_of_Z (10 ^ Z.of_nat e)).

(** C++ [a > b]. *)
Definition d_gtb {F} `{Double F} (a b : F) : bool := d_ltb b a.

(** ** Shared list and option lemmas *)

Create HintDb cooling.
Create Rewrite HintDb cooling_rw.

Section ListLemmas.
Context {A B : Type}.

(** A property preserved by every step of a left fold holds of its result. *)
Lemma fold_left_invariant (P : B -> Prop) (f : B -> A -> B) (l : list A) (b : B) :
  P b -> (forall b' a, In a l -> P b' -> P (f b' a)) -> P (fold_left f l b).
Proof.
  revert b; induction l as [|x l IH]; intros b Hb Hstep; simpl; auto.
  apply IH; auto with datatypes.
Qed.

End ListLemmas.

(** A loop [for (i = 0; i < n; i++)] with [n <= 0] runs no iteration. *)
Lemma Z_to_nat_nonpos (z : Z) : (z <= 0)%Z -> Z.to_nat z = 0%nat.
Proof. lia. Qed.
