(* ===== verification/Loops.v ===== *)
(** * C++ [for] loops with an [Int_t] counter, and array stores

    Every loop of the macros has the shape
    [for (Int_t i = i0; i < n; i++) body;] ([gr1.cpp:51], [53], [56],
    [281], [317], [339]).  [for_loop] runs it as the machine does: the
    counter is a 32-bit [Int_t], incremented with wrap-around
    ([int32_wrap]), the condition is tested before every iteration, and
    [fuel] bounds the number of tests, so the definition is total; [None]
    means the fuel ran out before the condition became false.
    [iterate_from] is the reference: the body at [i0, i0 + 1, ...], a given
    number of times.  [set_nth] is the store [a[k] = v] into an array of
    fixed length; a store out of range is undefined in C++ and is a no-op
    here, and no theorem depends on it.

    Theorems: when [i0] and [n] are [Int_t] values, the loop stops after
    exactly [max(n - i0, 0)] iterations, with the reference's result, and
    with less fuel it does not stop; the increment never wraps inside the
    loop; stores and reads of an array by index. *)

From Stdlib Require Import ZArith Lia List Bool.
From S2P Require Import Prelude.
Import ListNotations.

Local Open Scope Z_scope.

(** ** [Int_t] *)

Definition Int_min : Z := - 2 ^ 31.
Definition Int_max : Z := 2 ^ 31 - 1.

(** Two's-complement wrap-around to 32 bits. *)
Definition int32_wrap (z : Z) : Z := (z + 2 ^ 31) mod 2 ^ 32 - 2 ^ 31.

Definition int32_in (z : Z) : bool := (Int_min <=? z) && (z <=? Int_max).

Lemma int32_in_spec (z : Z) : int32_in z = true <-> Int_min <= z <= Int_max.
Proof. unfold int32_in; rewrite andb_true_iff, !Z.leb_le; reflexivity. Qed.

Lemma int32_wrap_id (z : Z) : Int_min <= z <= Int_max -> int32_wrap z = z.
Proof.
  unfold int32_wrap, Int_min, Int_max; intro Hz.
  rewrite Z.mod_small by lia; lia.
Qed.

(** ** The loop *)

Section ForLoop.
Context {St : Type}.

(** [for (Int_t i = i0; i < n; i++) s = body(i, s);], testing the
    condition at most [fuel] times. *)
Fixpoint for_loop (fuel : nat) (body : Z -> St -> St) (i n : Z) (s : St) : option St :=
  match fuel with
  | O => None
  | S f => if i <? n then for_loop f body (int32_wrap (i + 1)) n (body i s) else Some s
  end.

(** The body at [i, i + 1, ..., i + k - 1]. *)
Fixpoint iterate_from (body : Z -> St -> St) (i : Z) (k : nat) (s : St) : St :=
  match k with
  | O => s
  | S k' => iterate_from body (i + 1) k' (body i s)
  end.

Lemma for_loop_run (body : Z -> St -> St) (n : Z) (k : nat) :
  forall (fuel : nat) (i : Z) (s : St),
  Int_min <= i -> n <= Int_max -> Z.to_nat (n - i) = k ->
  for_loop fuel body i n s
  = if (k <? fuel)%nat then Some (iterate_from body i k s) else None.
Proof.
  induction k as [|k IH]; intros [|f] i s Hi Hn Hk; cbn [for_loop]; try reflexivity.
  - destruct (Z.ltb_spec i n); [lia | reflexivity].
  - destruct (Z.ltb_spec i n); [|lia].
    rewrite int32_wrap_id by (unfold Int_min, Int_max in *; lia).
    rewrite (IH f (i + 1) (body i s)) by lia; reflexivity.
Qed.
End ForLoop.

(** ** Arrays *)

Section Arrays.
Context {A : Type}.

(** [a[k] = v;] into an array of fixed length. *)
Fixpoint set_nth (l : list A) (k : nat) (v : A) : list A :=
  match l, k with
  | [], _ => []
  | _ :: r, O => v :: r
  | x :: r, S k' => x :: set_nth r k' v
  end.

Lemma length_set_nth (l : list A) (k : nat) (v : A) : length (set_nth l k v) = length l.
Proof. revert k; induction l as [|x l IH]; intros [|k]; simpl; auto. Qed.

Lemma firstn_set_nth (l : list A) (k : nat) (v : A) :
  (k < length l)%nat -> firstn (S k) (set_nth l k v) = firstn k l ++ [v].
Proof.
  revert k; induction l as [|x l IH]; intros [|k] Hk; simpl in *; try lia; [reflexivity|].
  rewrite IH by lia; reflexivity.
Qed.

Lemma skipn_set_nth (l : list A) (k m : nat) (v : A) :
  (k < m)%nat -> skipn m (set_nth l k v) = skipn m l.
Proof.
  revert k m; induction l as [|x l IH]; intros k m Hkm; [reflexivity|].
  destruct k as [|k], m as [|m]; simpl; try lia; [reflexivity|]. apply IH; lia.
Qed.
(** The array [l] with the values [vs] written from index [j] on. *)
Definition write_seq (l : list A) (j : nat) (vs : list A) : list A :=
  firstn j l ++ vs ++ skipn (j + length vs) l.

Lemma write_seq_set_nth (l : list A) (j : nat) (v : A) (vs : list A) :
  (j + S (length vs) <= length l)%nat ->
  write_seq (set_nth l j v) (S j) vs = write_seq l j (v :: vs).
Proof.
  intro Hl; unfold write_seq.
  rewrite firstn_set_nth, skipn_set_nth by (simpl; lia).
  rewrite <- app_assoc; simpl length.
  replace (S j + length vs)%nat with (j + S (length vs))%nat by lia; reflexivity.
Qed.

Lemma write_seq_nil (l : list A) (j : nat) : write_seq l j [] = l.
Proof. unfold write_seq; simpl; rewrite Nat.add_0_r; apply firstn_skipn. Qed.

Lemma write_seq_all (l vs : list A) : length vs = length l -> write_seq l 0 vs = vs.
Proof. intro E; unfold write_seq; simpl; rewrite E, skipn_all, app_nil_r; reflexivity. Qed.

Lemma length_write_seq (l : list A) (j : nat) (vs : list A) :
  (j + length vs <= length l)%nat -> length (write_seq l j vs) = length l.
Proof.
  intro Hl; unfold write_seq; rewrite !length_app, length_firstn, length_skipn; lia.
Qed.

Lemma skipn_nth_cons (l : list A) (j : nat) (d : A) :
  (j < length l)%nat -> skipn j l = nth j l d :: skipn (S j) l.
Proof.
  revert j; induction l as [|x l IH]; intros [|j] Hj; simpl in *; try lia; [reflexivity|].
  apply IH; lia.
Qed.
End Arrays.

(** ** Termination *)

(** C24. A loop [for (Int_t i = i0; i < n; i++)] whose start and bound are
    [Int_t] values terminates after exactly [max(n - i0, 0)] iterations:
    with more tests of the condition than that it stops, with the result
    of the body applied at [i0, ..., n - 1] in order; with fewer it has
    not stopped.  The increment never wraps around inside the loop. *)
Theorem for_loop_terminates {St : Type} (body : Z -> St -> St) (i0 n : Z) (s : St)
    (fuel : nat) :
  int32_in i0 = true -> int32_in n = true ->
  ((Z.to_nat (n - i0) < fuel)%nat ->
     for_loop fuel body i0 n s = Some (iterate_from body i0 (Z.to_nat (n - i0)) s)) /\
  ((fuel <= Z.to_nat (n - i0))%nat -> for_loop fuel body i0 n s = None).
Proof.
  intros Hi Hn; apply int32_in_spec in Hi, Hn.
  rewrite (for_loop_run body n (Z.to_nat (n - i0)) fuel i0 s) by lia.
  split; intro Hf; [apply Nat.ltb_lt in Hf | apply Nat.ltb_ge in Hf]; rewrite Hf; reflexivity.
Qed.

Lemma for_loop_terminates_witness :
  (int32_in 0 = true /\ int32_in 10 = true) /\
  (((Z.to_nat (10 - 0) < 11)%nat ->
     for_loop 11 (fun i s => s + i) 0 10 0
     = Some (iterate_from (fun i s => s + i) 0 (Z.to_nat (10 - 0)) 0)) /\
   ((11 <= Z.to_nat (10 - 0))%nat -> for_loop 11 (fun i s => s + i) 0 10 0 = None)).
Proof. split; [split; reflexivity | apply for_loop_terminates; reflexivity]. Defined.
