(* ===== verification/RealModel.v ===== *)
(** * [Double_t] as exact real numbers

    The instance of the [Double]/[DoubleLog] interface on the Standard
    Library's [R].  Arithmetic is exact, so theorems proved here are about
    the algorithm, not about rounding.  [Rtrunc] is the C++ conversion of a
    [double] to an integer (truncation toward zero); [Rlog] is [TMath::Log]
    with [None] for a non-positive argument.  The tactic [dsimpl] rewrites
    the interface operations into [R] operations for [lra], [nra] and
    [field]. *)

From Stdlib Require Import ZArith Reals Lra Lia.
From S2P Require Import Prelude.

Open Scope R_scope.

(** C++ [a < b] on reals. *)
Definition Rltb (a b : R) : bool := if Rlt_dec a b then true else false.

(** C++ [a == b] on reals. *)
Definition Reqb (a b : R) : bool := if Req_dec_T a b then true else false.

(** C++ [(Int_t) r]: truncation toward zero. *)
Definition Rtrunc (r : R) : Z :=
  if Rle_dec 0 r then Int_part r else (- Int_part (- r))%Z.

(** [TMath::Log]: defined for a positive argument only. *)
Definition Rlog (x : R) : option R := if Rlt_dec 0 x then Some (ln x) else None.

#[export] Instance R_Double : Double R := {
  d_add := Rplus; d_sub := Rminus; d_mul := Rmult; d_div := Rdiv;
  d_opp := Ropp; d_of_Z := IZR; d_ltb := Rltb; d_eqb := Reqb; d_to_int := Rtrunc;
  d_sqrt := sqrt
}.

#[export] Instance R_DoubleLog : DoubleLog R := { d_log := Rlog }.

Ltac dsimpl :=
  unfold dec, d_gtb in *;
  cbn [d_add d_sub d_mul d_div d_opp d_of_Z d_ltb d_eqb d_to_int d_sqrt d_log
       R_Double R_DoubleLog] in *;
  repeat match goal with
  | |- context [ (10 ^ Z.of_nat ?e)%Z ] =>
      let v := eval compute in (10 ^ Z.of_nat e)%Z in
      change (10 ^ Z.of_nat e)%Z with v
  | H : context [ (10 ^ Z.of_nat ?e)%Z ] |- _ =>
      let v := eval compute in (10 ^ Z.of_nat e)%Z in
      change (10 ^ Z.of_nat e)%Z with v in H
  end.

(** ** Comparisons *)

Lemma Rltb_true (a b : R) : Rltb a b = true <-> a < b.
Proof. unfold Rltb; destruct (Rlt_dec a b); split; congruence || tauto. Qed.

Lemma Rltb_false (a b : R) : Rltb a b = false <-> b <= a.
Proof.
  unfold Rltb; destruct (Rlt_dec a b); split; intro; try congruence; lra.
Qed.

Lemma Reqb_true (a b : R) : Reqb a b = true <-> a = b.
Proof. unfold Reqb; destruct (Req_dec_T a b); split; congruence || tauto. Qed.

Lemma Reqb_false (a b : R) : Reqb a b = false <-> a <> b.
Proof. unfold Reqb; destruct (Req_dec_T a b); split; congruence || tauto. Qed.

(** Case analysis on a comparison of the code, with its meaning. *)
Ltac case_ltb a b :=
  let E := fresh "E" in
  destruct (Rltb a b) eqn:E;
  [apply Rltb_true in E | apply Rltb_false in E].

Ltac case_eqb a b :=
  let E := fresh "E" in
  destruct (Reqb a b) eqn:E;
  [apply Reqb_true in E | apply Reqb_false in E].

(** ** Truncation *)

Lemma Int_part_bounds (r : R) : IZR (Int_part r) <= r < IZR (Int_part r) + 1.
Proof. pose proof (base_Int_part r); lra. Qed.

Lemma Rtrunc_nonneg (r : R) : 0 <= r -> Rtrunc r = Int_part r.
Proof. unfold Rtrunc; destruct (Rle_dec 0 r); [reflexivity | lra]. Qed.

Lemma Int_part_IZR (z : Z) : Int_part (IZR z) = z.
Proof. symmetry; apply Int_part_spec; lra. Qed.

Lemma Rtrunc_IZR (z : Z) : Rtrunc (IZR z) = z.
Proof.
  unfold Rtrunc; destruct (Rle_dec 0 (IZR z)).
  - apply Int_part_IZR.
  - rewrite <- opp_IZR, Int_part_IZR; lia.
Qed.

(** A conversion that runs no loop iteration: the argument is below one. *)
Lemma Rtrunc_le_0 (r : R) : r < 1 -> (Rtrunc r <= 0)%Z.
Proof.
  intro Hr; unfold Rtrunc; destruct (Rle_dec 0 r) as [H0|H0].
  - pose proof (Int_part_bounds r) as [Hl _].
    apply Z.lt_succ_r, lt_IZR; rewrite succ_IZR; lra.
  - pose proof (Int_part_bounds (- r)) as [_ Hu].
    assert (-1 < Int_part (- r))%Z by (apply lt_IZR; lra).
    lia.
Qed.

Lemma Rtrunc_bounds (r : R) :
  0 <= r -> (0 <= Rtrunc r)%Z /\ IZR (Rtrunc r) <= r < IZR (Rtrunc r) + 1.
Proof.
  intro Hr; rewrite Rtrunc_nonneg by exact Hr.
  pose proof (Int_part_bounds r) as Hb; split; [|exact Hb].
  assert (-1 < Int_part r)%Z by (apply lt_IZR; lra).
  lia.
Qed.

(** ** Logarithm *)

Lemma Rlog_pos (x : R) : 0 < x -> Rlog x = Some (ln x).
Proof. unfold Rlog; destruct (Rlt_dec 0 x); [reflexivity | lra]. Qed.

Lemma Rlog_nonpos (x : R) : x <= 0 -> Rlog x = None.
Proof. unfold Rlog; destruct (Rlt_dec 0 x); [lra | reflexivity]. Qed.

#[export] Hint Rewrite Int_part_IZR Rtrunc_IZR : cooling_rw.
