(* ===== verification/FloatModel.v ===== *)
(** * [Double_t] as IEEE-754 binary64 floats

    The instance of the [Double] interface on Rocq's primitive floats, the
    arithmetic [Double_t] has on the machines ROOT runs on: each operation is
    correctly rounded to nearest-even.  Integer literals are built exactly
    ([of_Z] is exact below [2^53]); [to_int] is the C++ conversion
    [(Int_t) d]: the real value truncated toward zero, read off the
    [Prim2SF] decomposition [m * 2^e].  No logarithm is provided: the
    definitions that need [TMath::Log] are studied on [RealModel] only. *)

From Stdlib Require Import ZArith Floats.
From S2P Require Import Prelude.

Local Open Scope float_scope.
#[local] Set Warnings "-inexact-float".

(** The double nearest to a positive integer, built by doubling (exact for
    integers below [2^53], which covers every literal of the macros). *)
Fixpoint of_pos (p : positive) : float :=
  match p with
  | xH => 1
  | xO q => 2 * of_pos q
  | xI q => 2 * of_pos q + 1
  end.

Definition of_Z (z : Z) : float :=
  match z with
  | Z0 => 0
  | Zpos p => of_pos p
  | Zneg p => - of_pos p
  end.

(** [(Int_t) f] for a finite [f]: drop the fractional part.  The C++
    conversion of a non-finite or out-of-range value is undefined; the
    model returns [0] for non-finite values. *)
Definition to_int (f : float) : Z :=
  match Prim2SF f with
  | S754_finite s m e =>
      let a := if (0 <=? e)%Z then (Zpos m * 2 ^ e)%Z else (Zpos m / 2 ^ (- e))%Z in
      if s then (- a)%Z else a
  | _ => 0%Z
  end.

#[export] Instance Float_Double : Double float := {
  d_add := PrimFloat.add; d_sub := PrimFloat.sub; d_mul := PrimFloat.mul;
  d_div := PrimFloat.div; d_opp := PrimFloat.opp; d_of_Z := of_Z;
  d_ltb := PrimFloat.ltb; d_eqb := PrimFloat.eqb; d_to_int := to_int; d_sqrt := PrimFloat.sqrt
}.

(** The literals of the macros are read as the compiler reads them. *)
Example dec_k_is_literal : dec 764 6 = 0.000764.
Proof. vm_compute. reflexivity. Qed.

Example dec_h_is_literal : dec 1 1 = 0.1.
Proof. vm_compute. reflexivity. Qed.

Example to_int_truncates : to_int (-2.5) = (-2)%Z /\ to_int 2.5 = 2%Z.
Proof. vm_compute. split; reflexivity. Qed.
