(* ===== verification/Config.v ===== *)
(** * Globals, experiment parameters and data arrays of the two macros

    [Globals] is the triple of process-wide [Double_t] variables [Ta], [To],
    [k] that both macros declare at file scope and that [len_dif] reads;
    [gr1_globals] and [gr2_globals] are their initial values.  [Experiment]
    holds the constants of [gr1()]'s Monte Carlo.  The data arrays are
    the literal arrays of the sources, written with [dec] so that every
    element is the double the compiler reads. *)

From Stdlib Require Import ZArith List.
From S2P Require Import Prelude.
Import ListNotations.

Local Open Scope dbl_scope.

Record Globals (F : Type) := mkGlobals {
  Ta : F;   (** ambient temperature [ºC] *)
  To : F;   (** initial water temperature [ºC] *)
  k : F     (** cooling constant [1/s] *)
}.
Arguments mkGlobals {F}.
Arguments Ta {F}.
Arguments To {F}.
Arguments k {F}.

(** Constants of the Monte Carlo of [gr1()]. *)
Record Experiment (F : Type) := mkExperiment {
  npts : nat;                 (** number of checkpoints *)
  nerr : nat;                 (** Gaussian draws per checkpoint *)
  nbins : Z;                  (** histogram bins *)
  sigma_tiempo : F;           (** time error [s] *)
  sigma_temperatura : F;      (** temperature error [ºC] *)
  Tmin : F                    (** first checkpoint [ºC] *)
}.
Arguments mkExperiment {F}.
Arguments npts {F}.
Arguments nerr {F}.
Arguments nbins {F}.
Arguments sigma_tiempo {F}.
Arguments sigma_temperatura {F}.
Arguments Tmin {F}.

Section Values.
Context {F : Type} `{Double F}.

Definition gr1_globals : Globals F := mkGlobals (#20) (#74) (dec 764 6).

Definition gr2_globals : Globals F := mkGlobals (- #8) (#74) (dec 764 6).

Definition gr1_experiment : Experiment F :=
  mkExperiment 10 1000 15 (#30) (#2) (#30).

(** ** Measured data of [gr1()] *)

Definition tiempo_plas_real : list F :=
  [#0; dec 61012 3; dec 154066 3; dec 271057 3; dec 426037 3; dec 635080 3;
   dec 880026 3; dec 1227030 3; dec 1693073 3; dec 2451036 3].

Definition tiempo_ceram_real : list F :=
  [#0; dec 31083 3; dec 105037 3; dec 193050 3; dec 325006 3; dec 498057 3;
   dec 734031 3; dec 1040016 3; dec 1478095 3; dec 2105031 3].

Definition tiempo_vidrio_real : list F :=
  [#0; dec 55041 3; dec 140026 3; dec 253067 3; dec 399059 3; dec 582015 3;
   dec 830067 3; dec 1157082 3; dec 1622086 3; dec 2318051 3].

Definition temperatura_real : list F :=
  [#74; #70; #65; #60; #55; #50; #45; #40; #35; #30].

Definition tiempo_real_err : list F := repeat (#1) 10.

Definition temperatura_real_err : list F := repeat (#1) 10.

(** ** Measured data of [gr2()] ([tiempo_porc_nev] does not compile, see
    the findings of the manifest, and is left out) *)

(** The room-temperature times, drawn next to the fridge data. *)
Definition tiempo_plas_hab : list F :=
  [#0; dec 61012 3; dec 154066 3; dec 271057 3; dec 426037 3; dec 635080 3;
   dec 880026 3; dec 1227030 3; dec 1693073 3; dec 2451036 3].

Definition tiempo_porc_hab : list F :=
  [#0; dec 31083 3; dec 105037 3; dec 193050 3; dec 325006 3; dec 498057 3;
   dec 734031 3; dec 1040016 3; dec 1478095 3; dec 2105031 3].

Definition tiempo_vidr_hab : list F :=
  [#0; dec 55041 3; dec 140026 3; dec 253067 3; dec 399059 3; dec 582015 3;
   dec 830067 3; dec 1157062 3; dec 1622082 3; dec 2318051 3].

Definition tiempo_plas_nev : list F :=
  [#0; dec 49046 3; dec 123021 3; dec 214028 3; dec 322074 3; dec 591064 3;
   dec 762054 3; dec 981024 3; dec 1241062 3; dec 1541059 3].

Definition tiempo_vidr_nev : list F :=
  [#0; dec 48069 3; dec 116010 3; dec 201013 3; dec 299082 3; dec 415034 3;
   dec 545016 3; dec 699061 3; dec 896004 3; dec 1145097 3].

Definition temperatura_real_p : list F :=
  [#71; #66; #59; #53; #50; #45; #40; #35; #30; #25].
End Values.
