(* ===== verification/Integrator.v ===== *)
(** * The Runge-Kutta-4 integrator: [len_dif] and [rk4_solver]

    [len_dif] is the right-hand side of the cooling law, reading the globals
    [Ta] and [k] ([gr1.cpp:273-275]).  [rk4_step] is one pass of the loop
    body of [rk4_solver] ([gr1.cpp:281-288]), [rk4_loop] the [for] loop,
    [rk4_steps] the conversion [Int_t n = (x - xo)/h] ([gr1.cpp:279]), and
    [rk4] the whole function ([gr1.cpp:278-290]), generic in the derivative
    as [gr2.cpp]'s prototype declares it ([gr2.cpp:18]); [rk4_solver] is
    [rk4] applied to [len_dif], the function both files define
    ([gr2.cpp:236-248] is the same code).

    The theorems: on any [Double] instance, a non-positive step count leaves
    [yo] unchanged; on [R], one step multiplies the distance to [Ta] by the
    degree-4 Taylor polynomial [rk4_factor] of [exp(-h k)], so the loop has
    a closed form; the step count is the floor of [(x - xo)/h]; the solver
    equals the specification's integrator [integrate_spec] ([spec_steps]
    written from the classical stages of the specification, with its
    [floor] step count), on every derivative; for
    [0 < h k <= 2] the numerical solution decays monotonically toward [Ta]
    without crossing it; [rk4_cpp], the function with its [Int_t] loop
    counter ([Loops.for_loop]), stops and equals [rk4] whenever the step
    count is an [Int_t] value; on binary64 the conversion of [0.3/0.1]
    gives two steps. *)

From Stdlib Require Import ZArith Reals Lra Lia List Floats.
From S2P Require Import Prelude Loops RealModel FloatModel Config.

Section Integrator.
Context {F : Type} `{Double F}.
Local Open Scope dbl_scope.

Definition len_dif (g : Globals F) (x y : F) : F := - k g * (y - Ta g).

(** One iteration of the loop body: the four stages, the update of [y]
    and the advance of [xo]; the state is [(xo, y)]. *)
Definition rk4_step (f : F -> F -> F) (h : F) (st : F * F) : F * F :=
  let '(xo, y) := st in
  let k1 := h * f xo y in
  let k2 := h * f (xo + dec 5 1 * h) (y + dec 5 1 * k1) in
  let k3 := h * f (xo + dec 5 1 * h) (y + dec 5 1 * k2) in
  let k4 := h * f (xo + h) (y + k3) in
  (xo + h, y + (k1 + #2 * k2 + #2 * k3 + k4) / #6).

Fixpoint rk4_loop (f : F -> F -> F) (h : F) (n : nat) (st : F * F) : F * F :=
  match n with
  | O => st
  | S n' => rk4_loop f h n' (rk4_step f h st)
  end.

(** [Int_t n = (x - xo)/h;] *)
Definition rk4_steps (xo h x : F) : Z := d_to_int ((x - xo) / h).

(** The loop [for (i = 0; i < n; i++)] runs [max n 0] times. *)
Definition rk4 (f : F -> F -> F) (xo yo h x : F) : F :=
  snd (rk4_loop f h (Z.to_nat (rk4_steps xo h x)) (xo, yo)).

Definition rk4_solver (g : Globals F) (xo yo h x : F) : F :=
  rk4 (len_dif g) xo yo h x.

(** The same function with the loop as the machine runs it: the [Int_t]
    counter [i] from [0] while [i < n], at most [fuel] tests. *)
Definition rk4_cpp (fuel : nat) (f : F -> F -> F) (xo yo h x : F) : option F :=
  option_map snd (for_loop fuel (fun _ st => rk4_step f h st) 0 (rk4_steps xo h x) (xo, yo)).

(** When the conversion yields no positive count the loop body never runs
    and [rk4_solver] returns [yo] as it was passed (bit for bit on floats). *)
Lemma iterate_rk4_step (f : F -> F -> F) (h : F) (i : Z) (k : nat) (st : F * F) :
  iterate_from (fun _ st => rk4_step f h st) i k st = rk4_loop f h k st.
Proof. revert i st; induction k as [|k IH]; intros i st; [reflexivity|]. apply IH. Qed.

Lemma rk4_no_step (f : F -> F -> F) (xo yo h x : F) :
  (rk4_steps xo h x <= 0)%Z -> rk4 f xo yo h x = yo.
Proof. intro Hn; unfold rk4; rewrite Z_to_nat_nonpos by exact Hn; reflexivity. Qed.
End Integrator.

(** ** On exact real arithmetic *)

Local Open Scope R_scope.

(** The RK4 amplification factor of the linear law, the degree-4 Taylor
    polynomial of [exp (- z)] at [z = h k]. *)
Definition rk4_factor (z : R) : R := 1 - z + z ^ 2 / 2 - z ^ 3 / 6 + z ^ 4 / 24.

(** The specification's integrator, written from its contract
    ([integrate(f, x0, y0, h, x_target)]) and not from the code: [n] steps
    of the classical update [k1 = h f(x, y)], [k2 = h f(x + h/2, y + k1/2)],
    [k3 = h f(x + h/2, y + k2/2)], [k4 = h f(x + h, y + k3)],
    [y += (k1 + 2 k2 + 2 k3 + k4)/6], [x += h]; [n = floor((x_target -
    x0)/h)], and [y0] unchanged when [n] is zero or negative. *)
Fixpoint spec_steps (f : R -> R -> R) (h : R) (n : nat) (x y : R) : R :=
  match n with
  | O => y
  | S n' =>
      let k1 := h * f x y in
      let k2 := h * f (x + h / 2) (y + k1 / 2) in
      let k3 := h * f (x + h / 2) (y + k2 / 2) in
      let k4 := h * f (x + h) (y + k3) in
      spec_steps f h n' (x + h) (y + (k1 + 2 * k2 + 2 * k3 + k4) / 6)
  end.

Definition integrate_spec (f : R -> R -> R) (x0 y0 h xt : R) : R :=
  let n := Int_part ((xt - x0) / h) in
  if (n <=? 0)%Z then y0 else spec_steps f h (Z.to_nat n) x0 y0.

(** One step on the cooling law scales the distance to [Ta] by
    [rk4_factor (h k)]. *)
Lemma rk4_step_cooling (g : Globals R) (h xo y : R) :
  snd (rk4_step (len_dif g) h (xo, y)) - Ta g = (y - Ta g) * rk4_factor (h * k g).
Proof. unfold rk4_step, len_dif, rk4_factor; dsimpl; cbn; field. Qed.

Lemma rk4_loop_cooling (g : Globals R) (h : R) (n : nat) (xo y : R) :
  snd (rk4_loop (len_dif g) h n (xo, y))
  = Ta g + (y - Ta g) * rk4_factor (h * k g) ^ n.
Proof.
  revert xo y; induction n as [|n IH]; intros xo y; [simpl; ring|].
  cbn [rk4_loop pow].
  destruct (rk4_step (len_dif g) h (xo, y)) as [x' y'] eqn:E.
  rewrite IH. pose proof (rk4_step_cooling g h xo y) as Hs.
  rewrite E in Hs; simpl in Hs.
  replace y' with (Ta g + (y - Ta g) * rk4_factor (h * k g)) by lra; ring.
Qed.

(** The loop body is the specification's update, [0.5 h] being [h/2]. *)
Lemma rk4_loop_spec_steps (f : R -> R -> R) (h : R) (n : nat) (x y : R) :
  snd (rk4_loop f h n (x, y)) = spec_steps f h n x y.
Proof.
  revert x y; induction n as [|n IH]; intros x y; [reflexivity|].
  cbn [rk4_loop spec_steps]; unfold rk4_step; dsimpl; cbn [snd].
  assert (Hh : forall a, 5 / 10 * a = a / 2) by (intro; field).
  now rewrite IH, !Hh.
Qed.

(** Truncation and floor select the same number of loop iterations. *)
Lemma to_nat_Rtrunc_Int_part (r : R) : Z.to_nat (Rtrunc r) = Z.to_nat (Int_part r).
Proof.
  destruct (Rle_lt_dec 0 r) as [Hr|Hr]; [now rewrite Rtrunc_nonneg|].
  pose proof (Rtrunc_le_0 r ltac:(lra)) as Ht.
  pose proof (Int_part_bounds r) as [Hl _].
  assert (Int_part r < 0)%Z by (apply lt_IZR; lra).
  rewrite !Z_to_nat_nonpos by lia; reflexivity.
Qed.

(** The iteration count is monotone in the target abscissa. *)
Lemma to_nat_Int_part_mono (a b : R) :
  a <= b -> (Z.to_nat (Int_part a) <= Z.to_nat (Int_part b))%nat.
Proof.
  intro Hab; pose proof (Int_part_bounds a); pose proof (Int_part_bounds b).
  assert (Int_part a < Int_part b + 1)%Z by (apply lt_IZR; rewrite plus_IZR; lra).
  lia.
Qed.

Lemma rk4_factor_bounds (z : R) : 0 < z <= 2 -> 0 < rk4_factor z < 1.
Proof. intros [H0 H2]; unfold rk4_factor; split; nra. Qed.

Lemma pow_le_one (q : R) (n : nat) : 0 <= q <= 1 -> q ^ n <= 1.
Proof.
  intro Hq; induction n as [|n IH]; simpl; [lra|].
  pose proof (pow_le q n (proj1 Hq)); nra.
Qed.

Lemma pow_le_decr (q : R) (m n : nat) : 0 <= q <= 1 -> (m <= n)%nat -> q ^ n <= q ^ m.
Proof.
  intros Hq Hmn. replace n with (m + (n - m))%nat by lia.
  rewrite pow_add. pose proof (pow_le q m (proj1 Hq)).
  pose proof (pow_le_one q (n - m) Hq). nra.
Qed.

#[export] Hint Resolve rk4_factor_bounds pow_le_one : cooling.

(** ** The integrator's theorems *)

(** C2. Closed form of [rk4_solver] on the cooling law: after the
    [n = (Int_t)((x - xo)/h)] iterations of the loop, the result is
    [Ta + (yo - Ta) * P(h k)^n] with [P] the degree-4 Taylor polynomial of
    [exp(-z)]. *)
Theorem rk4_solver_closed_form (g : Globals R) (xo yo h x : R) :
  rk4_solver g xo yo h x
  = Ta g + (yo - Ta g) * rk4_factor (h * k g) ^ Z.to_nat (Rtrunc ((x - xo) / h)).
Proof. apply rk4_loop_cooling. Qed.

(** C23. For a positive step and a target at or after [xo], the loop runs
    [n] times with [n h <= x - xo < (n + 1) h]: the remainder interval
    shorter than [h] is not integrated. *)
Theorem rk4_steps_floor (xo h x : R) :
  0 < h -> xo <= x ->
  (0 <= rk4_steps xo h x)%Z /\
  IZR (rk4_steps xo h x) * h <= x - xo < (IZR (rk4_steps xo h x) + 1) * h.
Proof.
  intros Hh Hx; unfold rk4_steps; dsimpl.
  assert (Hr : 0 <= (x - xo) / h)
    by (unfold Rdiv; apply Rmult_le_pos; [lra | apply Rlt_le, Rinv_0_lt_compat; lra]).
  destruct (Rtrunc_bounds _ Hr) as [Hn [Hl Hu]].
  split; [exact Hn|].
  apply Rmult_le_compat_r with (r := h) in Hl; [|lra].
  apply Rmult_lt_compat_r with (r := h) in Hu; [|lra].
  unfold Rdiv in *; rewrite Rmult_assoc, Rinv_l in Hl, Hu by lra; lra.
Qed.

Lemma rk4_steps_floor_witness :
  (0 < 1 / 10 /\ 0 <= 3) /\
  ((0 <= rk4_steps (F := R) 0%R (1 / 10)%R 3%R)%Z /\
   IZR (rk4_steps (F := R) 0 (1 / 10) 3) * (1 / 10) <= 3 - 0
     < (IZR (rk4_steps (F := R) 0 (1 / 10) 3) + 1) * (1 / 10)).
Proof. split; [lra | apply rk4_steps_floor; lra]. Defined.

(** C3. Refinement of the specification: [rk4], the loop of
    [rk4_solver] with its stages written as the code writes them ([0.5*h],
    [0.5*k1]) and its truncating [Int_t] conversion, computes on every
    derivative, step and target what the specification's integrator
    [integrate_spec] (written from section 4.1, with [floor] and the
    classical stages) computes. *)
Theorem rk4_refines_spec (f : R -> R -> R) (xo yo h x : R) :
  rk4 f xo yo h x = integrate_spec f xo yo h x.
Proof.
  unfold rk4, integrate_spec, rk4_steps; dsimpl.
  rewrite to_nat_Rtrunc_Int_part, rk4_loop_spec_steps.
  destruct (Z.leb_spec (Int_part ((x - xo) / h)) 0) as [Hn|Hn]; [|reflexivity].
  now rewrite Z_to_nat_nonpos.
Qed.

(** C21. Invariant of the loop: with [0 < h k <= 2] and [Ta < yo], the
    numerical temperature stays strictly above [Ta] and never exceeds [yo]. *)
Theorem rk4_solver_decay (g : Globals R) (xo yo h x : R) :
  0 < h * k g <= 2 -> Ta g < yo ->
  Ta g < rk4_solver g xo yo h x <= yo.
Proof.
  intros Hz Hy; unfold rk4_solver, rk4; rewrite rk4_loop_cooling.
  set (n := Z.to_nat _); pose proof (rk4_factor_bounds _ Hz) as Hq.
  pose proof (pow_lt (rk4_factor (h * k g)) n (proj1 Hq)).
  pose proof (pow_le_one (rk4_factor (h * k g)) n ltac:(lra)). nra.
Qed.

(** C22. The model curve is non-increasing in time: a later target never
    gives a higher temperature. *)
Theorem rk4_solver_antitone (g : Globals R) (xo yo h x1 x2 : R) :
  0 < h -> 0 < h * k g <= 2 -> Ta g < yo -> x1 <= x2 ->
  rk4_solver g xo yo h x2 <= rk4_solver g xo yo h x1.
Proof.
  intros Hh Hz Hy Hx; unfold rk4_solver, rk4, rk4_steps; rewrite !rk4_loop_cooling; dsimpl.
  rewrite !to_nat_Rtrunc_Int_part.
  pose proof (rk4_factor_bounds _ Hz) as Hq.
  assert (Hle : (x1 - xo) / h <= (x2 - xo) / h)
    by (apply Rmult_le_compat_r; [apply Rlt_le, Rinv_0_lt_compat|]; lra).
  pose proof (pow_le_decr (rk4_factor (h * k g)) _ _ ltac:(lra)
                (to_nat_Int_part_mono _ _ Hle)).
  nra.
Qed.

(** The parameters of [gr1()]: [h k = 0.1 * 0.000764]. *)
Lemma gr1_hk_range : 0 < dec 1 1 * k (gr1_globals (F := R)) <= 2.
Proof. unfold gr1_globals; simpl k; dsimpl; lra. Qed.

Lemma gr1_Ta_below_To : Ta (gr1_globals (F := R)) < 74.
Proof. unfold gr1_globals; simpl Ta; dsimpl; lra. Qed.

Lemma rk4_solver_decay_witness :
  (0 < dec 1 1 * k (gr1_globals (F := R)) <= 2 /\ Ta (gr1_globals (F := R)) < 74) /\
  (Ta gr1_globals < rk4_solver gr1_globals 0 74 (dec 1 1) (2451036 / 1000) <= 74).
Proof.
  split; [split; [exact gr1_hk_range | exact gr1_Ta_below_To]|].
  apply rk4_solver_decay; [exact gr1_hk_range | exact gr1_Ta_below_To].
Defined.

Lemma rk4_solver_antitone_witness :
  (0 < dec 1 1 /\ 0 < dec 1 1 * k (gr1_globals (F := R)) <= 2 /\
   Ta (gr1_globals (F := R)) < 74 /\ 1000 <= 2000) /\
  rk4_solver gr1_globals 0 74 (dec 1 1) 2000 <= rk4_solver gr1_globals 0 74 (dec 1 1) 1000.
Proof.
  split.
  - split; [dsimpl; lra | split; [exact gr1_hk_range | split; [exact gr1_Ta_below_To | lra]]].
  - apply rk4_solver_antitone;
      [dsimpl; lra | exact gr1_hk_range | exact gr1_Ta_below_To | lra].
Defined.

(** Over the range [[0, 3000]] of the [TF1], the step count
    [(Int_t)(t/0.1)] of the model lies in [[0, 30000]], far inside
    [Int_t]: the conversion never overflows. *)
Theorem rk4_steps_fit_range (t : R) :
  0 <= t <= 3000 ->
  (0 <= rk4_steps (F := R) (#0)%D (dec 1 1) t <= 30000)%Z /\ (30000 < 2 ^ 31 - 1)%Z.
Proof.
  intro Ht; unfold rk4_steps; dsimpl.
  replace ((t - 0) / (1 / 10)) with (10 * t) by field.
  destruct (Rtrunc_bounds (10 * t) ltac:(lra)) as [Hn [Hl _]].
  assert (Rtrunc (10 * t) <= 30000)%Z by (apply le_IZR; lra).
  lia.
Qed.

(** On binary64 the quotient [(x - xo)/h] is rounded before the
    conversion: for [x = 0.3], [h = 0.1] it is [2.9999999999999996], so the
    loop runs two steps where the exact quotient gives three. *)
Example rk4_steps_float_0_3 :
  rk4_steps (F := PrimFloat.float) (#0)%D (dec 1 1) (dec 3 1) = 2%Z /\
  rk4_steps (F := R) (#0)%D (dec 1 1) (dec 3 1) = 3%Z.
Proof.
  split; [vm_compute; reflexivity|].
  unfold rk4_steps; dsimpl. replace ((3 / 10 - 0) / (1 / 10)) with (IZR 3) by field.
  now autorewrite with cooling_rw.
Qed.

(** C17. Termination and refinement of [rk4_solver]'s loop: when the step
    count [n = (Int_t)((x - xo)/h)] is an [Int_t] value, the C++ loop with
    its counter stops after [max(n, 0)] iterations and returns what [rk4]
    computes, on every [Double_t] semantics. *)
Theorem rk4_cpp_terminates {F : Type} `{Double F} (fuel : nat) (f : F -> F -> F) (xo yo h x : F) :
  int32_in (rk4_steps xo h x) = true -> (Z.to_nat (rk4_steps xo h x) < fuel)%nat ->
  rk4_cpp fuel f xo yo h x = Some (rk4 f xo yo h x).
Proof.
  intros Hn Hf; apply int32_in_spec in Hn; unfold rk4_cpp, rk4.
  rewrite (for_loop_run _ _ (Z.to_nat (rk4_steps xo h x)) fuel 0)
    by (unfold Int_min, Int_max in *; lia).
  apply Nat.ltb_lt in Hf; rewrite Hf; cbn [option_map].
  now rewrite iterate_rk4_step.
Qed.

(** On binary64, the model at [t = 1] s: ten steps of [0.1]. *)
Lemma rk4_cpp_terminates_witness :
  (int32_in (rk4_steps (F := PrimFloat.float) (#0)%D (dec 1 1) (#1)%D) = true /\
   (Z.to_nat (rk4_steps (F := PrimFloat.float) (#0)%D (dec 1 1) (#1)%D) < 11)%nat) /\
  rk4_cpp 11 (len_dif gr1_globals) (#0)%D (#74)%D (dec 1 1) (#1)%D
  = Some (rk4 (F := PrimFloat.float) (len_dif gr1_globals) (#0)%D (#74)%D (dec 1 1) (#1)%D).
Proof.
  assert (Hn : int32_in (rk4_steps (F := PrimFloat.float) (#0)%D (dec 1 1) (#1)%D) = true /\
               (Z.to_nat (rk4_steps (F := PrimFloat.float) (#0)%D (dec 1 1) (#1)%D) < 11)%nat)
    by (split; [vm_compute; reflexivity | vm_compute; lia]).
  split; [exact Hn | apply rk4_cpp_terminates; apply Hn].
Defined.

