(* ===== verification/Fit.v ===== *)
(** * The fit model [fitFunc], ROOT's chi-square, and the shared [TF1]

    [fitFunc] is the model both macros hand to [TF1 f1]
    ([gr1.cpp:292-300]): it reads [par[0]] and [par[1]] into locals named
    [To] and [k] and calls [rk4_solver(0, To, 0.1, t)].  [rk4_solver] calls
    [len_dif], which reads the *global* [k]; the local [k] is never used.

    [TGraphErrors_new] builds a graph from the first [n] entries of four
    arrays.  [chi2] is the objective [TGraphErrors::Fit] minimises by
    default: the effective-variance chi-square
    [sum (y - f(x))^2 / (ey^2 + (ex f'(x))^2)], summed over the points in
    order.  ROOT's derivative rule and its minimiser (MINUIT) are not part
    of the repository: they form the [FitBackend] record, on which every
    theorem of this file is universally quantified.  A [Fit] call starts
    from the current parameters of the [TF1], stores the result back into
    the same [TF1] and keeps a copy in the graph ([FitSession] models
    that state).  The graphs are those of the macros: [gr1_graphs] and [gr2_graphs] are fitted,
    [gr2_room_graphs] are [gr2()]'s room-temperature graphs, drawn only.

    Theorems: the model and the objective do not depend on [par[1]], so the
    chi-square cannot determine [k]; ROOT's effective-variance objective
    never exceeds the specification's one, and equals it exactly when at
    every point the residual or the x-error term [ex f'(x)] vanishes;
    [gr2()]'s glass data is not [gr1()]'s. *)

From Stdlib Require Import ZArith Reals Lra Lia List Floats.
From S2P Require Import Prelude RealModel FloatModel Config Integrator.
Import ListNotations.

Section FitModel.
Context {F : Type} `{Double F}.
Local Open Scope dbl_scope.

(** [Double_t fitFunc(Double_t* x, Double_t* par)] *)
Definition fitFunc (g : Globals F) (x par : list F) : F :=
  let To := nth 0 par (#0) in
  let k := nth 1 par (#0) in
  let t := nth 0 x (#0) in
  let y := rk4_solver g (#0) To (dec 1 1) t in
  y.

(** The one-dimensional function [t |-> fitFunc(&t, par)] the fitter sees. *)
Definition model (g : Globals F) (par : list F) : F -> F :=
  fun t => fitFunc g [t] par.

Record TGraphErrors := mkGraph {
  gx : list F; gy : list F; gex : list F; gey : list F
}.

(** [new TGraphErrors(n, x, y, ex, ey)] copies the first [n] entries. *)
Definition TGraphErrors_new (n : nat) (x y ex ey : list F) : TGraphErrors :=
  mkGraph (firstn n x) (firstn n y) (firstn n ex) (firstn n ey).

Definition graph_points (gr : TGraphErrors) : list (F * F * F * F) :=
  combine (combine (combine (gx gr) (gy gr)) (gex gr)) (gey gr).

(** The parts of ROOT's fitting machinery the macros rely on: the
    derivative rule of the effective variance and the minimiser, which
    maps an objective and a start point to the fitted parameters. *)
Record FitBackend := mkFitBackend {
  dfdx : (F -> F) -> F -> F;
  minimize : (list F -> F) -> list F -> list F
}.

Definition chi2_term (bk : FitBackend) (f : F -> F) (pt : F * F * F * F) : F :=
  let '(x, y, ex, ey) := pt in
  let fval := f x in
  let df := dfdx bk f x in
  (y - fval) * (y - fval) / (ey * ey + ex * ex * df * df).

(** The objective of [gr->Fit("f1")]. *)
Definition chi2 (bk : FitBackend) (g : Globals F) (gr : TGraphErrors)
    (par : list F) : F :=
  fold_left (fun acc pt => acc + chi2_term bk (model g par) pt)
    (graph_points gr) (#0).

(** The three fits of [gr1()]: plastic, porcelain, glass. *)
Definition gr1_graphs : list TGraphErrors :=
  [TGraphErrors_new 10 tiempo_plas_real temperatura_real tiempo_real_err temperatura_real_err;
   TGraphErrors_new 10 tiempo_ceram_real temperatura_real tiempo_real_err temperatura_real_err;
   TGraphErrors_new 10 tiempo_vidrio_real temperatura_real tiempo_real_err temperatura_real_err].

(** The three fits of [gr2()] on the fridge data, at [Ta = -8]; the
    porcelain times are a parameter, their initialiser [gr2.cpp:32] being
    invalid C++. *)
Definition gr2_graphs (tiempo_porc_nev : list F) : list TGraphErrors :=
  [TGraphErrors_new 10 tiempo_plas_nev temperatura_real tiempo_real_err temperatura_real_err;
   TGraphErrors_new 10 tiempo_porc_nev temperatura_real_p tiempo_real_err temperatura_real_err;
   TGraphErrors_new 10 tiempo_vidr_nev temperatura_real tiempo_real_err temperatura_real_err].

(** The room-temperature graphs [gr1], [gr3], [gr5] of [gr2()], drawn
    without a fit. *)
Definition gr2_room_graphs : list TGraphErrors :=
  [TGraphErrors_new 10 tiempo_plas_hab temperatura_real tiempo_real_err temperatura_real_err;
   TGraphErrors_new 10 tiempo_porc_hab temperatura_real tiempo_real_err temperatura_real_err;
   TGraphErrors_new 10 tiempo_vidr_hab temperatura_real tiempo_real_err temperatura_real_err].

(** ** Generic facts *)

Lemma model_par1 (g : Globals F) (To k1 k2 : F) :
  model g [To; k1] = model g [To; k2].
Proof. reflexivity. Qed.

End FitModel.

Arguments TGraphErrors : clear implicits.
Arguments FitBackend : clear implicits.

(** ** What the fit can determine *)

(** C1. The objective [TGraphErrors::Fit] minimises is the same function
    of [par[0]] whatever [par[1]] is, on every backend and every [Double_t]
    semantics: [fitFunc] never passes its local [k] to the integrator. *)
Theorem chi2_ignores_par1 {F : Type} `{Double F} (bk : FitBackend F) (g : Globals F)
    (gr : TGraphErrors F) (To k1 k2 : F) :
  chi2 bk g gr [To; k1] = chi2 bk g gr [To; k2].
Proof. unfold chi2; now rewrite (model_par1 g To k1 k2). Qed.

Local Open Scope R_scope.

(** A one-point graph at [t = 0], and a backend that does not move. *)
Definition graph_at_0 (T0 : R) : TGraphErrors R := mkGraph [0] [T0] [1] [1].

Definition idle_backend : FitBackend R := mkFitBackend (fun _ _ => 0) (fun _ p => p).

(** The objective the specification states: residuals weighted by the
    temperature errors only. *)
Definition chi2_spec_term (g : Globals R) (par : list R) (pt : R * R * R * R) : R :=
  let '(x, y, ex, ey) := pt in ((y - model g par x) / ey) ^ 2.

Definition chi2_spec (g : Globals R) (gr : TGraphErrors R) (par : list R) : R :=
  fold_left (fun acc pt => acc + chi2_spec_term g par pt) (graph_points gr) 0.

Lemma fold_left_add_sum {A : Type} (f : A -> R) (l : list A) (a : R) :
  fold_left (fun acc x => acc + f x) l a = a + fold_right (fun x acc => f x + acc) 0 l.
Proof. revert a; induction l as [|x l IH]; intro a; simpl; [ring | rewrite IH; ring]. Qed.

(** Two sums of termwise ordered terms are ordered, and equal exactly when
    every term is. *)
Lemma sum_le_eq_iff {A : Type} (f h : A -> R) (l : list A) :
  (forall x, In x l -> f x <= h x) ->
  fold_right (fun x acc => f x + acc) 0 l <= fold_right (fun x acc => h x + acc) 0 l /\
  (fold_right (fun x acc => f x + acc) 0 l = fold_right (fun x acc => h x + acc) 0 l
   <-> Forall (fun x => f x = h x) l).
Proof.
  induction l as [|x l IH]; intro Hfh; simpl; [split; [lra | split; auto]|].
  pose proof (Hfh x (or_introl eq_refl)) as Hx.
  destruct (IH (fun y Hy => Hfh y (or_intror Hy))) as [Hle Heq].
  split; [lra|]; split.
  - intro E; constructor; [lra|]; apply Heq; lra.
  - intro HF; inversion HF as [|? ? E1 E2]; subst; rewrite E1, (proj2 Heq E2); reflexivity.
Qed.

(** On one point with [ey <> 0] ROOT's term is at most the specification's,
    and equal to it exactly when the residual or [ex f'(x)] vanishes. *)
Lemma chi2_term_vs_spec (bk : FitBackend R) (f : R -> R) (x y ex ey : R) :
  ey <> 0 ->
  chi2_term bk f (x, y, ex, ey) <= ((y - f x) / ey) ^ 2 /\
  (chi2_term bk f (x, y, ex, ey) = ((y - f x) / ey) ^ 2
   <-> y - f x = 0 \/ ex * dfdx bk f x = 0).
Proof.
  intro Hey; unfold chi2_term; dsimpl.
  set (d := dfdx bk f x); set (r := y - f x).
  assert (Hp : 0 < ey * ey) by (apply Rsqr_pos_lt in Hey; exact Hey).
  replace (ex * ex * d * d) with ((ex * d) * (ex * d)) by ring.
  pose proof (Rle_0_sqr (ex * d)) as Hd; pose proof (Rle_0_sqr r) as Hr; unfold Rsqr in *.
  replace ((r / ey) ^ 2) with (r * r / (ey * ey)) by (field; exact Hey).
  split; [|split].
  - unfold Rdiv; apply Rmult_le_compat_l; [exact Hr|]; apply Rinv_le_contravar; lra.
  - intro E; destruct (Req_dec r 0) as [|Hr0]; [now left|right].
    destruct (Req_dec (ex * d) 0) as [|Hd0]; [assumption|exfalso].
    assert (Hlt : r * r / (ey * ey + ex * d * (ex * d)) < r * r / (ey * ey)).
    { unfold Rdiv; apply Rmult_lt_compat_l; [apply Rsqr_pos_lt in Hr0; exact Hr0|].
      apply Rinv_lt_contravar; [nra|]. apply Rsqr_pos_lt in Hd0; unfold Rsqr in Hd0; lra. }
    lra.
  - intros [E|E]; rewrite E; [unfold Rdiv; ring | field; exact Hey].
Qed.

(** C16. ROOT's effective-variance chi-square, the objective
    [gr->Fit("f1")] minimises, never exceeds the specification's objective,
    and it equals it exactly when at every point the residual is zero or the
    x-error term [ex f'(x)] is: the time errors of the graphs are not "used
    only for display", they lower the weight of every point where the
    model has a slope and does not pass through the data. *)
Theorem chi2_vs_spec (bk : FitBackend R) (g : Globals R) (gr : TGraphErrors R) (par : list R) :
  Forall (fun pt => let '(_, _, _, ey) := pt in ey <> 0) (graph_points gr) ->
  chi2 bk g gr par <= chi2_spec g gr par /\
  (chi2 bk g gr par = chi2_spec g gr par <->
   Forall (fun pt => let '(x, y, ex, _) := pt in
             y - model g par x = 0 \/ ex * dfdx bk (model g par) x = 0) (graph_points gr)).
Proof.
  intro Hey; rewrite Forall_forall in Hey; unfold chi2, chi2_spec; dsimpl.
  rewrite !fold_left_add_sum, !Rplus_0_l.
  destruct (sum_le_eq_iff (chi2_term bk (model g par)) (chi2_spec_term g par) (graph_points gr))
    as [Hle Heq].
  { intros [[[x y] ex] ey] Hin; apply (chi2_term_vs_spec bk _ x y ex ey (Hey _ Hin)). }
  split; [exact Hle|]; rewrite Heq, !Forall_forall.
  split; intros HF [[[x y] ex] ey] Hin; specialize (HF _ Hin);
    apply (chi2_term_vs_spec bk _ x y ex ey (Hey _ Hin)); exact HF.
Qed.

Lemma chi2_vs_spec_witness :
  Forall (fun pt => let '(_, _, _, ey) := pt in ey <> 0) (graph_points (graph_at_0 74)) /\
  (chi2 idle_backend gr1_globals (graph_at_0 74) [74; 1]
     <= chi2_spec gr1_globals (graph_at_0 74) [74; 1] /\
   (chi2 idle_backend gr1_globals (graph_at_0 74) [74; 1]
      = chi2_spec gr1_globals (graph_at_0 74) [74; 1] <->
    Forall (fun pt => let '(x, y, ex, _) := pt in
              y - model gr1_globals [74; 1] x = 0 \/
              ex * dfdx idle_backend (model gr1_globals [74; 1]) x = 0)
      (graph_points (graph_at_0 74)))).
Proof.
  assert (H1 : Forall (fun pt => let '(_, _, _, ey) := pt in ey <> 0) (graph_points (graph_at_0 74)))
    by (repeat constructor; lra).
  split; [exact H1 | apply chi2_vs_spec; exact H1].
Defined.

(** [gr2()]'s room-temperature glass times are not [gr1()]'s: they differ
    in the entries 7 and 8 ([gr2.cpp:33], [gr1.cpp:41]). *)
Example gr2_glass_times_differ :
  map (fun '(a, b) => PrimFloat.eqb a b)
    (combine (tiempo_vidr_hab (F := PrimFloat.float)) tiempo_vidrio_real)
  = [true; true; true; true; true; true; true; false; false; true].
Proof. vm_compute; reflexivity. Qed.

