(* ===== verification/FitSession.v ===== *)
(** * The fits of a macro: the shared [TF1], the graph objects, [GetFunction]

    Each macro creates one [TF1 *f1] ([gr1.cpp:66-68], [gr2.cpp:42-44]),
    six [TGraphErrors] objects, and fits three of them with
    [gr->Fit("f1")] ([gr1.cpp:126], [168], [207]; [gr2.cpp:102], [138],
    [172]).  Later it fetches the fitted curves back with
    [TF1 *f2 = gr2->GetFunction("f1")], [f3] from [gr4], [f4] from [gr6]
    ([gr1.cpp:236-246], [gr2.cpp:195-205]) and draws them.

    The state is [FitState]: the parameters of [f1] and the graph objects,
    a pointer being an index into that list ([GraphObj]: the points and the
    graph's list of functions).  [Fit] runs ROOT's [TGraph::Fit] without
    option ["+"]: the minimiser starts from the parameters [f1] holds, the
    result is written back into [f1], and the graph's functions are
    replaced by a copy of [f1] named ["f1"].  [GetFunction] returns the
    first function of the list with the given name, [None] for [nullptr].
    [gr1_heap] and [gr2_heap] are the six graphs of each macro in the
    order of creation, [fit_ptrs] the pointers the macros fit.

    Theorem: in both macros the three fits are chained through [f1] (each
    starts from the result of the previous one) while [GetFunction] returns,
    for each fitted graph, the result of that graph's own fit; the graphs
    that were not fitted have no function ([nullptr]). *)

From Stdlib Require Import ZArith Reals List String.
From S2P Require Import Prelude Loops RealModel Config Fit.
Import ListNotations.

Section Session.
Context {F : Type} `{Double F}.

(** A [TGraphErrors] object: its points and its list of functions. *)
Record GraphObj := mkGraphObj {
  points : TGraphErrors F;
  functions : list (string * list F)
}.

(** [TGraph::GetFunction(name)]: the first function with that name. *)
Fixpoint find_function (name : string) (fs : list (string * list F)) : option (list F) :=
  match fs with
  | [] => None
  | (n, p) :: r => if String.eqb n name then Some p else find_function name r
  end.

Definition GetFunction (o : GraphObj) (name : string) : option (list F) :=
  find_function name (functions o).

(** The parameters of [f1] and the graph objects, addressed by index. *)
Record FitState := mkFitState {
  f1_par : list F;
  heap : list GraphObj
}.

(** [gr->GetFunction(name)] on the graph at pointer [i]. *)
Definition graph_function (st : FitState) (i : nat) (name : string) : option (list F) :=
  match nth_error (heap st) i with
  | Some o => GetFunction o name
  | None => None
  end.

(** [gr->Fit("f1")] on the graph at pointer [i]: minimise from the
    parameters of [f1], store the result in [f1], and replace the graph's
    functions by a copy of [f1]. *)
Definition Fit (bk : FitBackend F) (g : Globals F) (st : FitState) (i : nat) : option FitState :=
  match nth_error (heap st) i with
  | Some o =>
      let p := minimize bk (chi2 bk g (points o)) (f1_par st) in
      Some (mkFitState p (set_nth (heap st) i (mkGraphObj (points o) [("f1"%string, p)])))
  | None => None
  end.

(** [f1->SetParameters(To, k)], the graphs created without functions, and
    the fits at the pointers [ps] in order. *)
Definition fit_sequence (bk : FitBackend F) (g : Globals F) (grs : list (TGraphErrors F))
    (ps : list nat) : option FitState :=
  fold_left (fun ost i => match ost with Some st => Fit bk g st i | None => None end) ps
    (Some (mkFitState [To g; k g] (map (fun gr => mkGraphObj gr []) grs))).

(** [gr2], [gr4], [gr6]: the second, fourth and sixth graph. *)
Definition fit_ptrs : list nat := [1; 3; 5]%nat.

(** [TF1 *f2 = gr2->GetFunction("f1")], [f3] from [gr4], [f4] from [gr6]. *)
Definition overlay (st : FitState) : list (option (list F)) :=
  map (fun i => graph_function st i "f1") fit_ptrs.

(** The graphs of [gr1()]: a simulated graph [gr1], [gr3], [gr5] (the same
    arrays each time) before each measured one. *)
Definition gr1_heap (sim : TGraphErrors F) : list (TGraphErrors F) :=
  match gr1_graphs with
  | [a; b; c] => [sim; a; sim; b; sim; c]
  | _ => []
  end.

(** The graphs of [gr2()]: each room-temperature graph before the fridge
    graph of the same material. *)
Definition gr2_heap (tiempo_porc_nev : list F) : list (TGraphErrors F) :=
  match gr2_room_graphs, gr2_graphs tiempo_porc_nev with
  | [r1; r2; r3], [n1; n2; n3] => [r1; n1; r2; n2; r3; n3]
  | _, _ => []
  end.

(** The fits of [gr2()] and the three curves it draws. *)
Definition gr2_fits (bk : FitBackend F) (tiempo_porc_nev : list F) : option FitState :=
  fit_sequence bk gr2_globals (gr2_heap tiempo_porc_nev) fit_ptrs.

Definition gr2_overlay (bk : FitBackend F) (tiempo_porc_nev : list F) : option (list (option (list F))) :=
  option_map overlay (gr2_fits bk tiempo_porc_nev).
End Session.

Arguments GraphObj : clear implicits.
Arguments FitState : clear implicits.

(** ** The fits of the macros *)

(** Three fits at [fit_ptrs] on six graphs: [f1] is threaded through the
    fits, each fitted graph keeps its own result. *)
Lemma fit_sequence_six {F : Type} `{Double F} (bk : FitBackend F) (g : Globals F)
    (a b c d e f : TGraphErrors F) :
  let p1 := minimize bk (chi2 bk g b) [To g; k g] in
  let p2 := minimize bk (chi2 bk g d) p1 in
  let p3 := minimize bk (chi2 bk g f) p2 in
  fit_sequence bk g [a; b; c; d; e; f] fit_ptrs
  = Some (mkFitState p3
            [mkGraphObj a []; mkGraphObj b [("f1"%string, p1)]; mkGraphObj c [];
             mkGraphObj d [("f1"%string, p2)]; mkGraphObj e []; mkGraphObj f [("f1"%string, p3)]]).
Proof. reflexivity. Qed.

(** C15. The fits of each macro are chained through the shared
    [TF1]: the first starts from the globals [(To, k)], each later one from
    the result of the previous one, and [f1] keeps the last; yet
    [GetFunction("f1")] on [gr2], [gr4], [gr6] returns the result of that
    graph's own fit, and on the graphs that were not fitted it returns
    [nullptr]; in [gr1()] (whatever the simulated graph) and in [gr2()]. *)
Theorem fits_chained {F : Type} `{Double F} (bk : FitBackend F) (sim : TGraphErrors F)
    (porc : list F) :
  forall g grs, (g, grs) = (gr1_globals, gr1_heap sim) \/ (g, grs) = (gr2_globals, gr2_heap porc) ->
  match grs with
  | [_; b; _; d; _; f] =>
      let p1 := minimize bk (chi2 bk g b) [To g; k g] in
      let p2 := minimize bk (chi2 bk g d) p1 in
      let p3 := minimize bk (chi2 bk g f) p2 in
      exists st, fit_sequence bk g grs fit_ptrs = Some st /\ f1_par st = p3 /\
        overlay st = [Some p1; Some p2; Some p3] /\
        map (fun i => graph_function st i "f1") [0; 2; 4]%nat = [None; None; None]
  | _ => False
  end.
Proof.
  intros g grs [E|E]; injection E as -> ->; eexists; repeat split.
Qed.

Lemma fits_chained_witness :
  ((gr1_globals (F := R), gr1_heap (graph_at_0 74)) = (gr1_globals, gr1_heap (graph_at_0 74)) \/
   (gr1_globals (F := R), gr1_heap (graph_at_0 74)) = (gr2_globals, gr2_heap [])) /\
  match gr1_heap (graph_at_0 74) with
  | [_; b; _; d; _; f] =>
      let p1 := minimize idle_backend (chi2 idle_backend gr1_globals b)
                  [To gr1_globals; k gr1_globals] in
      let p2 := minimize idle_backend (chi2 idle_backend gr1_globals d) p1 in
      let p3 := minimize idle_backend (chi2 idle_backend gr1_globals f) p2 in
      exists st, fit_sequence idle_backend gr1_globals (gr1_heap (graph_at_0 74)) fit_ptrs = Some st /\
        f1_par st = p3 /\ overlay st = [Some p1; Some p2; Some p3] /\
        map (fun i => graph_function st i "f1") [0; 2; 4]%nat = [None; None; None]
  | _ => False
  end.
Proof.
  split; [now left|].
  exact (fits_chained idle_backend (graph_at_0 74) [] gr1_globals _ (or_introl eq_refl)).
Defined.
