(* ===== verification/Inverse.v ===== *)
(** * The analytic inverse [t = -ln((T - Ta)/(To - Ta))/k]

    [time_for] is the expression [gr1()] evaluates for every noisy draw
    ([gr1.cpp:53]) and, doubled, for the upper edge of each histogram
    ([gr1.cpp:55]).  The logarithm is partial: [None] is the non-finite value
    C++ produces when the quotient is not positive.  [closed_form] is the
    solution [Ta + (To - Ta) exp(-k t)] of the cooling law that the inverse
    undoes; it is the specification's ground truth, not code.

    Theorems: [closed_form] solves the differential equation whose
    right-hand side is [len_dif]; [time_for] and [closed_form] are mutual
    inverses; a temperature strictly between [Ta] and [To] has a positive
    time, and for [Ta < T] the time is non-negative exactly when
    [T <= To]. *)

From Stdlib Require Import ZArith Reals Lra.
From S2P Require Import Prelude RealModel Config Integrator.

Section Inverse.
Context {F : Type} `{Double F} `{DoubleLog F}.
Local Open Scope dbl_scope.

(** [-TMath::Log((T - Ta)/(To - Ta))/k] *)
Definition time_for (g : Globals F) (T : F) : option F :=
  match d_log ((T - Ta g) / (To g - Ta g)) with
  | Some l => Some (- l / k g)
  | None => None
  end.
End Inverse.

Local Open Scope R_scope.

(** The exact solution of [dT/dt = -k (T - Ta)] with [T(0) = To]. *)
Definition closed_form (g : Globals R) (t : R) : R :=
  Ta g + (To g - Ta g) * exp (- k g * t).

Lemma closed_form_quotient (g : Globals R) (t : R) :
  To g <> Ta g -> (closed_form g t - Ta g) / (To g - Ta g) = exp (- k g * t).
Proof. intro Hne; unfold closed_form; field; lra. Qed.

Lemma time_for_R (g : Globals R) (T : R) :
  time_for g T = match Rlog ((T - Ta g) / (To g - Ta g)) with
                 | Some l => Some (- l / k g) | None => None end.
Proof. reflexivity. Qed.

(** C20. [closed_form] solves the cooling law: its derivative at every
    [t] is [len_dif t (closed_form t)], the right-hand side RK4 integrates. *)
Theorem closed_form_solves_len_dif (g : Globals R) (t : R) :
  derivable_pt_lim (closed_form g) t (len_dif g t (closed_form g t)).
Proof.
  unfold len_dif; dsimpl.
  replace (- k g * (closed_form g t - Ta g))
    with (0 + (To g - Ta g) * (exp (- k g * t) * (- k g * 1)))
    by (unfold closed_form; ring).
  change (closed_form g) with
    (plus_fct (fct_cte (Ta g))
       (mult_real_fct (To g - Ta g) (comp exp (mult_real_fct (- k g) id)))).
  apply derivable_pt_lim_plus; [apply derivable_pt_lim_const|].
  apply derivable_pt_lim_scal, derivable_pt_lim_comp.
  - apply derivable_pt_lim_scal, derivable_pt_lim_id.
  - apply derivable_pt_lim_exp.
Qed.

Lemma gr1_k_pos : 0 < k (gr1_globals (F := R)).
Proof. unfold gr1_globals; simpl k; dsimpl; lra. Qed.

Lemma gr1_To_ne_Ta : To (gr1_globals (F := R)) <> Ta gr1_globals.
Proof. unfold gr1_globals; simpl; dsimpl; lra. Qed.

Lemma time_for_Some (g : Globals R) (T t : R) :
  time_for g T = Some t ->
  0 < (T - Ta g) / (To g - Ta g) /\ t = - ln ((T - Ta g) / (To g - Ta g)) / k g.
Proof.
  rewrite time_for_R; unfold Rlog.
  destruct (Rlt_dec 0 _) as [Hq|Hq]; intro Ht; inversion Ht; auto.
Qed.

(** The exact curve passes through [T] at the inverse time of [T]. *)
Lemma closed_form_at_inverse (g : Globals R) (T t : R) :
  k g <> 0 -> time_for g T = Some t -> closed_form g t = T.
Proof.
  intros Hk Ht; destruct (time_for_Some g T t Ht) as [Hq ->].
  assert (Hne : To g - Ta g <> 0).
  { intro Hz; rewrite Hz in Hq; unfold Rdiv in Hq; rewrite Rinv_0 in Hq; lra. }
  unfold closed_form.
  replace (- k g * (- ln ((T - Ta g) / (To g - Ta g)) / k g))
    with (ln ((T - Ta g) / (To g - Ta g))) by (field; exact Hk).
  rewrite exp_ln by exact Hq; field; exact Hne.
Qed.

(** C19. The inverse characterises the exact curve: for [To <> Ta] and
    [k <> 0], the inverse returns the time [t] for the temperature [T]
    exactly when the exact solution reaches [T] at [t]. *)
Theorem closed_form_time_for (g : Globals R) (T t : R) :
  To g <> Ta g -> k g <> 0 -> (time_for g T = Some t <-> closed_form g t = T).
Proof.
  intros Hne Hk; split; [apply closed_form_at_inverse; exact Hk|].
  intros <-; rewrite time_for_R, closed_form_quotient by exact Hne.
  rewrite Rlog_pos by apply exp_pos; rewrite ln_exp; f_equal; field; exact Hk.
Qed.

Lemma closed_form_time_for_witness :
  (To (gr1_globals (F := R)) <> Ta gr1_globals /\ k (gr1_globals (F := R)) <> 0) /\
  (time_for gr1_globals (To gr1_globals) = Some 0 <-> closed_form gr1_globals 0 = To gr1_globals).
Proof.
  pose proof gr1_k_pos; pose proof gr1_To_ne_Ta.
  split; [split; [assumption | lra]|].
  apply closed_form_time_for; [assumption | lra].
Defined.

Lemma quotient_pos (g : Globals R) (T : R) :
  Ta g < To g -> Ta g < T -> 0 < (T - Ta g) / (To g - Ta g).
Proof. intros; apply Rdiv_lt_0_compat; lra. Qed.

Lemma time_for_quotient (g : Globals R) (T : R) :
  0 < (T - Ta g) / (To g - Ta g) ->
  time_for g T = Some (- ln ((T - Ta g) / (To g - Ta g)) / k g).
Proof. intro Hq; rewrite time_for_R; now rewrite Rlog_pos. Qed.

(** A temperature strictly between [Ta] and [To] has a positive time. *)
Lemma time_for_between (g : Globals R) (T : R) :
  0 < k g -> Ta g < To g -> Ta g < T < To g ->
  exists t, time_for g T = Some t /\ 0 < t.
Proof.
  intros Hk Hg HT.
  pose proof (quotient_pos g T Hg (proj1 HT)) as Hq.
  assert (Hq1 : (T - Ta g) / (To g - Ta g) < 1).
  { apply Rmult_lt_reg_r with (r := To g - Ta g); [lra|].
    unfold Rdiv; rewrite Rmult_assoc, Rinv_l; lra. }
  exists (- ln ((T - Ta g) / (To g - Ta g)) / k g); split; [now apply time_for_quotient|].
  pose proof (ln_increasing _ 1 Hq Hq1) as Hln; rewrite ln_1 in Hln.
  unfold Rdiv; pose proof (Rinv_0_lt_compat _ Hk); nra.
Qed.

(** Sign of the inverse time, for [Ta < To] and [k > 0]: a
    temperature [T > Ta] has a time, non-negative when [T <= To] and
    negative when [T > To]. *)
Theorem time_for_sign (g : Globals R) (T : R) :
  0 < k g -> Ta g < To g -> Ta g < T ->
  exists t, time_for g T = Some t /\ (0 <= t <-> T <= To g).
Proof.
  intros Hk Hg HT.
  set (q := (T - Ta g) / (To g - Ta g)).
  assert (Hq : 0 < q) by (apply Rdiv_lt_0_compat; lra).
  exists (- ln q / k g); split; [rewrite time_for_R; fold q; now rewrite Rlog_pos|].
  assert (Hq1 : q <= 1 <-> T <= To g).
  { unfold q; split; intro Hle.
    - apply Rmult_le_compat_r with (r := To g - Ta g) in Hle; [|lra].
      unfold Rdiv in Hle; rewrite Rmult_assoc, Rinv_l in Hle; lra.
    - apply Rmult_le_reg_r with (r := To g - Ta g); [lra|].
      unfold Rdiv; rewrite Rmult_assoc, Rinv_l; lra. }
  rewrite <- Hq1; unfold Rdiv.
  split; intro Hle.
  - destruct (Rle_lt_dec q 1) as [|Hgt]; [assumption|].
    pose proof (ln_increasing 1 q ltac:(lra) Hgt) as Hln; rewrite ln_1 in Hln.
    pose proof (Rinv_0_lt_compat _ Hk); nra.
  - destruct (Req_dec q 1) as [->|Hne]; [rewrite ln_1; lra|].
    pose proof (ln_increasing q 1 Hq ltac:(lra)) as Hln; rewrite ln_1 in Hln.
    pose proof (Rinv_0_lt_compat _ Hk); nra.
Qed.

(** The last checkpoint of [gr1()], [30 + 5 * 9 = 75] degrees, lies above
    [To = 74]: its inverse time is negative. *)
