(* ===== verification/Accuracy.v ===== *)
(** * Accuracy of [rk4_solver] against the exact cooling curve

    The specification promises that [rk4_solver] converges to the exact
    solution [Ta + (yo - Ta) exp(-k t)] with order 4.  [exp_neg_bounds]
    brackets [exp(-z)] between consecutive partial sums of its alternating
    series (Stdlib's [alternated_series_ineq]); the RK4 factor of the
    cooling law, [rk4_factor z], is the partial sum of degree 4, hence lies
    between [exp(-z)] and [exp(-z) + z^5/120] for [0 <= z <= 1].

    Theorems: after the [n] iterations the loop runs, the result exceeds
    the exact value at the last grid point [xo + n h] by at most
    [n (h k)^5 / 120 |yo - Ta|], that is [(x - xo) h^4 k^5 / 120 |yo - Ta|]:
    order 4 at the grid points ([exact_solution] is the curve the
    specification compares with).  At the target [x] itself the code stops
    integrating at the grid point below [x]; the lag [r = x - xo - n h]
    ([grid_lag])
    contributes an error of first order in [r], which no refinement of the
    RK4 stages removes. *)

From Stdlib Require Import ZArith Reals Lra Lia.
From S2P Require Import Prelude RealModel Config Integrator.

Local Open Scope R_scope.

(** ** The exact solution and the part of the interval left out *)

(** The exact solution of the cooling law from [(xo, yo)], at [x]. *)
Definition exact_solution (g : Globals R) (xo yo x : R) : R :=
  Ta g + (yo - Ta g) * exp (- k g * (x - xo)).

(** The part of [x - xo] the loop does not integrate: [x - xo - n h] for
    the [n = (Int_t)((x - xo)/h)] iterations ([gr1.cpp:279]). *)
Definition grid_lag (xo h x : R) : R := x - xo - INR (Z.to_nat (rk4_steps xo h x)) * h.

(** ** Alternating bounds on [exp(-z)] *)

(** The terms [z^i / i!] of the exponential series. *)
Definition exp_term (z : R) (i : nat) : R := z ^ i / INR (fact i).

Lemma exp_term_decreasing (z : R) : 0 <= z <= 1 -> Un_decreasing (exp_term z).
Proof.
  intros Hz n; unfold exp_term; cbn [pow fact].
  rewrite mult_INR, S_INR.
  pose proof (lt_0_INR _ (lt_O_fact n)) as Hf; pose proof (pos_INR n) as Hn.
  set (a := z ^ n / INR (fact n)).
  assert (Ha : 0 <= a) by (apply Rmult_le_pos; [apply pow_le; lra | left; apply Rinv_0_lt_compat, Hf]).
  assert (Hq : z * / (INR n + 1) <= 1).
  { apply Rmult_le_reg_r with (r := INR n + 1); [lra|].
    rewrite Rmult_assoc, Rinv_l, Rmult_1_r by lra; lra. }
  replace (z * z ^ n / ((INR n + 1) * INR (fact n))) with (a * (z * / (INR n + 1)))
    by (unfold a, Rdiv; rewrite Rinv_mult; ring).
  rewrite <- (Rmult_1_r a) at 2; apply Rmult_le_compat_l; [exact Ha | exact Hq].
Qed.

Lemma exp_neg_series (z : R) :
  Un_cv (fun N => sum_f_R0 (tg_alt (exp_term z)) N) (exp (- z)).
Proof.
  unfold exp; destruct (exist_exp (- z)) as [l Hl]; cbn [proj1_sig].
  intros eps Heps; destruct (Hl eps Heps) as [N HN]; exists N; intros n Hn.
  replace (sum_f_R0 (tg_alt (exp_term z)) n)
    with (sum_f_R0 (fun i => / INR (fact i) * (- z) ^ i) n); [exact (HN n Hn)|].
  apply sum_eq; intros i _; unfold tg_alt, exp_term.
  replace (- z) with (-1 * z) by ring; rewrite Rpow_mult_distr; unfold Rdiv; ring.
Qed.

Lemma exp_neg_bounds (z : R) (N : nat) :
  0 <= z <= 1 ->
  sum_f_R0 (tg_alt (exp_term z)) (S (2 * N)) <= exp (- z)
  <= sum_f_R0 (tg_alt (exp_term z)) (2 * N).
Proof.
  intro Hz; apply alternated_series_ineq;
    [apply exp_term_decreasing, Hz | apply cv_speed_pow_fact | apply exp_neg_series].
Qed.

(** [rk4_factor] is the partial sum of degree 4. *)
Lemma rk4_factor_partial_sum (z : R) :
  rk4_factor z = sum_f_R0 (tg_alt (exp_term z)) (2 * 2).
Proof. unfold rk4_factor, tg_alt, exp_term; cbn -[pow]; field. Qed.

Lemma rk4_factor_exp (z : R) :
  0 <= z <= 1 -> exp (- z) <= rk4_factor z <= exp (- z) + z ^ 5 / 120.
Proof.
  intro Hz; destruct (exp_neg_bounds z 2 Hz) as [Hl Hu].
  rewrite <- rk4_factor_partial_sum in Hu; split; [exact Hu|].
  replace (sum_f_R0 (tg_alt (exp_term z)) (S (2 * 2)))
    with (rk4_factor z - z ^ 5 / 120) in Hl; [lra|].
  rewrite rk4_factor_partial_sum; cbn [sum_f_R0 Nat.mul Nat.add].
  unfold tg_alt, exp_term; cbn -[pow sum_f_R0]; field.
Qed.

Lemma exp_one_minus_lower (u : R) : 0 <= u <= 1 -> u - u ^ 2 / 2 <= 1 - exp (- u).
Proof.
  intro Hu; destruct (exp_neg_bounds u 1 Hu) as [_ Hup].
  unfold tg_alt, exp_term in Hup; cbn -[pow] in Hup.
  assert (0 <= u ^ 3) by (apply pow_le; lra). lra.
Qed.

(** ** The loop against the exact solution *)

Lemma exp_neg_le_1 (u : R) : 0 <= u -> exp (- u) <= 1.
Proof.
  intro Hu; destruct (Req_dec u 0) as [->|Hne]; [rewrite Ropp_0, exp_0; lra|].
  left; rewrite <- exp_0; apply exp_increasing; lra.
Qed.

Lemma exp_INR_mult (n : nat) (a : R) : exp (INR n * a) = exp a ^ n.
Proof.
  induction n as [|n IH]; [cbn; rewrite Rmult_0_l; apply exp_0|].
  rewrite S_INR, Rmult_plus_distr_r, Rmult_1_l, exp_plus, IH; cbn [pow]; ring.
Qed.

(** [p^n - e^n <= n (p - e)] for [0 <= e <= p <= 1]. *)
Lemma pow_diff_bound (p e : R) (n : nat) :
  0 <= e <= p -> p <= 1 -> 0 <= p ^ n - e ^ n <= INR n * (p - e).
Proof.
  intros He Hp; induction n as [|n IH]; [cbn; lra|].
  rewrite S_INR; cbn [pow].
  pose proof (pow_le e n (proj1 He)); pose proof (pow_le_one e n ltac:(lra)).
  replace (p * p ^ n - e * e ^ n) with (p * (p ^ n - e ^ n) + e ^ n * (p - e)) by ring.
  split; nra.
Qed.

(** The number of iterations [n] of the loop: [n h <= x - xo < (n + 1) h]. *)
Lemma rk4_grid (xo h x : R) :
  0 < h -> xo <= x ->
  INR (Z.to_nat (rk4_steps xo h x)) * h <= x - xo
  < (INR (Z.to_nat (rk4_steps xo h x)) + 1) * h.
Proof.
  intros Hh Hx; unfold rk4_steps; dsimpl.
  assert (Hr : 0 <= (x - xo) / h)
    by (unfold Rdiv; apply Rmult_le_pos; [lra | apply Rlt_le, Rinv_0_lt_compat; lra]).
  destruct (Rtrunc_bounds _ Hr) as [Hn [Hl Hu]].
  rewrite INR_IZR_INZ, Z2Nat.id by exact Hn.
  apply Rmult_le_compat_r with (r := h) in Hl; [|lra].
  apply Rmult_lt_compat_r with (r := h) in Hu; [|lra].
  unfold Rdiv in *; rewrite Rmult_assoc, Rinv_l in Hl, Hu by lra; lra.
Qed.

(** The exact decay over [n] steps of [h] is the [n]-th power of the
    one-step decay [exp(-h k)], the factor [rk4_factor (h k)] stands for. *)
Lemma exp_grid (kk h : R) (n : nat) : exp (- kk * (INR n * h)) = exp (- (h * kk)) ^ n.
Proof. rewrite <- exp_INR_mult; f_equal; ring. Qed.

(** ** Order of convergence *)

(** C4. Order 4 at the grid points: for [0 <= h k <= 1]
    and a target [x >= xo], the result of [rk4_solver] differs from the
    exact solution at the last grid point [xo + n h] by at most
    [n (h k)^5 / 120 |yo - Ta|], and this is at most
    [(x - xo) h^4 k^5 / 120 |yo - Ta|]: halving [h] divides the bound by
    16. *)
Theorem rk4_solver_error_bound (g : Globals R) (xo yo h x : R) :
  0 < h -> 0 <= k g -> h * k g <= 1 -> xo <= x ->
  let n := Z.to_nat (rk4_steps xo h x) in
  Rabs (rk4_solver g xo yo h x - exact_solution g xo yo (xo + INR n * h))
    <= INR n * (h * k g) ^ 5 / 120 * Rabs (yo - Ta g)
  /\ INR n * (h * k g) ^ 5 / 120 * Rabs (yo - Ta g)
     <= (x - xo) * h ^ 4 * k g ^ 5 / 120 * Rabs (yo - Ta g).
Proof.
  intros Hh Hk Hz Hx n; unfold exact_solution.
  replace (xo + INR n * h - xo) with (INR n * h) by ring.
  assert (Hz0 : 0 <= h * k g) by (apply Rmult_le_pos; lra).
  pose proof (rk4_factor_exp _ (conj Hz0 Hz)) as [HP1 HP2].
  pose proof (exp_pos (- (h * k g))) as HE.
  assert (HP : rk4_factor (h * k g) <= 1)
    by (destruct (Req_dec (h * k g) 0) as [E|E]; [rewrite E; unfold rk4_factor; lra|];
        apply Rlt_le, rk4_factor_bounds; lra).
  pose proof (pow_diff_bound _ _ n (conj (Rlt_le _ _ HE) HP1) HP) as [Hd0 Hd1].
  pose proof (Rabs_pos (yo - Ta g)) as Ha.
  pose proof (pos_INR n) as Hn.
  split.
  - unfold rk4_solver, rk4; fold n; rewrite rk4_loop_cooling, exp_grid.
    replace (_ - _) with ((yo - Ta g) * (rk4_factor (h * k g) ^ n - exp (- (h * k g)) ^ n))
      by ring.
    rewrite Rabs_mult, (Rabs_pos_eq (_ ^ n - _ ^ n)) by exact Hd0.
    replace (INR n * (h * k g) ^ 5 / 120 * Rabs (yo - Ta g))
      with (Rabs (yo - Ta g) * (INR n * ((h * k g) ^ 5 / 120))) by field.
    apply Rmult_le_compat_l; [exact Ha|].
    apply Rle_trans with (1 := Hd1), Rmult_le_compat_l; lra.
  - pose proof (proj1 (rk4_grid xo h x Hh Hx)) as Hg; fold n in Hg.
    replace (INR n * (h * k g) ^ 5 / 120 * Rabs (yo - Ta g))
      with (INR n * h * (h ^ 4 * k g ^ 5 / 120 * Rabs (yo - Ta g))) by field.
    replace ((x - xo) * h ^ 4 * k g ^ 5 / 120 * Rabs (yo - Ta g))
      with ((x - xo) * (h ^ 4 * k g ^ 5 / 120 * Rabs (yo - Ta g))) by field.
    apply Rmult_le_compat_r; [|exact Hg].
    pose proof (pow_le h 4 ltac:(lra)); pose proof (pow_le (k g) 5 Hk).
    apply Rmult_le_pos; [|exact Ha]. unfold Rdiv; apply Rmult_le_pos; [nra | lra].
Qed.

Lemma rk4_solver_error_bound_witness :
  (0 < 1 / 10 /\ 0 <= k (gr1_globals (F := R)) /\ 1 / 10 * k (gr1_globals (F := R)) <= 1 /\
   0 <= 3000) /\
  let n := Z.to_nat (rk4_steps 0 (1 / 10) 3000) in
  Rabs (rk4_solver gr1_globals 0 74 (1 / 10) 3000
        - exact_solution gr1_globals 0 74 (0 + INR n * (1 / 10)))
    <= INR n * (1 / 10 * k gr1_globals) ^ 5 / 120 * Rabs (74 - Ta gr1_globals)
  /\ INR n * (1 / 10 * k gr1_globals) ^ 5 / 120 * Rabs (74 - Ta gr1_globals)
     <= (3000 - 0) * (1 / 10) ^ 4 * k gr1_globals ^ 5 / 120 * Rabs (74 - Ta gr1_globals).
Proof.
  assert (H : 0 < 1 / 10 /\ 0 <= k (gr1_globals (F := R)) /\
              1 / 10 * k (gr1_globals (F := R)) <= 1 /\ 0 <= 3000)
    by (unfold gr1_globals; cbn [k]; dsimpl; lra).
  destruct H as (H1 & H2 & H3 & H4).
  split; [exact (conj H1 (conj H2 (conj H3 H4)))|].
  apply rk4_solver_error_bound; assumption.
Defined.

(** C5. The floor truncation lags behind the target: with
    [0 <= h k <= 1], [x >= xo] and [yo >= Ta], the loop stops at the grid
    point [xo + n h], [r = x - xo - n h] short of [x] ([0 <= r < h]), and
    the result exceeds the exact value at [x] by at least
    [(yo - Ta) exp(-k (x - xo)) (k r - (k r)^2 / 2)], an error of first
    order in [r]: at targets off the grid of step [h] the convergence to
    the exact curve is of order 1 in [h], not 4. *)
Theorem rk4_solver_lag (g : Globals R) (xo yo h x : R) :
  0 < h -> 0 <= k g -> h * k g <= 1 -> xo <= x -> Ta g <= yo ->
  let r := grid_lag xo h x in
  0 <= r < h /\
  (yo - Ta g) * exp (- k g * (x - xo)) * (k g * r - (k g * r) ^ 2 / 2)
    <= rk4_solver g xo yo h x - exact_solution g xo yo x.
Proof.
  intros Hh Hk Hz Hx Hy r; unfold exact_solution; unfold grid_lag in (value of r).
  set (n := Z.to_nat (rk4_steps xo h x)) in r.
  pose proof (rk4_grid xo h x Hh Hx) as Hg; fold n in Hg.
  assert (Hr : 0 <= r < h) by (unfold r; lra).
  split; [exact Hr|].
  assert (Hz0 : 0 <= h * k g) by (apply Rmult_le_pos; lra).
  pose proof (rk4_factor_exp _ (conj Hz0 Hz)) as [HP1 _].
  pose proof (exp_pos (- (h * k g))) as HE.
  assert (Hpow : exp (- (h * k g)) ^ n <= rk4_factor (h * k g) ^ n)
    by (apply pow_incr; lra).
  assert (Hkr : 0 <= k g * r <= 1) by (split; [apply Rmult_le_pos; lra | nra]).
  pose proof (exp_one_minus_lower _ Hkr) as Hlow.
  assert (Hsplit : exp (- k g * (x - xo)) = exp (- k g * (INR n * h)) * exp (- (k g * r)))
    by (rewrite <- exp_plus; f_equal; unfold r; ring).
  assert (Hmono : exp (- k g * (x - xo)) <= exp (- k g * (INR n * h))).
  { rewrite Hsplit. pose proof (exp_pos (- k g * (INR n * h))).
    assert (exp (- (k g * r)) <= 1) by (apply exp_neg_le_1; nra). nra. }
  unfold rk4_solver, rk4; fold n; rewrite rk4_loop_cooling.
  rewrite exp_grid in Hsplit, Hmono.
  pose proof (exp_pos (- k g * (x - xo))).
  assert (Hgap : exp (- k g * (x - xo)) * (k g * r - (k g * r) ^ 2 / 2)
                 <= rk4_factor (h * k g) ^ n - exp (- k g * (x - xo))).
  { rewrite Hsplit at 2.
    apply Rle_trans with (exp (- (h * k g)) ^ n * (1 - exp (- (k g * r)))); [|nra].
    apply Rmult_le_compat; [lra | nra | | exact Hlow].
    rewrite Hsplit; pose proof (exp_pos (- (k g * r))).
    assert (exp (- (k g * r)) <= 1) by (apply exp_neg_le_1; nra). nra. }
  replace (Ta g + (yo - Ta g) * rk4_factor (h * k g) ^ n
           - (Ta g + (yo - Ta g) * exp (- k g * (x - xo))))
    with ((yo - Ta g) * (rk4_factor (h * k g) ^ n - exp (- k g * (x - xo)))) by ring.
  rewrite Rmult_assoc; apply Rmult_le_compat_l; [lra | exact Hgap].
Qed.

Lemma rk4_solver_lag_witness :
  (0 < 1 / 10 /\ 0 <= k (gr1_globals (F := R)) /\ 1 / 10 * k (gr1_globals (F := R)) <= 1 /\
   0 <= 61012 / 1000 /\ Ta (gr1_globals (F := R)) <= 74) /\
  let r := grid_lag 0 (1 / 10) (61012 / 1000) in
  0 <= r < 1 / 10 /\
  (74 - Ta gr1_globals) * exp (- k gr1_globals * (61012 / 1000 - 0))
    * (k gr1_globals * r - (k gr1_globals * r) ^ 2 / 2)
    <= rk4_solver gr1_globals 0 74 (1 / 10) (61012 / 1000)
       - exact_solution gr1_globals 0 74 (61012 / 1000).
Proof.
  assert (H : 0 < 1 / 10 /\ 0 <= k (gr1_globals (F := R)) /\
              1 / 10 * k (gr1_globals (F := R)) <= 1 /\ 0 <= 61012 / 1000 /\
              Ta (gr1_globals (F := R)) <= 74)
    by (unfold gr1_globals; cbn [k Ta]; dsimpl; lra).
  destruct H as (H1 & H2 & H3 & H4 & H5).
  split; [exact (conj H1 (conj H2 (conj H3 (conj H4 H5))))|].
  apply rk4_solver_lag; assumption.
Defined.
