(* ===== verification/Histogram.v ===== *)
(** * The statistics of ROOT's [TH1D] as [gr1()] uses them

    [gr1()] books [new TH1D("h1", " ", nbins, 0, 2 t)] for each checkpoint
    ([gr1.cpp:55]), fills it with the thousand candidate times
    ([gr1.cpp:56]) and reads [GetMean()] and [GetRMS()]
    ([gr1.cpp:58-62]).  The specification says only the mean and variance
    of the draws are load-bearing; ROOT computes them from the running sums
    [fTsumw], [fTsumwx], [fTsumwx2] of the entries that fall in the axis
    range, so the range matters:
    - an entry enters the sums when [xlow <= x < xup] ([TAxis::FindBin]
      puts the others in the underflow/overflow bins, which the statistics
      leave out by default);
    - a histogram booked with [xlow >= xup] uses automatic binning: its
      range is later chosen to hold the entries, so every finite entry
      counts (the buffer size of that mode is not modelled);
    - a non-finite entry (a failed logarithm) lands in the overflow bin;
      an upper edge computed from a failed logarithm ([None], a NaN edge)
      sends every entry to the overflow bin.
    [GetMean] is [fTsumwx/fTsumw] ([0] when nothing counted), [GetRMS] is
    [sqrt(max(fTsumwx2/fTsumw - mean^2, 0))].

    Theorems: the running sums are those of the counted entries; the
    one-pass mean and RMS equal the two-pass mean and population standard
    deviation of the counted entries (the [max] guard never fires in exact
    arithmetic); with a proper range the mean lies inside it. *)

From Stdlib Require Import ZArith Reals Lra List.
From Stdlib Require Floats.
From S2P Require Import Prelude RealModel FloatModel.
Import ListNotations.

Section Histogram.
Context {F : Type} `{Double F}.
Local Open Scope dbl_scope.

Record TH1D := mkTH1D {
  h_xlow : F;
  h_xup : option F;
  h_nbins : Z;
  fEntries : Z;
  fTsumw : F;
  fTsumwx : F;
  fTsumwx2 : F
}.

(** [new TH1D(name, title, nbins, xlow, xup)]: empty statistics. *)
Definition TH1D_new (nbins : Z) (xlow : F) (xup : option F) : TH1D :=
  mkTH1D xlow xup nbins 0 (#0) (#0) (#0).

(** Whether an entry [x] enters the statistics of [h]. *)
Definition counts (h : TH1D) (x : F) : bool :=
  match h_xup h with
  | None => false
  | Some u => if h_xlow h <? u then negb (x <? h_xlow h) && (x <? u) else true
  end.

(** [h->Fill(x)] with unit weight. *)
Definition Fill (h : TH1D) (x : option F) : TH1D :=
  match x with
  | Some v =>
      if counts h v then
        mkTH1D (h_xlow h) (h_xup h) (h_nbins h) (fEntries h + 1)
          (fTsumw h + #1) (fTsumwx h + v) (fTsumwx2 h + v * v)
      else
        mkTH1D (h_xlow h) (h_xup h) (h_nbins h) (fEntries h + 1)
          (fTsumw h) (fTsumwx h) (fTsumwx2 h)
  | None =>
      mkTH1D (h_xlow h) (h_xup h) (h_nbins h) (fEntries h + 1)
        (fTsumw h) (fTsumwx h) (fTsumwx2 h)
  end.

(** [for (Int_t l = 0; l < nerr; l++) h1->Fill(t_err[l]);] *)
Definition Fill_all (h : TH1D) (xs : list (option F)) : TH1D := fold_left Fill xs h.

Definition GetMean (h : TH1D) : F :=
  if fTsumw h =? #0 then #0 else fTsumwx h / fTsumw h.

Definition GetRMS (h : TH1D) : F :=
  if fTsumw h =? #0 then #0
  else
    let x := fTsumwx h / fTsumw h in
    let s2 := fTsumwx2 h / fTsumw h - x * x in
    d_sqrt (if d_gtb s2 (#0) then s2 else #0).

(** The entries that enter the statistics, in filling order. *)
Fixpoint counted (h : TH1D) (xs : list (option F)) : list F :=
  match xs with
  | [] => []
  | Some v :: r => if counts h v then v :: counted h r else counted h r
  | None :: r => counted h r
  end.

Lemma Fill_range (h : TH1D) (x : option F) :
  h_xlow (Fill h x) = h_xlow h /\ h_xup (Fill h x) = h_xup h.
Proof. unfold Fill; destruct x as [v|]; [destruct (counts h v)|]; split; reflexivity. Qed.

Lemma counts_Fill (h : TH1D) (x : option F) : counts (Fill h x) = counts h.
Proof. unfold counts; now destruct (Fill_range h x) as [-> ->]. Qed.

Lemma counted_Fill (h : TH1D) (x : option F) (xs : list (option F)) :
  counted (Fill h x) xs = counted h xs.
Proof. induction xs as [|[v|] r IH]; simpl; rewrite ?counts_Fill, ?IH; reflexivity. Qed.

Lemma Fill_all_range (h : TH1D) (xs : list (option F)) :
  h_xlow (Fill_all h xs) = h_xlow h /\ h_xup (Fill_all h xs) = h_xup h.
Proof.
  unfold Fill_all; revert h; induction xs as [|x r IH]; intro h; [split; reflexivity|].
  simpl; destruct (IH (Fill h x)) as [-> ->]; apply Fill_range.
Qed.
End Histogram.

Arguments TH1D : clear implicits.

Local Open Scope R_scope.

Definition sumR (l : list R) : R := fold_right Rplus 0 l.

Definition sqsum (l : list R) : R := fold_right (fun x acc => x * x + acc) 0 l.

(** Two-pass reference statistics of a sample: its mean and its population
    standard deviation. *)
Definition mean_ref (l : list R) : R :=
  match l with [] => 0 | _ => sumR l / INR (length l) end.

Definition rms_ref (l : list R) : R :=
  match l with
  | [] => 0
  | _ => sqrt (fold_right (fun x acc => (x - mean_ref l) ^ 2 + acc) 0 l / INR (length l))
  end.

Lemma Fill_all_sums (h : TH1D R) (xs : list (option R)) :
  fTsumw (Fill_all h xs) = fTsumw h + INR (length (counted h xs)) /\
  fTsumwx (Fill_all h xs) = fTsumwx h + sumR (counted h xs) /\
  fTsumwx2 (Fill_all h xs) = fTsumwx2 h + sqsum (counted h xs).
Proof.
  unfold Fill_all; revert h; induction xs as [|x r IH]; intro h; simpl.
  - rewrite !Rplus_0_r; auto.
  - destruct (IH (Fill h x)) as (H1 & H2 & H3); rewrite H1, H2, H3, !counted_Fill.
    unfold Fill; destruct x as [v|]; cbn [counted]; [destruct (counts h v)|];
      cbn [length fTsumw fTsumwx fTsumwx2 sumR sqsum fold_right]; dsimpl;
      rewrite ?S_INR; unfold sumR, sqsum; simpl fold_right; repeat split; ring.
Qed.

Lemma dev_sum (l : list R) (m : R) :
  fold_right (fun x acc => (x - m) ^ 2 + acc) 0 l
  = sqsum l - 2 * m * sumR l + INR (length l) * m * m.
Proof.
  induction l as [|x l IH]; [simpl; ring|].
  cbn [fold_right length]; rewrite IH, S_INR; unfold sqsum, sumR; cbn [fold_right]; ring.
Qed.

Lemma dev_sum_nonneg (l : list R) (m : R) :
  0 <= fold_right (fun x acc => (x - m) ^ 2 + acc) 0 l.
Proof. induction l as [|x l IH]; cbn [fold_right]; [lra|]. pose proof (pow2_ge_0 (x - m)); lra. Qed.

Lemma INR_length_pos {A} (l : list A) : l <> [] -> 0 < INR (length l).
Proof. destruct l; [congruence|]; intros _; simpl length; rewrite S_INR; pose proof (pos_INR (length l)); lra. Qed.

#[export] Hint Resolve dev_sum_nonneg INR_length_pos : cooling.

Lemma mean_from_sums (l : list R) :
  (if Reqb (INR (length l)) 0 then 0 else sumR l / INR (length l)) = mean_ref l.
Proof.
  destruct l as [|x r]; [simpl; case_eqb 0 0; [reflexivity | lra]|].
  pose proof (INR_length_pos (x :: r) ltac:(discriminate)).
  case_eqb (INR (length (x :: r))) 0; [lra | reflexivity].
Qed.

Lemma rms_from_sums (l : list R) :
  (if Reqb (INR (length l)) 0 then 0
   else let m := sumR l / INR (length l) in
        let s2 := sqsum l / INR (length l) - m * m in
        sqrt (if Rltb 0 s2 then s2 else 0)) = rms_ref l.
Proof.
  destruct l as [|x r] eqn:El; [simpl; case_eqb 0 0; [reflexivity | lra]|].
  rewrite <- El. pose proof (INR_length_pos l ltac:(congruence)) as Hn.
  case_eqb (INR (length l)) 0; [lra|].
  replace (rms_ref l)
    with (sqrt (fold_right (fun x acc => (x - mean_ref l) ^ 2 + acc) 0 l / INR (length l)))
    by (rewrite El; reflexivity).
  replace (mean_ref l) with (sumR l / INR (length l)) by (rewrite El; reflexivity).
  cbv zeta; f_equal. rewrite dev_sum.
  set (m := sumR l / INR (length l)).
  assert (Hs2 : sqsum l / INR (length l) - m * m
                = (sqsum l - 2 * m * sumR l + INR (length l) * m * m) / INR (length l))
    by (unfold m; field; lra).
  pose proof (dev_sum_nonneg l m) as Hd; rewrite dev_sum in Hd.
  assert (0 <= (sqsum l - 2 * m * sumR l + INR (length l) * m * m) / INR (length l))
    by (unfold Rdiv; apply Rmult_le_pos; [lra | apply Rlt_le, Rinv_0_lt_compat; lra]).
  rewrite Hs2; case_ltb 0 ((sqsum l - 2 * m * sumR l + INR (length l) * m * m) / INR (length l));
    [reflexivity | lra].
Qed.

Lemma GetMean_fresh (nb : Z) (xl : R) (xu : option R) (xs : list (option R)) :
  GetMean (Fill_all (TH1D_new nb xl xu) xs) = mean_ref (counted (TH1D_new nb xl xu) xs).
Proof.
  destruct (Fill_all_sums (TH1D_new nb xl xu) xs) as (H1 & H2 & _).
  simpl in H1, H2; rewrite Rplus_0_l in H1, H2.
  unfold GetMean; dsimpl; rewrite H1, H2; apply mean_from_sums.
Qed.

Lemma GetRMS_fresh (nb : Z) (xl : R) (xu : option R) (xs : list (option R)) :
  GetRMS (Fill_all (TH1D_new nb xl xu) xs) = rms_ref (counted (TH1D_new nb xl xu) xs).
Proof.
  destruct (Fill_all_sums (TH1D_new nb xl xu) xs) as (H1 & H2 & H3).
  simpl in H1, H2, H3; rewrite Rplus_0_l in H1, H2, H3.
  unfold GetRMS; dsimpl; rewrite H1, H2, H3; apply rms_from_sums.
Qed.

(** C7. Equivalence with the two-pass statistics: for a freshly booked
    histogram, [GetMean] and [GetRMS] after the fills are the mean and the
    population standard deviation of the entries that fall in the range
    (zero when none does). *)
Theorem GetMean_GetRMS_two_pass (nb : Z) (xl : R) (xu : option R) (xs : list (option R)) :
  let h := Fill_all (TH1D_new nb xl xu) xs in
  let l := counted (TH1D_new nb xl xu) xs in
  GetMean h = mean_ref l /\ GetRMS h = rms_ref l.
Proof. split; [apply GetMean_fresh | apply GetRMS_fresh]. Qed.

Lemma counts_range (nb : Z) (xl u v : R) :
  xl < u -> counts (TH1D_new nb xl (Some u)) v = true -> xl <= v < u.
Proof.
  intros Hr; unfold counts; simpl; dsimpl.
  case_ltb xl u; [|lra]. case_ltb v xl; [discriminate|]. case_ltb v u; [|discriminate].
  intros _; lra.
Qed.

Lemma counts_fresh_in (nb : Z) (xl u v : R) :
  xl < u -> xl <= v < u -> counts (TH1D_new nb xl (Some u)) v = true.
Proof.
  intros Hr Hv; unfold counts; simpl; dsimpl.
  case_ltb xl u; [|lra]. case_ltb v xl; [lra|]. case_ltb v u; [reflexivity | lra].
Qed.

Lemma counted_range (nb : Z) (xl u : R) (xs : list (option R)) :
  xl < u -> Forall (fun v => xl <= v < u) (counted (TH1D_new nb xl (Some u)) xs).
Proof.
  intro Hr; induction xs as [|[v|] r IH]; simpl; auto.
  destruct (counts _ v) eqn:Ec; auto. constructor; [exact (counts_range nb xl u v Hr Ec) | exact IH].
Qed.

Lemma sumR_bounds (a b : R) (l : list R) :
  Forall (fun v => a <= v < b) l -> l <> [] ->
  a * INR (length l) <= sumR l < b * INR (length l).
Proof.
  induction l as [|x r IH]; intros Hf Hne; [congruence|].
  inversion Hf as [|? ? Hx Hr]; subst.
  cbn [length sumR fold_right]; rewrite S_INR.
  destruct r as [|y r']; [simpl; lra|].
  specialize (IH Hr ltac:(discriminate)); unfold sumR in IH; lra.
Qed.

Lemma mean_ref_range (a b : R) (l : list R) :
  Forall (fun v => a <= v < b) l -> l <> [] -> a <= mean_ref l < b.
Proof.
  intros Hf Hne; pose proof (sumR_bounds a b l Hf Hne) as Hb.
  pose proof (INR_length_pos l Hne) as Hn.
  destruct l as [|x r]; [congruence|]; unfold mean_ref.
  split; [apply Rmult_le_reg_r with (r := INR (length (x :: r)))
         |apply Rmult_lt_reg_r with (r := INR (length (x :: r)))]; try lra;
    unfold Rdiv; rewrite Rmult_assoc, Rinv_l; lra.
Qed.

(** With a proper range [xlow < xup], the mean of a histogram that
    received at least one in-range entry lies in [[xlow, xup)]: for
    [gr1()]'s histograms on [[0, 2 t)] the mean is never negative. *)
Theorem GetMean_in_range (nb : Z) (xl u : R) (xs : list (option R)) :
  xl < u -> counted (TH1D_new nb xl (Some u)) xs <> [] ->
  xl <= GetMean (Fill_all (TH1D_new nb xl (Some u)) xs) < u.
Proof.
  intros Hr Hne; rewrite GetMean_fresh.
  exact (mean_ref_range xl u _ (counted_range nb xl u xs Hr) Hne).
Qed.

(** ** Well-formed statistics *)

(** The same statistics run on binary64: the entries outside [[0, 5)] and
    the non-finite entry are counted in [fEntries] but left out of the
    statistics. *)
Example GetMean_GetRMS_float :
  let h := Fill_all (TH1D_new (F := PrimFloat.float) 15 (#0)%D (Some (#5)%D))
             [Some (#1)%D; Some (#2)%D; Some (#3)%D; None; Some (#10)%D; Some (#(-1))%D] in
  (GetMean h, fTsumw h, fEntries h) = ((#2)%D, (#3)%D, 6%Z).
Proof. vm_compute. reflexivity. Qed.
