(* ===== verification/MonteCarlo.v ===== *)
(** * The Monte Carlo checkpoints of [gr1()]

    [gr1.cpp:47-64]: one [TRandom3 T] serves all draws.  For checkpoint
    [i] the nominal temperature is [Tmin + 5 i]; [nerr] draws
    [T.Gaus(temperatura[i], sigma_temperatura)] are mapped through the
    inverse [time_for] into [t_err]; a [TH1D] booked on [[0, 2 t_i)], [t_i]
    the inverse of the nominal temperature, is filled with them; the time
    of the point is its mean clamped at [0] ([clamp_time]) and its error is
    the RMS when that exceeds [sigma_temperatura], [sigma_tiempo] otherwise
    ([time_uncertainty]).

    The generator is a parameter: a state type [RNG] and a function
    [Gaus : RNG -> mean -> sigma -> value * RNG], threaded through the
    draws in the order of the two loops ([draw_times], [checkpoint],
    [simulate_from]).  Nothing is assumed of it, except in the theorems
    that say so (a noiseless generator; a generator reading an indexed
    stream of standard normal values).

    Theorems: every simulated time is non-negative; for a checkpoint
    strictly between [Ta] and [To] the time lies in [[0, 2 t_i)] and the
    clamp never fires; the time error differs from the specification's
    floored RMS exactly when the RMS lies between [sigma_temperatura] and
    [sigma_tiempo]; with a noiseless generator each point is the inverse
    time clamped at zero, with error [sigma_tiempo]; the [i]-th checkpoint
    reads the draws [i nerr .. i nerr + nerr - 1] of the stream; and the
    loop fills the [npts] points in order, point [j] at [Tmin + 5 j]; with
    one draw per checkpoint the time is the draw's inverse time when it
    lies in [[0, 2 t_i)] and [0] otherwise. *)

From Stdlib Require Import ZArith Reals Lra Lia List.
From S2P Require Import Prelude RealModel Config Inverse Histogram.
Import ListNotations.

(** One simulated point: the four arrays of [gr1.cpp:34-37] at index [i]. *)
Record SimPoint (F : Type) := mkSimPoint {
  sp_temperatura : F;
  sp_tiempo : F;
  sp_sigmatiempo : F;
  sp_sigmatemperatura : F
}.
Arguments mkSimPoint {F}.
Arguments sp_temperatura {F}.
Arguments sp_tiempo {F}.
Arguments sp_sigmatiempo {F}.
Arguments sp_sigmatemperatura {F}.

Section MonteCarlo.
Context {F : Type} `{Double F} `{DoubleLog F}.
Context {RNG : Type} (Gaus : RNG -> F -> F -> F * RNG).
Local Open Scope dbl_scope.

(** [for (j = 0; j < nerr; j++) t_err[j] = -TMath::Log((T.Gaus(Ti, s) - Ta)/(To - Ta))/k;] *)
Fixpoint draw_times (g : Globals F) (Ti s : F) (n : nat) (rng : RNG)
    : list (option F) * RNG :=
  match n with
  | O => ([], rng)
  | S n' =>
      let '(x, rng1) := Gaus rng Ti s in
      let '(rest, rng2) := draw_times g Ti s n' rng1 in
      (time_for g x :: rest, rng2)
  end.

(** [if (h1->GetMean() < 0.) tiempo[i] = 0.; else tiempo[i] = h1->GetMean();] *)
Definition clamp_time (mean : F) : F := if mean <? #0 then #0 else mean.

(** [if (h1->GetRMS() > sigma_temperatura) sigmatiempo[i] = h1->GetRMS();
     else sigmatiempo[i] = sigma_tiempo;] *)
Definition time_uncertainty (e : Experiment F) (rms : F) : F :=
  if d_gtb rms (sigma_temperatura e) then rms else sigma_tiempo e.

(** [temperatura[i] = Tmin + 5.*i;] *)
Definition checkpoint_temperature (e : Experiment F) (i : nat) : F :=
  Tmin e + #5 * #(Z.of_nat i).

(** The body of the outer loop for index [i]. *)
Definition checkpoint (g : Globals F) (e : Experiment F) (i : nat) (rng : RNG)
    : SimPoint F * RNG :=
  let Ti := checkpoint_temperature e i in
  let '(t_err, rng') := draw_times g Ti (sigma_temperatura e) (nerr e) rng in
  let h1 := Fill_all (TH1D_new (nbins e) (#0)
                        (option_map (fun t => #2 * t) (time_for g Ti))) t_err in
  (mkSimPoint Ti (clamp_time (GetMean h1)) (time_uncertainty e (GetRMS h1))
     (sigma_temperatura e), rng').

(** [for (i = 0; i < npts; i++) ...], from index [i] for [n] iterations. *)
Fixpoint simulate_from (g : Globals F) (e : Experiment F) (i n : nat) (rng : RNG)
    : list (SimPoint F) * RNG :=
  match n with
  | O => ([], rng)
  | S n' =>
      let '(p, rng1) := checkpoint g e i rng in
      let '(ps, rng2) := simulate_from g e (S i) n' rng1 in
      (p :: ps, rng2)
  end.

Definition simulate (g : Globals F) (e : Experiment F) (rng : RNG) : list (SimPoint F) * RNG :=
  simulate_from g e 0 (npts e) rng.

(** The simulated series of [gr1()]. *)
Definition gr1_simulation (rng : RNG) : list (SimPoint F) * RNG :=
  simulate gr1_globals gr1_experiment rng.

Lemma checkpoint_fields (g : Globals F) (e : Experiment F) (i : nat) (rng : RNG) :
  let Ti := checkpoint_temperature e i in
  let h1 := Fill_all (TH1D_new (nbins e) (#0) (option_map (fun t => #2 * t) (time_for g Ti)))
              (fst (draw_times g Ti (sigma_temperatura e) (nerr e) rng)) in
  fst (checkpoint g e i rng)
  = mkSimPoint Ti (clamp_time (GetMean h1)) (time_uncertainty e (GetRMS h1)) (sigma_temperatura e).
Proof.
  unfold checkpoint; cbv zeta.
  destruct (draw_times g _ _ _ rng); reflexivity.
Qed.

(** A generator that returns the mean it is asked for. *)
Lemma draw_times_noiseless (HG : forall r m sg, Gaus r m sg = (m, r))
    (g : Globals F) (Ti s : F) (n : nat) (rng : RNG) :
  draw_times g Ti s n rng = (repeat (time_for g Ti) n, rng).
Proof.
  induction n as [|n IH]; [reflexivity|]; simpl.
  rewrite HG, IH; reflexivity.
Qed.

Lemma simulate_from_length (g : Globals F) (e : Experiment F) (i n : nat) (rng : RNG) :
  length (fst (simulate_from g e i n rng)) = n.
Proof.
  revert i rng; induction n as [|n IH]; intros i rng; [reflexivity|]; simpl.
  destruct (checkpoint g e i rng) as [p rng1].
  specialize (IH (S i) rng1); destruct (simulate_from g e (S i) n rng1); simpl in *; lia.
Qed.

(** The [m]-th point of a run from index [i] is checkpoint [i + m], computed
    from the generator state the previous checkpoints left. *)
Lemma simulate_from_nth (g : Globals F) (e : Experiment F) (i n : nat) (rng : RNG) :
  Forall (fun p => exists j r, p = fst (checkpoint g e j r)) (fst (simulate_from g e i n rng)).
Proof.
  revert i rng; induction n as [|n IH]; intros i rng; simpl; [constructor|].
  destruct (checkpoint g e i rng) as [p rng1] eqn:Ec.
  specialize (IH (S i) rng1); destruct (simulate_from g e (S i) n rng1) as [ps rng2].
  constructor; [exists i, rng; now rewrite Ec | exact IH].
Qed.
(** The [m]-th point of a run of [n] iterations from index [i] is
    checkpoint [i + m], from whatever state the generator was left in. *)
Lemma simulate_from_nth_point (g : Globals F) (e : Experiment F) (i n : nat) (rng : RNG)
    (m : nat) (d : SimPoint F) :
  (m < n)%nat -> exists r, nth m (fst (simulate_from g e i n rng)) d = fst (checkpoint g e (i + m) r).
Proof.
  revert i rng m; induction n as [|n IH]; intros i rng m Hm; [lia|]; cbn [simulate_from].
  destruct (checkpoint g e i rng) as [p rng1] eqn:Ec.
  destruct (simulate_from g e (S i) n rng1) as [ps rng2] eqn:Es.
  destruct m as [|m]; simpl.
  - exists rng; now rewrite Nat.add_0_r, Ec.
  - destruct (IH (S i) rng1 m ltac:(lia)) as [r Hr]; rewrite Es in Hr; simpl in Hr.
    exists r; rewrite Hr; now replace (i + S m)%nat with (S i + m)%nat by lia.
Qed.
End MonteCarlo.

(** ** The order in which the checkpoints consume the generator *)

Section Stream.
Context {F : Type} `{Double F} `{DoubleLog F}.
Local Open Scope dbl_scope.

(** [T.Gaus(mean, sigma)] as [mean + sigma * z], [z] the next value of a
    stream of standard normal deviates; the generator state is the
    position in the stream. *)
Definition Gaus_stream (z : nat -> F) (n : nat) (m s : F) : F * nat := (m + s * z n, S n).

Lemma draw_times_stream (z : nat -> F) (g : Globals F) (Ti s : F) (n r : nat) :
  draw_times (Gaus_stream z) g Ti s n r
  = (map (fun j => time_for g (Ti + s * z (r + j)%nat)) (seq 0 n), (r + n)%nat).
Proof.
  revert r; induction n as [|n IH]; intro r; [simpl; now rewrite Nat.add_0_r|].
  cbn [draw_times Gaus_stream seq map]; rewrite IH, Nat.add_0_r, <- seq_shift, map_map.
  f_equal; [f_equal; apply map_ext; intro j; now rewrite Nat.add_succ_r | lia].
Qed.

Lemma checkpoint_stream_state (z : nat -> F) (g : Globals F) (e : Experiment F) (i r : nat) :
  snd (checkpoint (Gaus_stream z) g e i r) = (r + nerr e)%nat.
Proof. unfold checkpoint; now rewrite draw_times_stream. Qed.

Lemma simulate_from_nth_stream (z : nat -> F) (g : Globals F) (e : Experiment F)
    (i n r m : nat) (d : SimPoint F) :
  (m < n)%nat ->
  nth m (fst (simulate_from (Gaus_stream z) g e i n r)) d
  = fst (checkpoint (Gaus_stream z) g e (i + m) (r + m * nerr e)%nat).
Proof.
  revert i r m; induction n as [|n IH]; intros i r m Hm; [lia|]; cbn [simulate_from].
  pose proof (checkpoint_stream_state z g e i r) as Hs.
  destruct (checkpoint (Gaus_stream z) g e i r) as [p r1] eqn:Ec; simpl in Hs; subst r1.
  destruct (simulate_from (Gaus_stream z) g e (S i) n (r + nerr e)%nat) as [ps r2] eqn:Es.
  destruct m as [|m]; simpl.
  - now rewrite !Nat.add_0_r, Ec.
  - replace ps with (fst (simulate_from (Gaus_stream z) g e (S i) n (r + nerr e)%nat)) by now rewrite Es.
    rewrite IH by lia.
    replace (S i + m)%nat with (i + S m)%nat by lia.
    replace (r + nerr e + m * nerr e)%nat with (r + S m * nerr e)%nat by lia; reflexivity.
Qed.
End Stream.

Local Open Scope R_scope.

Lemma clamp_time_nonneg (m : R) : 0 <= clamp_time m.
Proof. unfold clamp_time; dsimpl; case_ltb m 0; lra. Qed.

Lemma clamp_time_id (m : R) : 0 <= m -> clamp_time m = m.
Proof. intro Hm; unfold clamp_time; dsimpl; case_ltb m 0; [lra | reflexivity]. Qed.

#[export] Hint Resolve clamp_time_nonneg : cooling.

(** Whatever the generator draws, every simulated time of the
    series is non-negative. *)
Theorem simulate_tiempo_nonneg {RNG : Type} (Gaus : RNG -> R -> R -> R * RNG)
    (g : Globals R) (e : Experiment R) (rng : RNG) :
  Forall (fun p => 0 <= sp_tiempo p) (fst (simulate Gaus g e rng)).
Proof.
  eapply Forall_impl; [|apply simulate_from_nth].
  intros p [j [r ->]]; rewrite checkpoint_fields; cbn [sp_tiempo]; auto with cooling.
Qed.

(** C25. For a checkpoint strictly between [Ta] and [To], whatever the
    draws, its time lies in [[0, 2 t_i)] with [t_i] the inverse of the
    nominal temperature: the mean is read on a proper range, so the
    clamp to [0] never changes it. *)
Theorem checkpoint_time_in_range {RNG : Type} (Gaus : RNG -> R -> R -> R * RNG)
    (g : Globals R) (e : Experiment R) (i : nat) (rng : RNG) :
  0 < k g -> Ta g < To g -> Ta g < checkpoint_temperature e i < To g ->
  exists t0, time_for g (checkpoint_temperature e i) = Some t0 /\
    sp_tiempo (fst (checkpoint Gaus g e i rng))
    = GetMean (Fill_all (TH1D_new (nbins e) 0 (Some (2 * t0)))
        (fst (draw_times Gaus g (checkpoint_temperature e i) (sigma_temperatura e) (nerr e) rng))) /\
    0 <= sp_tiempo (fst (checkpoint Gaus g e i rng)) < 2 * t0.
Proof.
  intros Hk Hg Hi.
  destruct (time_for_between g _ Hk Hg Hi) as [t0 [Ht0 Hpos]].
  exists t0; rewrite checkpoint_fields; cbn [sp_tiempo]; rewrite Ht0; cbn [option_map]; dsimpl.
  rewrite GetMean_fresh.
  set (xs := fst (draw_times Gaus g _ _ _ rng)).
  assert (Hm : 0 <= mean_ref (counted (TH1D_new (nbins e) 0 (Some (2 * t0))) xs) < 2 * t0).
  { pose proof (counted_range (nbins e) 0 (2 * t0) xs ltac:(lra)) as Hf.
    destruct (counted _ xs) as [|x r]; [simpl; lra|].
    apply (mean_ref_range 0 (2 * t0) (x :: r) Hf); discriminate. }
  rewrite clamp_time_id by lra; split; [reflexivity | split; [reflexivity | exact Hm]].
Qed.

Lemma checkpoint_time_in_range_witness :
  (0 < k (gr1_globals (F := R)) /\ Ta (gr1_globals (F := R)) < To gr1_globals /\
   Ta (gr1_globals (F := R)) < checkpoint_temperature gr1_experiment 0 < To gr1_globals) /\
  exists t0, time_for gr1_globals (checkpoint_temperature gr1_experiment 0) = Some t0 /\
    sp_tiempo (fst (checkpoint (fun (r : unit) m _ => (m, r)) gr1_globals gr1_experiment 0 tt))
    = GetMean (Fill_all (TH1D_new (nbins gr1_experiment) 0 (Some (2 * t0)))
        (fst (draw_times (fun (r : unit) m _ => (m, r)) gr1_globals
                (checkpoint_temperature gr1_experiment 0) (sigma_temperatura gr1_experiment)
                (nerr gr1_experiment) tt))) /\
    0 <= sp_tiempo (fst (checkpoint (fun (r : unit) m _ => (m, r)) gr1_globals gr1_experiment 0 tt))
      < 2 * t0.
Proof.
  assert (Hh : 0 < k (gr1_globals (F := R)) /\ Ta (gr1_globals (F := R)) < To gr1_globals /\
               Ta (gr1_globals (F := R)) < checkpoint_temperature gr1_experiment 0 < To gr1_globals)
    by (unfold gr1_globals, checkpoint_temperature, gr1_experiment; simpl; dsimpl; lra).
  destruct Hh as (Hk & Hg & Hi).
  split; [auto|]. apply checkpoint_time_in_range; assumption.
Defined.

(** The specification's time error: the RMS when it exceeds the
    instrument floor, the floor otherwise. *)
Definition uncertainty_spec (floor rms : R) : R := if Rltb floor rms then rms else floor.

(** C8. [gr1.cpp:61] compares the RMS of the times (seconds) with
    [sigma_temperatura] (a temperature error, [2]) instead of the floor
    [sigma_tiempo] ([30] s) it falls back to: the time error differs from
    the specification's floored RMS exactly when the RMS lies strictly
    between the two, where the code reports an error below the floor. *)
Theorem time_uncertainty_vs_spec (e : Experiment R) (rms : R) :
  sigma_temperatura e < sigma_tiempo e ->
  (time_uncertainty e rms = uncertainty_spec (sigma_tiempo e) rms <->
   ~ (sigma_temperatura e < rms < sigma_tiempo e)).
Proof.
  intro He; unfold time_uncertainty, uncertainty_spec; dsimpl.
  case_ltb (sigma_temperatura e) rms; case_ltb (sigma_tiempo e) rms; split; intro; lra.
Qed.

Lemma time_uncertainty_vs_spec_witness :
  sigma_temperatura (gr1_experiment (F := R)) < sigma_tiempo gr1_experiment /\
  (time_uncertainty gr1_experiment 10 = uncertainty_spec (sigma_tiempo gr1_experiment) 10 <->
   ~ (sigma_temperatura gr1_experiment < 10 < sigma_tiempo gr1_experiment)).
Proof.
  assert (He : sigma_temperatura (gr1_experiment (F := R)) < sigma_tiempo gr1_experiment)
    by (unfold gr1_experiment; simpl; dsimpl; lra).
  split; [exact He | apply time_uncertainty_vs_spec; exact He].
Defined.

Lemma sumR_repeat (t : R) (n : nat) : sumR (repeat t n) = INR n * t.
Proof.
  induction n as [|n IH]; [simpl; ring|].
  cbn [repeat]; unfold sumR in *; cbn [fold_right]; rewrite IH, S_INR; ring.
Qed.

Lemma mean_ref_repeat (t : R) (n : nat) : (1 <= n)%nat -> mean_ref (repeat t n) = t.
Proof.
  intro Hn; destruct n as [|n]; [lia|].
  change (mean_ref (repeat t (S n))) with (sumR (repeat t (S n)) / INR (length (repeat t (S n)))).
  rewrite sumR_repeat, repeat_length; field.
  pose proof (pos_INR n); rewrite S_INR; lra.
Qed.

(** Every entry of a histogram booked on [[0, 2 t)] (or, for [t <= 0], with
    automatic binning) counts when all entries equal [t]. *)
Lemma counted_repeat_self (nb : Z) (t : R) (n : nat) :
  counted (TH1D_new nb 0 (Some (2 * t))) (repeat (Some t) n) = repeat t n.
Proof.
  assert (Hc : counts (TH1D_new nb 0 (Some (2 * t))) t = true).
  { unfold counts; simpl; dsimpl. case_ltb 0 (2 * t); [|reflexivity].
    case_ltb t 0; [lra|]. case_ltb t (2 * t); [reflexivity | lra]. }
  induction n as [|n IH]; [reflexivity|]; simpl; rewrite Hc, IH; reflexivity.
Qed.

Lemma rms_ref_repeat (t : R) (n : nat) : (1 <= n)%nat -> rms_ref (repeat t n) = 0.
Proof.
  intro Hn; destruct n as [|n]; [lia|].
  change (rms_ref (repeat t (S n)))
    with (sqrt (fold_right (fun x acc => (x - mean_ref (repeat t (S n))) ^ 2 + acc) 0
                  (repeat t (S n)) / INR (length (repeat t (S n))))).
  rewrite mean_ref_repeat by exact Hn.
  replace (fold_right (fun x acc => (x - t) ^ 2 + acc) 0 (repeat t (S n))) with 0.
  - unfold Rdiv; rewrite Rmult_0_l; exact sqrt_0.
  - clear Hn; induction (S n) as [|m IH]; [reflexivity|]; cbn [repeat fold_right].
    rewrite <- IH; ring.
Qed.

(** With a generator that returns the mean it is asked for, the histogram
    holds [nerr] copies of the inverse time [t0]: its mean is [t0] and its
    RMS is [0]. *)
Lemma checkpoint_noiseless_stats {RNG : Type} (Gaus : RNG -> R -> R -> R * RNG)
    (g : Globals R) (e : Experiment R) (i : nat) (rng : RNG) (t0 : R) :
  (forall r m sg, Gaus r m sg = (m, r)) -> (1 <= nerr e)%nat ->
  time_for g (checkpoint_temperature e i) = Some t0 ->
  sp_tiempo (fst (checkpoint Gaus g e i rng)) = clamp_time t0 /\
  sp_sigmatiempo (fst (checkpoint Gaus g e i rng)) = time_uncertainty e 0.
Proof.
  intros HG Hn Ht0.
  rewrite checkpoint_fields, (draw_times_noiseless Gaus HG); cbn [fst sp_tiempo sp_sigmatiempo].
  rewrite Ht0; cbn [option_map]; dsimpl.
  rewrite GetMean_fresh, GetRMS_fresh, counted_repeat_self,
    mean_ref_repeat, rms_ref_repeat by exact Hn.
  split; reflexivity.
Qed.

(** C6. Noiseless refinement: when the generator returns the nominal
    temperature exactly, a checkpoint above [Ta] gets as time the
    analytic inverse [t_i] clamped at zero, [max(0, t_i)], and as error
    [sigma_tiempo]: the histogram holds [nerr] copies of [t_i], whose
    RMS is [0]. *)
Theorem checkpoint_noiseless {RNG : Type} (Gaus : RNG -> R -> R -> R * RNG)
    (g : Globals R) (e : Experiment R) (i : nat) (rng : RNG) :
  (forall r m sg, Gaus r m sg = (m, r)) ->
  Ta g < To g -> Ta g < checkpoint_temperature e i ->
  (1 <= nerr e)%nat -> 0 <= sigma_temperatura e ->
  exists t0, time_for g (checkpoint_temperature e i) = Some t0 /\
    sp_tiempo (fst (checkpoint Gaus g e i rng)) = Rmax 0 t0 /\
    sp_sigmatiempo (fst (checkpoint Gaus g e i rng)) = sigma_tiempo e.
Proof.
  intros HG Hg Hi Hn Hs.
  pose proof (time_for_quotient g _ (quotient_pos g _ Hg Hi)) as Ht0.
  set (t0 := - ln _ / k g) in Ht0.
  exists t0; split; [exact Ht0|].
  destruct (checkpoint_noiseless_stats Gaus g e i rng t0 HG Hn Ht0) as [-> ->].
  split.
  - unfold clamp_time; dsimpl; case_ltb t0 0.
    + rewrite Rmax_left; lra.
    + rewrite Rmax_right; lra.
  - unfold time_uncertainty; dsimpl; case_ltb (sigma_temperatura e) 0; [lra | reflexivity].
Qed.

(** The last checkpoint of [gr1()], at [75] degrees, above [To = 74]:
    with a noiseless generator its time is clamped to [0]. *)
Lemma checkpoint_noiseless_witness :
  ((forall (r : unit) (m sg : R), (fun r m (_ : R) => (m, r)) r m sg = (m, r)) /\
   Ta (gr1_globals (F := R)) < To gr1_globals /\
   Ta (gr1_globals (F := R)) < checkpoint_temperature gr1_experiment 9 /\
   (1 <= nerr (gr1_experiment (F := R)))%nat /\ 0 <= sigma_temperatura (gr1_experiment (F := R))) /\
  exists t0, time_for gr1_globals (checkpoint_temperature gr1_experiment 9) = Some t0 /\
    sp_tiempo (fst (checkpoint (fun (r : unit) m _ => (m, r)) gr1_globals gr1_experiment 9 tt))
      = Rmax 0 t0 /\
    sp_sigmatiempo (fst (checkpoint (fun (r : unit) m _ => (m, r)) gr1_globals gr1_experiment 9 tt))
      = sigma_tiempo gr1_experiment.
Proof.
  assert (Hh : Ta (gr1_globals (F := R)) < To gr1_globals /\
               Ta (gr1_globals (F := R)) < checkpoint_temperature gr1_experiment 9 /\
               (1 <= nerr (gr1_experiment (F := R)))%nat /\
               0 <= sigma_temperatura (gr1_experiment (F := R)))
    by (unfold gr1_globals, checkpoint_temperature, gr1_experiment; simpl; dsimpl;
        repeat split; lra || lia).
  destruct Hh as (Hg & Hi & Hn & Hs).
  split; [repeat split; auto|].
  apply checkpoint_noiseless; auto.
Defined.

(** C28. Order of the draws: when [T.Gaus] reads a stream [z] of standard
    normal deviates from position [r], the point with index [m] of the
    series is the checkpoint [m] computed from position [r + m nerr], and
    its [nerr] candidate times are the inverses of
    [T_m + sigma z(r + m nerr + j)], [j < nerr], in order. *)
Theorem simulate_stream_order (z : nat -> R) (g : Globals R) (e : Experiment R)
    (r m : nat) (d : SimPoint R) :
  (m < npts e)%nat ->
  nth m (fst (simulate (Gaus_stream z) g e r)) d
  = fst (checkpoint (Gaus_stream z) g e m (r + m * nerr e)%nat) /\
  fst (draw_times (Gaus_stream z) g (checkpoint_temperature e m) (sigma_temperatura e)
         (nerr e) (r + m * nerr e)%nat)
  = map (fun j => time_for g (checkpoint_temperature e m + sigma_temperatura e * z (r + m * nerr e + j)%nat))
      (seq 0 (nerr e)).
Proof.
  intro Hm; split.
  - unfold simulate; rewrite simulate_from_nth_stream by exact Hm; reflexivity.
  - rewrite draw_times_stream; reflexivity.
Qed.

Lemma simulate_stream_order_witness :
  (9 < npts (gr1_experiment (F := R)))%nat /\
  (nth 9 (fst (simulate (Gaus_stream (fun _ => 0)) gr1_globals gr1_experiment 0%nat))
       (mkSimPoint 0 0 0 0)
   = fst (checkpoint (Gaus_stream (fun _ => 0)) gr1_globals gr1_experiment 9
            (0 + 9 * nerr gr1_experiment)%nat) /\
   fst (draw_times (Gaus_stream (fun _ => 0)) gr1_globals (checkpoint_temperature gr1_experiment 9)
          (sigma_temperatura gr1_experiment) (nerr gr1_experiment) (0 + 9 * nerr gr1_experiment)%nat)
   = map (fun j => time_for gr1_globals (checkpoint_temperature gr1_experiment 9
                     + sigma_temperatura gr1_experiment * (fun _ => 0) (0 + 9 * nerr gr1_experiment + j)%nat))
       (seq 0 (nerr gr1_experiment))).
Proof. split; [simpl; lia | apply simulate_stream_order; simpl; lia]. Defined.

(** C26. The loop of [gr1.cpp:51-64] fills every index of the arrays
    once and in order, whatever the generator draws: the series has
    [npts] points, point [j] has the nominal temperature [Tmin + 5 j]
    and the temperature error [sigma_temperatura]. *)
Theorem simulate_series {F : Type} `{Double F} `{DoubleLog F} {RNG : Type}
    (Gaus : RNG -> F -> F -> F * RNG) (g : Globals F) (e : Experiment F) (rng : RNG) :
  length (fst (simulate Gaus g e rng)) = npts e /\
  forall j d, (j < npts e)%nat ->
    sp_temperatura (nth j (fst (simulate Gaus g e rng)) d) = checkpoint_temperature e j /\
    sp_sigmatemperatura (nth j (fst (simulate Gaus g e rng)) d) = sigma_temperatura e.
Proof.
  split; [apply simulate_from_length|].
  intros j d Hj; unfold simulate.
  destruct (simulate_from_nth_point Gaus g e 0 (npts e) rng j d Hj) as [r ->].
  rewrite checkpoint_fields; split; reflexivity.
Qed.

Lemma simulate_series_witness :
  (9 < npts (gr1_experiment (F := R)))%nat /\
  sp_temperatura (nth 9 (fst (simulate (Gaus_stream (fun _ => 0)) gr1_globals gr1_experiment 0%nat))
                    (mkSimPoint 0 0 0 0))
  = checkpoint_temperature gr1_experiment 9.
Proof.
  assert (H9 : (9 < npts (gr1_experiment (F := R)))%nat) by (simpl; lia).
  split; [exact H9|].
  exact (proj1 (proj2 (simulate_series (Gaus_stream (fun _ => 0)) gr1_globals gr1_experiment 0%nat)
                  9%nat (mkSimPoint 0 0 0 0) H9)).
Defined.

(** ** One draw per checkpoint *)

(** The statistics of a histogram on [[0, u)] after one entry [t]: the
    entry when it lies in the range, nothing otherwise; the RMS is [0]. *)
Lemma single_entry_stats (nb : Z) (u : R) (ot : option R) :
  0 < u ->
  let h := Fill_all (TH1D_new nb 0 (Some u)) [ot] in
  GetMean h = match ot with
              | Some t => if Rle_dec 0 t then if Rlt_dec t u then t else 0 else 0
              | None => 0
              end /\ GetRMS h = 0.
Proof.
  intros Hu h; unfold h, Fill_all, TH1D_new; cbn [fold_left].
  destruct ot as [t|]; unfold Fill, counts, GetMean, GetRMS; cbn [h_xlow h_xup fTsumw fTsumwx fTsumwx2];
    dsimpl; unfold Rltb, Reqb;
    repeat (simpl; match goal with
    | |- context [Rlt_dec ?a ?b] => destruct (Rlt_dec a b)
    | |- context [Rle_dec ?a ?b] => destruct (Rle_dec a b)
    | |- context [Req_dec_T ?a ?b] => destruct (Req_dec_T a b)
    end); try lra; split; try (rewrite ?sqrt_0; reflexivity);
    try (field; lra); exfalso; nra.
Qed.

(** C9. The specification's degenerate case of one
    draw per checkpoint ([nerr = 1]), for a checkpoint strictly between
    [Ta] and [To]: the time is the draw's inverse time [t] only when [t]
    lies in the histogram range [[0, 2 t_i)]; a draw whose inverse falls
    outside it, or has none (a draw at or below [Ta]), gives time [0]; the
    time error is always [sigma_tiempo]; the generator moves by one draw. *)
Theorem checkpoint_single_draw {RNG : Type} (Gaus : RNG -> R -> R -> R * RNG)
    (g : Globals R) (e : Experiment R) (i : nat) (rng rng' : RNG) (x : R) :
  0 < k g -> nerr e = 1%nat -> 0 <= sigma_temperatura e ->
  Ta g < checkpoint_temperature e i < To g ->
  Gaus rng (checkpoint_temperature e i) (sigma_temperatura e) = (x, rng') ->
  exists ti, time_for g (checkpoint_temperature e i) = Some ti /\ 0 < ti /\
  checkpoint Gaus g e i rng
  = (mkSimPoint (checkpoint_temperature e i)
       match time_for g x with
       | Some t => if Rle_dec 0 t then if Rlt_dec t (2 * ti) then t else 0 else 0
       | None => 0
       end
       (sigma_tiempo e) (sigma_temperatura e), rng').
Proof.
  intros Hk Hn Hs HT HG.
  destruct (time_for_between g _ Hk ltac:(lra) HT) as (ti & Hti & Hpos).
  exists ti; split; [exact Hti|]; split; [exact Hpos|].
  unfold checkpoint; rewrite Hn; cbn [draw_times]; rewrite HG, Hti; cbn [option_map].
  destruct (single_entry_stats (nbins e) (d_of_Z 2 * ti) (time_for g x)) as [Hm Hr];
    [dsimpl; lra|].
  dsimpl; rewrite Hm, Hr; f_equal; f_equal.
  - destruct (time_for g x) as [t|]; [|unfold clamp_time; dsimpl; unfold Rltb;
      destruct (Rlt_dec 0 0); [lra | reflexivity]].
    unfold clamp_time; dsimpl; unfold Rltb.
    destruct (Rle_dec 0 t); [destruct (Rlt_dec t (2 * ti))|];
      destruct (Rlt_dec _ 0); reflexivity || lra.
  - unfold time_uncertainty; dsimpl; unfold Rltb; destruct (Rlt_dec _ 0); [lra | reflexivity].
Qed.

Lemma checkpoint_single_draw_witness :
  let e1 := mkExperiment 10 1 15 30 2 30 in
  (0 < k (gr1_globals (F := R)) /\ nerr e1 = 1%nat /\ 0 <= sigma_temperatura e1 /\
   Ta gr1_globals < checkpoint_temperature e1 2 < To gr1_globals /\
   Gaus_stream (fun _ => 0) 0%nat (checkpoint_temperature e1 2) (sigma_temperatura e1)
   = (checkpoint_temperature e1 2 + 2 * 0, 1%nat)) /\
  exists ti, time_for gr1_globals (checkpoint_temperature e1 2) = Some ti /\ 0 < ti /\
  checkpoint (Gaus_stream (fun _ => 0)) gr1_globals e1 2 0%nat
  = (mkSimPoint (checkpoint_temperature e1 2)
       match time_for gr1_globals (checkpoint_temperature e1 2 + 2 * 0) with
       | Some t => if Rle_dec 0 t then if Rlt_dec t (2 * ti) then t else 0 else 0
       | None => 0
       end
       (sigma_tiempo e1) (sigma_temperatura e1), 1%nat).
Proof.
  intro e1.
  assert (H : 0 < k (gr1_globals (F := R)) /\ nerr e1 = 1%nat /\ 0 <= sigma_temperatura e1 /\
              Ta gr1_globals < checkpoint_temperature e1 2 < To gr1_globals /\
              Gaus_stream (fun _ => 0) 0%nat (checkpoint_temperature e1 2) (sigma_temperatura e1)
              = (checkpoint_temperature e1 2 + 2 * 0, 1%nat)).
  { unfold e1, gr1_globals, checkpoint_temperature, Gaus_stream; cbn; dsimpl.
    repeat split; try lra; reflexivity. }
  destruct H as (H1 & H2 & H3 & H4 & H5).
  split; [exact (conj H1 (conj H2 (conj H3 (conj H4 H5))))|].
  apply checkpoint_single_draw; assumption.
Defined.
