(* ===== verification/MonteCarloArrays.v ===== *)
(** * The Monte Carlo of [gr1()] at the level of its arrays and loops

    [MonteCarlo] models the loop of [gr1.cpp:51-64] as functions on lists.
    The code itself works on C arrays: [Double_t t_err[nerr]]
    ([gr1.cpp:49]) is one buffer, declared once and rewritten by every
    checkpoint ([gr1.cpp:53]) before the histogram reads it back by index
    ([gr1.cpp:56]); the four result arrays [temperatura], [tiempo],
    [sigmatiempo], [sigmatemperatura] ([gr1.cpp:34-37]) are declared
    without initial values and written at index [i] ([gr1.cpp:52-63]).
    Every loop is a [for_loop] with its [Int_t] counter.

    [draw_body] and [fill_body] are the bodies of the two inner loops,
    [checkpoint_cpp] the body of the outer loop with the shared buffer,
    [store_point] the four stores at index [i], [simulate_cpp] the outer
    loop.  All are parameterised by the fuel of the loops.

    Theorems: whatever the buffer held before, a checkpoint fills the
    histogram with its own draws only, and computes the point of
    [MonteCarlo.checkpoint]; whatever the uninitialised arrays held, the
    loop writes every entry, and the arrays are the columns of
    [MonteCarlo.simulate]. *)

From Stdlib Require Import ZArith Lia List Reals.
From S2P Require Import Prelude Loops RealModel Config Inverse Histogram MonteCarlo.
Import ListNotations.

(** The four arrays of results, [gr1.cpp:34-37]. *)
Record SimArrays (F : Type) := mkSimArrays {
  a_temperatura : list F;
  a_tiempo : list F;
  a_sigmatiempo : list F;
  a_sigmatemperatura : list F
}.
Arguments mkSimArrays {F}.
Arguments a_temperatura {F}. Arguments a_tiempo {F}.
Arguments a_sigmatiempo {F}. Arguments a_sigmatemperatura {F}.

Section Arrays.
Context {F : Type} `{Double F} `{DoubleLog F}.
Context {RNG : Type} (Gaus : RNG -> F -> F -> F * RNG).
Local Open Scope dbl_scope.

(** [t_err[j] = -TMath::Log((T.Gaus(Ti, s) - Ta)/(To - Ta))/k;] *)
Definition draw_body (g : Globals F) (Ti s : F) (j : Z) (st : list (option F) * RNG)
    : list (option F) * RNG :=
  let '(buf, rng) := st in
  let '(x, rng') := Gaus rng Ti s in
  (set_nth buf (Z.to_nat j) (time_for g x), rng').

(** [h1->Fill(t_err[l]);] *)
Definition fill_body (buf : list (option F)) (l : Z) (h : TH1D F) : TH1D F :=
  Fill h (nth (Z.to_nat l) buf None).

(** The body of the outer loop for index [i], on the shared buffer [buf]. *)
Definition checkpoint_cpp (fuel : nat) (g : Globals F) (e : Experiment F) (i : nat)
    (buf : list (option F)) (rng : RNG) : option (SimPoint F * list (option F) * RNG) :=
  let Ti := checkpoint_temperature e i in
  match for_loop fuel (draw_body g Ti (sigma_temperatura e)) 0 (Z.of_nat (nerr e)) (buf, rng) with
  | None => None
  | Some (buf', rng') =>
      let h0 := TH1D_new (nbins e) (#0) (option_map (fun t => #2 * t) (time_for g Ti)) in
      match for_loop fuel (fill_body buf') 0 (Z.of_nat (nerr e)) h0 with
      | None => None
      | Some h1 =>
          Some (mkSimPoint Ti (clamp_time (GetMean h1)) (time_uncertainty e (GetRMS h1))
                  (sigma_temperatura e), buf', rng')
      end
  end.

(** [temperatura[i] = ...; tiempo[i] = ...; sigmatiempo[i] = ...;
     sigmatemperatura[i] = ...;] *)
Definition store_point (a : SimArrays F) (i : nat) (p : SimPoint F) : SimArrays F :=
  mkSimArrays (set_nth (a_temperatura a) i (sp_temperatura p))
    (set_nth (a_tiempo a) i (sp_tiempo p))
    (set_nth (a_sigmatiempo a) i (sp_sigmatiempo p))
    (set_nth (a_sigmatemperatura a) i (sp_sigmatemperatura p)).

Definition simulate_body (fuel : nat) (g : Globals F) (e : Experiment F) (i : Z)
    (st : option (SimArrays F * list (option F) * RNG))
    : option (SimArrays F * list (option F) * RNG) :=
  match st with
  | None => None
  | Some (a, buf, rng) =>
      match checkpoint_cpp fuel g e (Z.to_nat i) buf rng with
      | None => None
      | Some (p, buf', rng') => Some (store_point a (Z.to_nat i) p, buf', rng')
      end
  end.

(** [for (Int_t i = 0; i < npts; i++) ...] from the arrays [a] and the
    buffer [buf] as they were before the loop. *)
Definition simulate_cpp (fuel : nat) (g : Globals F) (e : Experiment F)
    (a : SimArrays F) (buf : list (option F)) (rng : RNG)
    : option (SimArrays F * list (option F) * RNG) :=
  match for_loop fuel (simulate_body fuel g e) 0 (Z.of_nat (npts e)) (Some (a, buf, rng)) with
  | Some st => st
  | None => None
  end.

Lemma draw_times_length (g : Globals F) (Ti s : F) (n : nat) (rng : RNG) :
  length (fst (draw_times Gaus g Ti s n rng)) = n.
Proof.
  revert rng; induction n as [|n IH]; intro rng; [reflexivity|]; cbn [draw_times].
  destruct (Gaus rng Ti s) as [x r1]; specialize (IH r1).
  destruct (draw_times Gaus g Ti s n r1) as [rest r2]; simpl in *; now rewrite IH.
Qed.

(** [k] iterations of the draw loop from index [j] write the next [k]
    draws into the buffer from [j] on. *)
Lemma draw_iterate (g : Globals F) (Ti s : F) (k j : nat) (buf : list (option F)) (rng : RNG) :
  (j + k <= length buf)%nat ->
  iterate_from (draw_body g Ti s) (Z.of_nat j) k (buf, rng)
  = (write_seq buf j (fst (draw_times Gaus g Ti s k rng)), snd (draw_times Gaus g Ti s k rng)).
Proof.
  revert j buf rng; induction k as [|k IH]; intros j buf rng Hk.
  - cbn; now rewrite write_seq_nil.
  - cbn [iterate_from draw_times draw_body].
    destruct (Gaus rng Ti s) as [x r1] eqn:EG.
    rewrite Nat2Z.id; replace (Z.of_nat j + 1)%Z with (Z.of_nat (S j)) by lia.
    rewrite IH by (rewrite length_set_nth; lia).
    pose proof (draw_times_length g Ti s k r1) as Hl.
    destruct (draw_times Gaus g Ti s k r1) as [rest r2]; simpl in Hl |- *.
    rewrite write_seq_set_nth by (rewrite Hl; lia); reflexivity.
Qed.

(** [k] iterations of the fill loop from index [l] fill the entries
    [l, ..., l + k - 1] of the buffer, in order. *)
Lemma fill_iterate (buf : list (option F)) (k l : nat) (h : TH1D F) :
  (l + k <= length buf)%nat ->
  iterate_from (fill_body buf) (Z.of_nat l) k h = fold_left Fill (firstn k (skipn l buf)) h.
Proof.
  revert l h; induction k as [|k IH]; intros l h Hk; [reflexivity|].
  cbn [iterate_from]; unfold fill_body at 2; rewrite Nat2Z.id.
  replace (Z.of_nat l + 1)%Z with (Z.of_nat (S l)) by lia.
  rewrite IH by lia; rewrite (skipn_nth_cons buf l None) by lia; reflexivity.
Qed.

(** The body of the outer loop computes [MonteCarlo.checkpoint] and leaves
    this checkpoint's draws in the buffer, whatever the buffer held. *)
Lemma checkpoint_cpp_spec (fuel : nat) (g : Globals F) (e : Experiment F) (i : nat)
    (buf : list (option F)) (rng : RNG) :
  length buf = nerr e -> (Z.of_nat (nerr e) <= Int_max)%Z -> (nerr e < fuel)%nat ->
  checkpoint_cpp fuel g e i buf rng
  = Some (fst (checkpoint Gaus g e i rng),
          fst (draw_times Gaus g (checkpoint_temperature e i) (sigma_temperatura e) (nerr e) rng),
          snd (checkpoint Gaus g e i rng)).
Proof.
  intros Hl Hn Hf; apply Nat.ltb_lt in Hf; unfold checkpoint_cpp.
  rewrite (for_loop_run _ _ (nerr e) fuel 0) by (unfold Int_min; lia); rewrite Hf.
  rewrite (draw_iterate g _ _ (nerr e) 0 buf rng) by lia.
  rewrite write_seq_all by (rewrite draw_times_length; lia).
  rewrite (for_loop_run _ _ (nerr e) fuel 0) by (unfold Int_min; lia); rewrite Hf.
  rewrite (fill_iterate _ (nerr e) 0) by (rewrite draw_times_length; lia).
  cbn [skipn]; rewrite firstn_all2 by (rewrite draw_times_length; lia).
  unfold checkpoint; cbv zeta.
  destruct (draw_times Gaus g _ _ (nerr e) rng) as [t_err rng']; reflexivity.
Qed.

(** The arrays [a] with the points [ps] written from index [j] on. *)
Definition write_points (a : SimArrays F) (j : nat) (ps : list (SimPoint F)) : SimArrays F :=
  mkSimArrays (write_seq (a_temperatura a) j (map sp_temperatura ps))
    (write_seq (a_tiempo a) j (map sp_tiempo ps))
    (write_seq (a_sigmatiempo a) j (map sp_sigmatiempo ps))
    (write_seq (a_sigmatemperatura a) j (map sp_sigmatemperatura ps)).

(** The four arrays have [n] entries, as declared ([Double_t x[npts]]). *)
Definition arrays_length (a : SimArrays F) (n : nat) : Prop :=
  length (a_temperatura a) = n /\ length (a_tiempo a) = n /\
  length (a_sigmatiempo a) = n /\ length (a_sigmatemperatura a) = n.

Lemma write_points_nil (a : SimArrays F) (j : nat) : write_points a j [] = a.
Proof. destruct a; unfold write_points; cbn; now rewrite !write_seq_nil. Qed.

Lemma write_points_store (a : SimArrays F) (j n : nat) (p : SimPoint F) (ps : list (SimPoint F)) :
  arrays_length a n -> (j + S (length ps) <= n)%nat ->
  write_points (store_point a j p) (S j) ps = write_points a j (p :: ps).
Proof.
  intros (H1 & H2 & H3 & H4) Hj; unfold write_points, store_point; cbn [a_temperatura a_tiempo
    a_sigmatiempo a_sigmatemperatura].
  rewrite !write_seq_set_nth by (rewrite length_map; lia); reflexivity.
Qed.

Lemma store_point_length (a : SimArrays F) (j n : nat) (p : SimPoint F) :
  arrays_length a n -> arrays_length (store_point a j p) n.
Proof.
  intros (H1 & H2 & H3 & H4); unfold arrays_length, store_point; cbn [a_temperatura a_tiempo
    a_sigmatiempo a_sigmatemperatura].
  now rewrite !length_set_nth.
Qed.

Lemma write_points_all (a : SimArrays F) (ps : list (SimPoint F)) :
  arrays_length a (length ps) ->
  write_points a 0 ps = mkSimArrays (map sp_temperatura ps) (map sp_tiempo ps)
                          (map sp_sigmatiempo ps) (map sp_sigmatemperatura ps).
Proof.
  intros (H1 & H2 & H3 & H4); unfold write_points.
  rewrite !write_seq_all by (rewrite length_map; lia); reflexivity.
Qed.

(** [k] iterations of the outer loop from index [j] write the points
    [j, ..., j + k - 1] of [MonteCarlo.simulate_from] into the arrays. *)
Lemma simulate_iterate (fuel : nat) (g : Globals F) (e : Experiment F) (n k j : nat)
    (a : SimArrays F) (buf : list (option F)) (rng : RNG) :
  (j + k <= n)%nat -> arrays_length a n -> length buf = nerr e ->
  (Z.of_nat (nerr e) <= Int_max)%Z -> (nerr e < fuel)%nat ->
  exists buf', length buf' = nerr e /\
  iterate_from (simulate_body fuel g e) (Z.of_nat j) k (Some (a, buf, rng))
  = Some (write_points a j (fst (simulate_from Gaus g e j k rng)), buf',
          snd (simulate_from Gaus g e j k rng)).
Proof.
  revert j a buf rng; induction k as [|k IH]; intros j a buf rng Hk Ha Hb Hn Hf.
  - exists buf; split; [exact Hb|]; cbn; now rewrite write_points_nil.
  - cbn [iterate_from simulate_from simulate_body].
    rewrite Nat2Z.id, checkpoint_cpp_spec by assumption.
    destruct (checkpoint Gaus g e j rng) as [p r1] eqn:Ec; cbn [fst snd].
    replace (Z.of_nat j + 1)%Z with (Z.of_nat (S j)) by lia.
    destruct (IH (S j) (store_point a j p) (fst (draw_times Gaus g (checkpoint_temperature e j)
                (sigma_temperatura e) (nerr e) rng)) r1) as (buf' & Hb' & E);
      [lia | apply store_point_length, Ha | apply draw_times_length | exact Hn | exact Hf |].
    exists buf'; split; [exact Hb'|]; rewrite E.
    pose proof (simulate_from_length Gaus g e (S j) k r1) as Hl.
    destruct (simulate_from Gaus g e (S j) k r1) as [ps r2]; simpl in Hl |- *.
    rewrite (write_points_store a j n p ps) by (try exact Ha; lia); reflexivity.
Qed.

(** The whole loop from any contents of the arrays and the buffer. *)
Lemma simulate_cpp_run (fuel : nat) (g : Globals F) (e : Experiment F)
    (a : SimArrays F) (buf : list (option F)) (rng : RNG) :
  arrays_length a (npts e) -> length buf = nerr e ->
  (Z.of_nat (npts e) <= Int_max)%Z -> (Z.of_nat (nerr e) <= Int_max)%Z ->
  (npts e < fuel)%nat -> (nerr e < fuel)%nat ->
  exists buf', simulate_cpp fuel g e a buf rng
    = Some (mkSimArrays (map sp_temperatura (fst (simulate Gaus g e rng)))
              (map sp_tiempo (fst (simulate Gaus g e rng)))
              (map sp_sigmatiempo (fst (simulate Gaus g e rng)))
              (map sp_sigmatemperatura (fst (simulate Gaus g e rng))),
            buf', snd (simulate Gaus g e rng)).
Proof.
  intros Ha Hb Hp Hn Hfp Hfn; unfold simulate_cpp, simulate.
  rewrite (for_loop_run _ _ (npts e) fuel 0) by (unfold Int_min; lia).
  apply Nat.ltb_lt in Hfp; rewrite Hfp.
  destruct (simulate_iterate fuel g e (npts e) (npts e) 0 a buf rng) as (buf' & _ & E);
    try assumption; [lia|].
  change (Z.of_nat 0) with 0%Z in E.
  exists buf'; rewrite E, write_points_all; [reflexivity|].
  now rewrite simulate_from_length.
Qed.
End Arrays.

(** ** The theorems of the array-level model *)

(** C12. The buffer [t_err] shared by the checkpoints never leaks: for
    every two contents the buffer may hold when checkpoint [i] starts
    (the draws of the previous checkpoint, or anything of length
    [nerr]), the checkpoint computes the same point, the one of
    [MonteCarlo.checkpoint], and the loops stop. *)
Theorem checkpoint_buffer_independent {F : Type} `{Double F} `{DoubleLog F} {RNG : Type}
    (Gaus : RNG -> F -> F -> F * RNG) (fuel : nat) (g : Globals F) (e : Experiment F)
    (i : nat) (buf1 buf2 : list (option F)) (rng : RNG) :
  length buf1 = nerr e -> length buf2 = nerr e ->
  (Z.of_nat (nerr e) <= Int_max)%Z -> (nerr e < fuel)%nat ->
  checkpoint_cpp Gaus fuel g e i buf1 rng = checkpoint_cpp Gaus fuel g e i buf2 rng /\
  option_map (fun r => fst (fst r)) (checkpoint_cpp Gaus fuel g e i buf1 rng)
  = Some (fst (checkpoint Gaus g e i rng)).
Proof. intros H1 H2 Hn Hf; rewrite !checkpoint_cpp_spec by assumption; split; reflexivity. Qed.

(** C11. Termination and refinement of the loop of [gr1.cpp:51-64] with
    its arrays: from any contents of the uninitialised result arrays and
    of the buffer, the three nested loops stop, every entry of the four
    arrays is written, and the arrays are the columns of
    [MonteCarlo.simulate]; the generator ends in the same state. *)
Theorem simulate_cpp_refines {F : Type} `{Double F} `{DoubleLog F} {RNG : Type}
    (Gaus : RNG -> F -> F -> F * RNG) (fuel : nat) (g : Globals F) (e : Experiment F)
    (a : SimArrays F) (buf : list (option F)) (rng : RNG) :
  arrays_length a (npts e) -> length buf = nerr e ->
  (Z.of_nat (npts e) <= Int_max)%Z -> (Z.of_nat (nerr e) <= Int_max)%Z ->
  (npts e < fuel)%nat -> (nerr e < fuel)%nat ->
  exists buf', simulate_cpp Gaus fuel g e a buf rng
    = Some (mkSimArrays (map sp_temperatura (fst (simulate Gaus g e rng)))
              (map sp_tiempo (fst (simulate Gaus g e rng)))
              (map sp_sigmatiempo (fst (simulate Gaus g e rng)))
              (map sp_sigmatemperatura (fst (simulate Gaus g e rng))),
            buf', snd (simulate Gaus g e rng)).
Proof.
  apply simulate_cpp_run.
Qed.

(** ** Witnesses: [gr1()]'s constants with a generator that returns the
    nominal temperature *)

Definition nominal_gaus (r : unit) (m _ : R) : R * unit := (m, r).

Lemma gr1_loop_bounds :
  (Z.of_nat (npts (gr1_experiment (F := R))) <= Int_max)%Z /\
  (Z.of_nat (nerr (gr1_experiment (F := R))) <= Int_max)%Z /\
  (npts (gr1_experiment (F := R)) < 1001)%nat /\ (nerr (gr1_experiment (F := R)) < 1001)%nat.
Proof. unfold Int_max; simpl; lia. Qed.

Lemma checkpoint_buffer_independent_witness :
  (length (repeat (@None R) 1000) = nerr (gr1_experiment (F := R)) /\
   length (repeat (Some 0%R) 1000) = nerr (gr1_experiment (F := R)) /\
   (Z.of_nat (nerr (gr1_experiment (F := R))) <= Int_max)%Z /\
   (nerr (gr1_experiment (F := R)) < 1001)%nat) /\
  (checkpoint_cpp nominal_gaus 1001 gr1_globals gr1_experiment 9 (repeat None 1000) tt
   = checkpoint_cpp nominal_gaus 1001 gr1_globals gr1_experiment 9 (repeat (Some 0%R) 1000) tt /\
   option_map (fun r => fst (fst r))
     (checkpoint_cpp nominal_gaus 1001 gr1_globals gr1_experiment 9 (repeat None 1000) tt)
   = Some (fst (checkpoint nominal_gaus gr1_globals gr1_experiment 9 tt))).
Proof.
  destruct gr1_loop_bounds as (_ & Hn & _ & Hf).
  assert (H1 : length (repeat (@None R) 1000) = nerr (gr1_experiment (F := R))) by reflexivity.
  assert (H2 : length (repeat (Some 0%R) 1000) = nerr (gr1_experiment (F := R))) by reflexivity.
  split; [repeat split; assumption|].
  apply checkpoint_buffer_independent; assumption.
Defined.

Lemma simulate_cpp_refines_witness :
  (arrays_length (mkSimArrays (repeat 0%R 10) (repeat 0%R 10) (repeat 0%R 10) (repeat 0%R 10))
     (npts (gr1_experiment (F := R))) /\
   length (repeat (@None R) 1000) = nerr (gr1_experiment (F := R)) /\
   (Z.of_nat (npts (gr1_experiment (F := R))) <= Int_max)%Z /\
   (Z.of_nat (nerr (gr1_experiment (F := R))) <= Int_max)%Z /\
   (npts (gr1_experiment (F := R)) < 1001)%nat /\ (nerr (gr1_experiment (F := R)) < 1001)%nat) /\
  exists buf', simulate_cpp nominal_gaus 1001 gr1_globals gr1_experiment
      (mkSimArrays (repeat 0%R 10) (repeat 0%R 10) (repeat 0%R 10) (repeat 0%R 10))
      (repeat None 1000) tt
    = Some (mkSimArrays
              (map sp_temperatura (fst (simulate nominal_gaus gr1_globals gr1_experiment tt)))
              (map sp_tiempo (fst (simulate nominal_gaus gr1_globals gr1_experiment tt)))
              (map sp_sigmatiempo (fst (simulate nominal_gaus gr1_globals gr1_experiment tt)))
              (map sp_sigmatemperatura (fst (simulate nominal_gaus gr1_globals gr1_experiment tt))),
            buf', snd (simulate nominal_gaus gr1_globals gr1_experiment tt)).
Proof.
  destruct gr1_loop_bounds as (Hp & Hn & Hfp & Hfn).
  assert (Ha : arrays_length (mkSimArrays (repeat 0%R 10) (repeat 0%R 10) (repeat 0%R 10)
                 (repeat 0%R 10)) (npts (gr1_experiment (F := R))))
    by (repeat split; reflexivity).
  assert (Hb : length (repeat (@None R) 1000) = nerr (gr1_experiment (F := R))) by reflexivity.
  split; [repeat split; assumption|].
  apply simulate_cpp_refines; assumption.
Defined.

