(* ===== verification/Canvas.v ===== *)
(** * [CanvasPartition]: the pad layout of the canvas

    [gr1.cpp:304-380] (and its copy [gr2.cpp:262-338]) splits the canvas
    into [Nx * Ny] pads.  Along each axis the same computation runs: the
    first pad ([i == 0]) starts at [0] and carries the low margin, the last
    ([i == N - 1]) carries the high margin, the others only their frame;
    consecutive pads are [spacing] apart, and [posr]/[posu] of the previous
    pad is the state carried from one iteration to the next.
    [axis_step] is one such iteration, used for the columns
    ([gr1.cpp:319-337]) and for the rows ([gr1.cpp:341-359]);
    [CanvasPartition] runs the two nested loops, threading [hposr] and
    [vposu] as the C++ variables declared before the loops, and returns the
    pads it creates in creation order ([if (!C) return;]: none without a
    canvas).  The [Float_t] arithmetic is modelled by the [Double]
    interface; on [R] it is exact.

    Theorems: the pads are the product of the columns and the rows; with
    at least two pads along an axis the pads tile it from [0] to [1] with
    the spacing between them, and every frame (pad minus its margins) has
    the same size [step]; with a single pad the high margin is dropped;
    when the margins leave a positive pitch every pad is a valid [TPad]
    ([pad_valid]: corners inside the unit square in the right order,
    margins leaving a non-empty frame). *)

From Stdlib Require Import ZArith Reals Lra Lia List.
From S2P Require Import Prelude RealModel.
Import ListNotations.

(** One pad: its indices, its corners and its four margins. *)
Record Pad (F : Type) := mkPad {
  pad_i : nat; pad_j : nat;
  pad_xlow : F; pad_ylow : F; pad_xup : F; pad_yup : F;
  pad_lm : F; pad_rm : F; pad_bm : F; pad_tm : F
}.
Arguments mkPad {F}.
Arguments pad_i {F}. Arguments pad_j {F}.
Arguments pad_xlow {F}. Arguments pad_ylow {F}. Arguments pad_xup {F}. Arguments pad_yup {F}.
Arguments pad_lm {F}. Arguments pad_rm {F}. Arguments pad_bm {F}. Arguments pad_tm {F}.

(** The extent of a pad along one axis: low and high position, low and high
    margin (as fractions of the pad). *)
Record Span (F : Type) := mkSpan { lo : F; hi : F; mlo : F; mhi : F }.
Arguments mkSpan {F}.
Arguments lo {F}. Arguments hi {F}. Arguments mlo {F}. Arguments mhi {F}.

Section Canvas.
Context {F : Type} `{Double F}.
Local Open Scope dbl_scope.

(** [Float_t step = (1.- m1 - m2 - (N-1) * spacing) / N;] *)
Definition axis_pitch (N : Z) (m1 m2 spacing : F) : F :=
  (#1 - m1 - m2 - #(N - 1) * spacing) / #N.

(** One iteration along an axis, from the high position [prev] of the
    previous pad. *)
Definition axis_step (N : Z) (m1 m2 step spacing : F) (i : nat) (prev : F) : Span F :=
  if Z.eqb (Z.of_nat i) 0 then
    let posl := #0 in
    let posr := m1 + step in
    let factor := posr - posl in
    mkSpan posl posr (m1 / factor) (#0)
  else if Z.eqb (Z.of_nat i) (N - 1) then
    let posl := prev + spacing in
    let posr := posl + step + m2 in
    let factor := posr - posl in
    mkSpan posl posr (#0) (m2 / factor)
  else
    let posl := prev + spacing in
    let posr := posl + step in
    mkSpan posl posr (#0) (#0).

(** The inner loop over [j] for column [i]: creates the pads [(i, j)]
    and threads [vposu]. *)
Fixpoint rows_loop (Ny : Z) (bM tM vStep vSpacing : F) (i : nat) (hs : Span F)
    (j n : nat) (vposu : F) : list (Pad F) * F :=
  match n with
  | O => ([], vposu)
  | S n' =>
      let vs := axis_step Ny bM tM vStep vSpacing j vposu in
      let pad := mkPad i j (lo hs) (lo vs) (hi hs) (hi vs) (mlo hs) (mhi hs) (mlo vs) (mhi vs) in
      let '(pads, v') := rows_loop Ny bM tM vStep vSpacing i hs (S j) n' (hi vs) in
      (pad :: pads, v')
  end.

(** The outer loop over [i], threading [hposr] and [vposu]. *)
Fixpoint cols_loop (Nx Ny : Z) (lM rM bM tM hStep hSpacing vStep vSpacing : F)
    (i n : nat) (hposr vposu : F) : list (Pad F) :=
  match n with
  | O => []
  | S n' =>
      let hs := axis_step Nx lM rM hStep hSpacing i hposr in
      let '(pads, v') := rows_loop Ny bM tM vStep vSpacing i hs 0 (Z.to_nat Ny) vposu in
      pads ++ cols_loop Nx Ny lM rM bM tM hStep hSpacing vStep vSpacing (S i) n' (hi hs) v'
  end.

(** [CanvasPartition(C, Nx, Ny, lMargin, rMargin, bMargin, tMargin)];
    [C] tells whether the canvas pointer is non-null.  The initial values
    of [hposr] and [vposu] are never read (the first iterations set them). *)
Definition CanvasPartition (C : bool) (Nx Ny : Z) (lM rM bM tM : F) : list (Pad F) :=
  if negb C then []
  else
    let vSpacing := dec 3 2 in
    let vStep := axis_pitch Ny bM tM vSpacing in
    let hSpacing := dec 3 2 in
    let hStep := axis_pitch Nx lM rM hSpacing in
    cols_loop Nx Ny lM rM bM tM hStep hSpacing vStep vSpacing 0 (Z.to_nat Nx) (#0) (#0).

(** The spans of the [n] pads along an axis from index [i], each from the
    high position of the previous one. *)
Fixpoint axis_spans (N : Z) (m1 m2 step spacing : F) (i n : nat) (prev : F) : list (Span F) :=
  match n with
  | O => []
  | S n' =>
      let s := axis_step N m1 m2 step spacing i prev in
      s :: axis_spans N m1 m2 step spacing (S i) n' (hi s)
  end.

(** The layout of [gr1()] and [gr2()]: a 2x2 canvas with their margins. *)
Definition macro_layout : list (Pad F) :=
  CanvasPartition true 2 2 (dec 1409 4) (dec 1209 4) (dec 8 2) (dec 5 2).
(** The pads of column [i] over the row spans [vss]. *)
Definition column_pads (i : nat) (hs : Span F) (vss : list (nat * Span F)) : list (Pad F) :=
  map (fun '(j, vs) => mkPad i j (lo hs) (lo vs) (hi hs) (hi vs) (mlo hs) (mhi hs) (mlo vs) (mhi vs)) vss.

(** The first pad of an axis does not read the carried position. *)
Lemma axis_spans_start (N : Z) (m1 m2 step spacing : F) (n : nat) (p q : F) :
  axis_spans N m1 m2 step spacing 0 n p = axis_spans N m1 m2 step spacing 0 n q.
Proof. destruct n; reflexivity. Qed.

Lemma rows_loop_spans (Ny : Z) (bM tM vStep vSpacing : F) (i : nat) (hs : Span F)
    (j n : nat) (v : F) :
  fst (rows_loop Ny bM tM vStep vSpacing i hs j n v)
  = column_pads i hs (combine (seq j n) (axis_spans Ny bM tM vStep vSpacing j n v)).
Proof.
  revert j v; induction n as [|n IH]; intros j v; [reflexivity|]; cbn [rows_loop].
  specialize (IH (S j) (hi (axis_step Ny bM tM vStep vSpacing j v))).
  destruct (rows_loop Ny bM tM vStep vSpacing i hs (S j) n _) as [pads v'].
  simpl in IH |- *; now rewrite IH.
Qed.

Lemma cols_loop_spans (Nx Ny : Z) (lM rM bM tM hStep hSpacing vStep vSpacing : F)
    (i n : nat) (hposr vposu : F) :
  cols_loop Nx Ny lM rM bM tM hStep hSpacing vStep vSpacing i n hposr vposu
  = flat_map (fun '(i', hs) =>
      column_pads i' hs (combine (seq 0 (Z.to_nat Ny))
        (axis_spans Ny bM tM vStep vSpacing 0 (Z.to_nat Ny) (#0))))
      (combine (seq i n) (axis_spans Nx lM rM hStep hSpacing i n hposr)).
Proof.
  revert i hposr vposu; induction n as [|n IH]; intros i hposr vposu; [reflexivity|].
  cbn [cols_loop].
  pose proof (rows_loop_spans Ny bM tM vStep vSpacing i
                (axis_step Nx lM rM hStep hSpacing i hposr) 0 (Z.to_nat Ny) vposu) as Hr.
  destruct (rows_loop _ _ _ _ _ i _ 0 _ vposu) as [pads v']; simpl in Hr; subst pads.
  rewrite IH, (axis_spans_start Ny bM tM vStep vSpacing _ vposu (#0)); reflexivity.
Qed.
End Canvas.

Local Open Scope R_scope.

(** A valid extent of a [TPad] along one axis: [0 <= low < high <= 1],
    and margins (fractions of the pad) that leave a non-empty frame. *)
Definition span_valid (s : Span R) : Prop :=
  0 <= lo s /\ lo s < hi s /\ hi s <= 1 /\ 0 <= mlo s /\ 0 <= mhi s /\ mlo s + mhi s < 1.

(** The arguments of [new TPad(name, "", x1, y1, x2, y2)] and of its four
    [Set...Margin] calls are valid. *)
Definition pad_valid (p : Pad R) : Prop :=
  span_valid (mkSpan (pad_xlow p) (pad_xup p) (pad_lm p) (pad_rm p)) /\
  span_valid (mkSpan (pad_ylow p) (pad_yup p) (pad_bm p) (pad_tm p)).

Section AxisGeometry.
Variables (n : nat) (m1 m2 sp : R).
Let N := Z.of_nat n.
Let step := axis_pitch N m1 m2 sp.

(** The pitch spreads what the margins and the gaps leave over [n] pads. *)
Lemma step_total : (1 <= n)%nat -> INR n * step = 1 - m1 - m2 - (INR n - 1) * sp.
Proof.
  intro Hn; unfold step, axis_pitch, N; dsimpl.
  rewrite minus_IZR, <- INR_IZR_INZ.
  assert (0 < INR n) by (apply lt_0_INR; lia). field; lra.
Qed.

(** The pads after the first, from pad [i] on, are valid. *)
Lemma axis_spans_valid_from (k i : nat) (prev : R) :
  0 < step -> 0 <= m1 -> 0 <= m2 -> 0 <= sp -> (1 <= i)%nat -> (i + k = n)%nat ->
  prev = m1 + INR i * step + (INR i - 1) * sp ->
  Forall span_valid (axis_spans N m1 m2 step sp i k prev).
Proof.
  revert i prev; induction k as [|k IH]; intros i prev Hs H1 H2 Hsp Hi Hik Hp; [constructor|].
  pose proof (step_total ltac:(lia)) as Ht.
  assert (Hn : INR n = INR i + INR k + 1) by (rewrite <- Hik, plus_INR, S_INR; ring).
  assert (Hi1 : 1 <= INR i) by (apply (le_INR 1); lia).
  pose proof (pos_INR k) as Hk0.
  cbn [axis_spans]; unfold axis_step.
  destruct (Z.eqb_spec (Z.of_nat i) 0) as [|_]; [lia|].
  destruct (Z.eqb_spec (Z.of_nat i) (N - 1)) as [Hlast|Hmid]; constructor.
  - assert (k = 0)%nat by (unfold N in Hlast; lia); subst k.
    unfold span_valid; cbn [lo hi mlo mhi]; dsimpl.
    replace (prev + sp + step + m2 - (prev + sp)) with (step + m2) by ring.
    assert (Hm : m2 / (step + m2) < 1)
      by (apply (Rmult_lt_reg_r (step + m2)); [lra|]; unfold Rdiv; rewrite Rmult_assoc, Rinv_l; lra).
    assert (0 <= m2 / (step + m2)) by (apply Rmult_le_pos; [lra | apply Rlt_le, Rinv_0_lt_compat; lra]).
    simpl INR in Hn; nra.
  - destruct k as [|k]; [constructor | unfold N in Hlast; lia].
  - assert (1 <= INR k) by (destruct k; [unfold N in Hmid; lia | rewrite S_INR; pose proof (pos_INR k); lra]).
    unfold span_valid; cbn [lo hi mlo mhi]; dsimpl; nra.
  - destruct k as [|k]; [unfold N in Hmid; lia|].
    apply IH; try assumption; [lia | lia | cbn [hi]; dsimpl; rewrite S_INR, Hp; ring].
Qed.

(** Every pad of an axis is valid when the pitch is positive. *)
Lemma axis_spans_valid :
  (1 <= n)%nat -> 0 < step -> 0 <= m1 -> 0 <= m2 -> 0 <= sp ->
  Forall span_valid (axis_spans N m1 m2 step sp 0 n 0).
Proof.
  intros Hn Hs H1 H2 Hsp; pose proof (step_total Hn) as Ht.
  assert (Hn1 : 1 <= INR n) by (apply (le_INR 1); lia).
  replace n with (S (n - 1)) by lia; cbn [axis_spans]; constructor.
  - unfold axis_step, span_valid; cbn [Z.eqb Z.of_nat]; cbn [lo hi mlo mhi]; dsimpl.
    replace (m1 + step - 0) with (m1 + step) by ring.
    assert (Hm : m1 / (m1 + step) < 1)
      by (apply (Rmult_lt_reg_r (m1 + step)); [lra|]; unfold Rdiv; rewrite Rmult_assoc, Rinv_l; lra).
    assert (0 <= m1 / (m1 + step)) by (apply Rmult_le_pos; [lra | apply Rlt_le, Rinv_0_lt_compat; lra]).
    nra.
  - destruct (n - 1)%nat as [|n''] eqn:En; [constructor|].
    apply axis_spans_valid_from; try assumption; [lia | lia|].
    unfold axis_step; cbn [Z.eqb Z.of_nat hi]; dsimpl; simpl INR; ring.
Qed.

Lemma axis_step_lo (i : nat) (prev : R) :
  (i <> 0)%nat -> lo (axis_step N m1 m2 step sp i prev) = prev + sp.
Proof.
  intro Hi; unfold axis_step.
  destruct (Z.eqb_spec (Z.of_nat i) 0) as [E|_]; [lia|].
  destruct (Z.eqb (Z.of_nat i) (N - 1)); reflexivity.
Qed.

Lemma axis_step_mid_hi (i : nat) (prev : R) :
  (i <> 0)%nat -> (Z.of_nat i <> N - 1)%Z ->
  hi (axis_step N m1 m2 step sp i prev) = prev + sp + step.
Proof.
  intros Hi HN; unfold axis_step.
  destruct (Z.eqb_spec (Z.of_nat i) 0) as [E|_]; [lia|].
  destruct (Z.eqb_spec (Z.of_nat i) (N - 1)); [contradiction | reflexivity].
Qed.

Lemma axis_step_last_hi (i : nat) (prev : R) :
  (i <> 0)%nat -> (Z.of_nat i = N - 1)%Z ->
  hi (axis_step N m1 m2 step sp i prev) = prev + sp + step + m2.
Proof.
  intros Hi HN; unfold axis_step.
  destruct (Z.eqb_spec (Z.of_nat i) 0) as [E|_]; [lia|].
  destruct (Z.eqb_spec (Z.of_nat i) (N - 1)); [reflexivity | contradiction].
Qed.

(** Every pad's frame, its extent minus its two margins, is [step] long. *)
Lemma axis_step_frame (i : nat) (prev : R) :
  0 < step -> 0 <= m1 -> 0 <= m2 ->
  let s := axis_step N m1 m2 step sp i prev in
  (hi s - lo s) * (1 - mlo s - mhi s) = step.
Proof.
  intros Hs H1 H2; unfold axis_step; dsimpl.
  destruct (Z.eqb (Z.of_nat i) 0); [|destruct (Z.eqb (Z.of_nat i) (N - 1))];
    cbn [hi lo mlo mhi]; field; lra.
Qed.

Lemma axis_spans_frames (i k : nat) (prev : R) :
  0 < step -> 0 <= m1 -> 0 <= m2 ->
  Forall (fun s => (hi s - lo s) * (1 - mlo s - mhi s) = step)
    (axis_spans N m1 m2 step sp i k prev).
Proof.
  intros Hs H1 H2; revert i prev; induction k as [|k IH]; intros i prev; constructor.
  - apply axis_step_frame; assumption.
  - apply IH.
Qed.

Lemma axis_spans_gap (i k d : nat) (prev : R) (dflt : Span R) :
  (S d < k)%nat ->
  lo (nth (S d) (axis_spans N m1 m2 step sp i k prev) dflt)
  = hi (nth d (axis_spans N m1 m2 step sp i k prev) dflt) + sp.
Proof.
  revert i d prev; induction k as [|k IH]; intros i d prev Hd; [lia|].
  destruct k as [|k]; [lia|].
  destruct d as [|d].
  - cbn [axis_spans nth]; apply axis_step_lo; lia.
  - cbn [axis_spans]. change (nth (S (S d)) (?a :: ?l) dflt) with (nth (S d) l dflt).
    change (nth (S d) (?a :: ?l) dflt) with (nth d l dflt).
    apply IH; lia.
Qed.

(** The high position of the last pad, from pad [i >= 1] onwards. *)
Lemma axis_spans_last_hi (i k : nat) (prev : R) (dflt : Span R) :
  (1 <= i)%nat -> (1 <= k)%nat -> (i + k = n)%nat ->
  prev = m1 + INR i * step + INR (i - 1) * sp ->
  hi (last (axis_spans N m1 m2 step sp i k prev) dflt)
  = m1 + INR n * step + (INR n - 1) * sp + m2.
Proof.
  revert i prev; induction k as [|k IH]; intros i prev Hi Hk Hn Hp; [lia|].
  destruct k as [|k].
  - cbn [axis_spans last]. rewrite axis_step_last_hi by (unfold N; lia).
    rewrite Hp; subst n; rewrite plus_INR, minus_INR by lia; simpl INR; ring.
  - cbn [axis_spans]. change (last (?a :: ?b :: ?l) dflt) with (last (b :: l) dflt).
    change (axis_step N m1 m2 step sp (S i) ?p :: axis_spans N m1 m2 step sp (S (S i)) k ?q)
      with (axis_spans N m1 m2 step sp (S i) (S k) p).
    apply IH; [lia | lia | lia|].
    rewrite axis_step_mid_hi by (unfold N; lia).
    rewrite Hp, S_INR, minus_INR by lia; replace (S i - 1)%nat with i by lia; simpl INR; ring.
Qed.
End AxisGeometry.

Lemma IZR_of_nat_pred (n : nat) : (1 <= n)%nat -> IZR (Z.of_nat n - 1) = INR n - 1.
Proof. intro Hn; rewrite minus_IZR, <- INR_IZR_INZ; reflexivity. Qed.

(** C30. Along each axis with at least two pads, [CanvasPartition]'s
    iteration tiles the unit interval: the first pad starts at [0], the
    last ends at [1], consecutive pads are [spacing] apart, and every
    frame (pad minus its margins) has the same length [step]. *)
Theorem axis_tiling (n : nat) (m1 m2 sp : R) (dflt : Span R) :
  (2 <= n)%nat -> 0 < axis_pitch (Z.of_nat n) m1 m2 sp -> 0 <= m1 -> 0 <= m2 ->
  let step := axis_pitch (Z.of_nat n) m1 m2 sp in
  let ss := axis_spans (Z.of_nat n) m1 m2 step sp 0 n 0 in
  lo (hd dflt ss) = 0 /\ hi (last ss dflt) = 1 /\
  (forall d, (S d < n)%nat -> lo (nth (S d) ss dflt) = hi (nth d ss dflt) + sp) /\
  Forall (fun s => (hi s - lo s) * (1 - mlo s - mhi s) = step) ss.
Proof.
  intros Hn Hs H1 H2 step ss.
  split; [|split; [|split]].
  - destruct n as [|n]; [lia|]; reflexivity.
  - destruct n as [|[|n]]; [lia | lia|].
    unfold ss; cbn [axis_spans]. change (last (?a :: ?b :: ?l) dflt) with (last (b :: l) dflt).
    change (axis_step ?N m1 m2 step sp 1 ?p :: axis_spans ?N m1 m2 step sp 2 n ?q)
      with (axis_spans (Z.of_nat (S (S n))) m1 m2 step sp 1 (S n) p).
    rewrite (axis_spans_last_hi (S (S n)) m1 m2 sp 1 (S n)); [|lia | lia | lia|].
    + unfold step, axis_pitch; dsimpl. rewrite IZR_of_nat_pred by lia; rewrite <- INR_IZR_INZ.
      field. pose proof (pos_INR n); rewrite !S_INR; lra.
    + transitivity (m1 + step); [reflexivity | unfold step; simpl INR; ring].
  - intros d Hd; apply axis_spans_gap; exact Hd.
  - apply axis_spans_frames; assumption.
Qed.

Lemma axis_tiling_witness :
  ((2 <= 2)%nat /\ 0 < axis_pitch (Z.of_nat 2) (1409 / 10000) (1209 / 10000) (3 / 100) /\
   0 <= 1409 / 10000 /\ 0 <= 1209 / 10000) /\
  let step := axis_pitch (Z.of_nat 2) (1409 / 10000) (1209 / 10000) (3 / 100) in
  let ss := axis_spans (Z.of_nat 2) (1409 / 10000) (1209 / 10000) step (3 / 100) 0 2 0 in
  lo (hd (mkSpan 0 0 0 0) ss) = 0 /\ hi (last ss (mkSpan 0 0 0 0)) = 1 /\
  (forall d, (S d < 2)%nat -> lo (nth (S d) ss (mkSpan 0 0 0 0)) = hi (nth d ss (mkSpan 0 0 0 0)) + 3 / 100) /\
  Forall (fun s => (hi s - lo s) * (1 - mlo s - mhi s) = step) ss.
Proof.
  assert (Hp : 0 < axis_pitch (Z.of_nat 2) (1409 / 10000) (1209 / 10000) (3 / 100))
    by (unfold axis_pitch; dsimpl; simpl; lra).
  split; [split; [lia | split; [exact Hp | split; lra]]|].
  apply axis_tiling; [lia | exact Hp | lra | lra].
Defined.

(** C31. With a single pad along an axis ([N = 1]), the branch [i == 0]
    is taken before [i == N - 1]: the pad ends at [1 - m2] and carries no
    high margin, so the high margin is left outside the pad. *)
Theorem axis_single_pad (m1 m2 sp prev : R) :
  let s := axis_step 1 m1 m2 (axis_pitch 1 m1 m2 sp) sp 0 prev in
  lo s = 0 /\ hi s = 1 - m2 /\ mhi s = 0.
Proof. unfold axis_step, axis_pitch; dsimpl; simpl; repeat split; field. Qed.

(** The nested loops of [CanvasPartition], with [hposr] and [vposu]
    carried across iterations, create exactly the product of the columns
    and the rows, column by column: pad [(i, j)] has the [i]-th horizontal
    span and the [j]-th vertical span. *)
Theorem CanvasPartition_product {F : Type} `{Double F} (Nx Ny : nat) (lM rM bM tM : F) :
  let hStep := axis_pitch (Z.of_nat Nx) lM rM (dec 3 2) in
  let vStep := axis_pitch (Z.of_nat Ny) bM tM (dec 3 2) in
  CanvasPartition true (Z.of_nat Nx) (Z.of_nat Ny) lM rM bM tM
  = flat_map (fun '(i, hs) =>
      column_pads i hs (combine (seq 0 Ny)
        (axis_spans (Z.of_nat Ny) bM tM vStep (dec 3 2) 0 Ny (d_of_Z 0))))
      (combine (seq 0 Nx) (axis_spans (Z.of_nat Nx) lM rM hStep (dec 3 2) 0 Nx (d_of_Z 0))).
Proof.
  intros hStep vStep; unfold CanvasPartition; cbn [negb].
  rewrite cols_loop_spans, !Nat2Z.id; reflexivity.
Qed.

(** C29. Well-formed pads: when the margins are non-negative and leave a
    positive pitch along both axes, every pad [CanvasPartition] creates
    gets valid [TPad] coordinates [0 <= x1 < x2 <= 1], [0 <= y1 < y2 <= 1]
    and margins that leave a non-empty frame.  The code does not check the
    pitch: margins that leave none give pads with [x2 <= x1]. *)
Theorem CanvasPartition_valid (Nx Ny : nat) (lM rM bM tM : R) :
  (1 <= Nx)%nat -> (1 <= Ny)%nat -> 0 <= lM -> 0 <= rM -> 0 <= bM -> 0 <= tM ->
  0 < axis_pitch (Z.of_nat Nx) lM rM (dec 3 2) -> 0 < axis_pitch (Z.of_nat Ny) bM tM (dec 3 2) ->
  Forall pad_valid (CanvasPartition true (Z.of_nat Nx) (Z.of_nat Ny) lM rM bM tM).
Proof.
  intros HNx HNy HlM HrM HbM HtM Hx Hy.
  assert (Hsp : 0 <= dec 3 2) by (dsimpl; lra).
  pose proof (axis_spans_valid Nx lM rM (dec 3 2) HNx Hx HlM HrM Hsp) as Vx.
  pose proof (axis_spans_valid Ny bM tM (dec 3 2) HNy Hy HbM HtM Hsp) as Vy.
  rewrite Forall_forall in Vx, Vy.
  unfold CanvasPartition; cbn [negb]; cbv zeta; rewrite cols_loop_spans, !Nat2Z.id.
  apply Forall_forall; intros p Hp.
  apply in_flat_map in Hp as ([i hs] & Hin & Hp).
  unfold column_pads in Hp; apply in_map_iff in Hp as ([j vs] & <- & Hin').
  apply in_combine_r in Hin, Hin'.
  split; [destruct hs; apply (Vx _ Hin) | destruct vs; apply (Vy _ Hin')].
Qed.

(** The layout of the macros: two by two pads with their margins. *)
Lemma CanvasPartition_valid_witness :
  ((1 <= 2)%nat /\ (1 <= 2)%nat /\ 0 <= 1409 / 10000 /\ 0 <= 1209 / 10000 /\
   0 <= 8 / 100 /\ 0 <= 5 / 100 /\
   0 < axis_pitch (Z.of_nat 2) (1409 / 10000) (1209 / 10000) (dec 3 2) /\
   0 < axis_pitch (Z.of_nat 2) (8 / 100) (5 / 100) (dec 3 2)) /\
  Forall pad_valid (CanvasPartition true (Z.of_nat 2) (Z.of_nat 2)
                      (1409 / 10000) (1209 / 10000) (8 / 100) (5 / 100)).
Proof.
  assert (Hx : 0 < axis_pitch (Z.of_nat 2) (1409 / 10000) (1209 / 10000) (dec 3 2))
    by (unfold axis_pitch; dsimpl; simpl; lra).
  assert (Hy : 0 < axis_pitch (Z.of_nat 2) (8 / 100) (5 / 100) (dec 3 2))
    by (unfold axis_pitch; dsimpl; simpl; lra).
  split; [repeat split; lia || lra || assumption|].
  apply CanvasPartition_valid; lia || lra || assumption.
Defined.

