(* ===== verification/Registry.v ===== *)
(** * ROOT's object registry and the pads found by name

    [CanvasPartition] names every pad it creates [pad_i_j]
    ([sprintf(name, "pad_%i_%i", i, j)], [gr1.cpp:363-364]), looks the name
    up in ROOT's list of objects, deletes an object found under it and
    creates the new [TPad], which enters the list ([gr1.cpp:365-367]).  The
    macros then fetch every pad back by the same name into [pad[i][j]] and
    call [pad[i][j]->Draw()] ([gr1.cpp:90-105], [gr2.cpp:66-81]).

    The list of objects is an association list in insertion order:
    [gROOT->FindObject] returns the first object of the name, [delete]
    removes that object, [new TPad] appends.  [register] is the sequence of
    [CanvasPartition] for one pad; [CanvasPartition_reg] runs it over the
    pads in creation order (the registry does not influence the
    positions, so it can follow the geometry of [Canvas]); [lookup_pads] is
    the lookup loop of the macros, which fails ([None], a null pointer
    dereferenced by [Draw]) when a name is missing.

    Theorems: the names are injective and fit the 16-byte buffer for
    indices below [10^5]; a registry without two objects of one name keeps
    that property; after [CanvasPartition] every [pad[i][j]] of the grid is
    found and is the pad just created at [(i, j)], whatever the registry
    held (a previous run included); rerunning the partition does not grow
    the registry. *)

From Stdlib Require Import ZArith List Lia Ascii Reals.
From stdpp Require Import base strings pretty list.
From S2P Require Import Prelude RealModel Canvas.
Import ListNotations.
Local Open Scope nat_scope.

(** ** Pad names *)

(** [sprintf(name, "pad_%i_%i", i, j)] for the non-negative loop indices. *)
Definition pad_name (i j : Z) : string :=
  "pad_" +:+ pretty i +:+ "_" +:+ pretty j.

(** Whether a string contains the separator ['_']. *)
Fixpoint has_us (s : string) : bool :=
  match s with
  | EmptyString => false
  | String c s' => Ascii.eqb c "_"%char || has_us s'
  end.

Lemma has_us_pretty_N_go (x : N) (s : string) : has_us (pretty_N_go x s) = has_us s.
Proof.
  revert s; induction (N.lt_wf_0 x) as [x _ IH]; intros s.
  destruct (decide (x = 0)%N) as [->|Hx]; [by rewrite pretty_N_go_0|].
  rewrite pretty_N_go_step, IH by (try apply N.div_lt; lia); simpl.
  by unfold pretty_N_char; repeat case_match.
Qed.

Lemma has_us_pretty_N (x : N) : has_us (pretty x) = false.
Proof. unfold pretty, pretty_N; case_decide; [done|]. by rewrite has_us_pretty_N_go. Qed.

Lemma has_us_pretty_Z (z : Z) : has_us (pretty z) = false.
Proof. destruct z as [|p|p]; [done | apply has_us_pretty_N | apply (has_us_pretty_N (Npos p))]. Qed.

(** A separator-free prefix is recovered from [prefix ++ "_" ++ rest]. *)
Lemma us_split (a b c d : string) :
  has_us a = false -> has_us c = false ->
  a +:+ String "_" b = c +:+ String "_" d -> a = c /\ b = d.
Proof.
  revert c; induction a as [|x a IH]; intros [|y c] Ha Hc E; simpl in *.
  - by injection E.
  - injection E as <- _; discriminate Hc.
  - injection E as -> _; discriminate Ha.
  - apply orb_false_iff in Ha as [_ Ha], Hc as [_ Hc].
    injection E as <- E; destruct (IH c Ha Hc E) as [-> ->]; done.
Qed.

(** Two pads get the same name only if they have the same indices. *)
Lemma pad_name_inj (i j i' j' : Z) : pad_name i j = pad_name i' j' -> i = i' /\ j = j'.
Proof.
  unfold pad_name; simpl; intro E; injection E as E.
  apply us_split in E as [Ei Ej]; [|apply has_us_pretty_Z..].
  split; by apply (inj pretty).
Qed.

Lemma string_length_app (a b : string) :
  String.length (a +:+ b) = String.length a + String.length b.
Proof. induction a as [|c a IH]; simpl; [done|]. by rewrite IH. Qed.

(** [k] decimal digits print a number below [10^k]. *)
Lemma length_pretty_N_go (k : nat) (x : N) (s : string) :
  (x < 10 ^ N.of_nat k)%N -> String.length (pretty_N_go x s) <= k + String.length s.
Proof.
  revert x s; induction k as [|k IH]; intros x s Hx.
  - assert (x = 0)%N as -> by (simpl in Hx; lia). rewrite pretty_N_go_0; lia.
  - destruct (decide (x = 0)%N) as [->|Hx0]; [rewrite pretty_N_go_0; lia|].
    rewrite pretty_N_go_step by lia.
    etrans; [apply IH|simpl; lia].
    apply N.Div0.div_lt_upper_bound. rewrite Nat2N.inj_succ, N.pow_succ_r' in Hx; lia.
Qed.

Lemma length_pretty_Z (k : nat) (z : Z) :
  1 <= k -> (0 <= z < 10 ^ Z.of_nat k)%Z -> String.length (pretty z) <= k.
Proof.
  intros Hk Hz; destruct z as [|p|p]; [simpl; lia| |lia].
  change (String.length (pretty (Npos p)) <= k).
  unfold pretty, pretty_N; case_decide; [done|].
  etrans; [apply (length_pretty_N_go k)|simpl; lia].
  apply N2Z.inj_lt; rewrite N2Z.inj_pow, nat_N_Z; exact (proj2 Hz).
Qed.

Section Registry.
Context {F : Type}.

Definition Registry := list (string * Pad F).

Definition pad_key (p : Pad F) : string := pad_name (Z.of_nat (pad_i p)) (Z.of_nat (pad_j p)).

(** [gROOT->FindObject(name)]: the first object of that name. *)
Fixpoint find_object (reg : Registry) (name : string) : option (Pad F) :=
  match reg with
  | [] => None
  | (n, p) :: r => if String.eqb n name then Some p else find_object r name
  end.

(** [delete pad]: the object [FindObject] returned leaves the list. *)
Fixpoint delete_object (reg : Registry) (name : string) : Registry :=
  match reg with
  | [] => []
  | (n, p) :: r => if String.eqb n name then r else (n, p) :: delete_object r name
  end.

(** [pad = gROOT->FindObject(name)] (cast to a [TPad] pointer);
    [if (pad) delete pad; pad = new TPad(name, ...);] *)
Definition register (reg : Registry) (p : Pad F) : Registry :=
  let name := pad_key p in
  let reg1 := match find_object reg name with
              | Some _ => delete_object reg name
              | None => reg
              end in
  reg1 ++ [(name, p)].

(** The registry after [CanvasPartition] created the pads [pads]. *)
Definition CanvasPartition_reg (pads : list (Pad F)) (reg : Registry) : Registry :=
  fold_left register pads reg.

(** The lookup loop of the macros: [pad[i][j] = FindObject("pad_i_j");
    pad[i][j]->Draw();] for [i < Nx], [j < Ny]; a missing pad is a null
    pointer, and the loop fails there. *)
Definition lookup_pads (reg : Registry) (Nx Ny : nat) : option (list (list (Pad F))) :=
  mapM (fun i => mapM (fun j => find_object reg (pad_name (Z.of_nat i) (Z.of_nat j))) (seq 0 Ny)) (seq 0 Nx).

(** The pad of [pads] registered last under [name]. *)
Definition latest (pads : list (Pad F)) (name : string) : option (Pad F) :=
  fold_left (fun acc p => if String.eqb (pad_key p) name then Some p else acc) pads None.

Definition names_unique (reg : Registry) : Prop := List.NoDup (map fst reg).

(** ** [FindObject], [delete] and [register] *)

Lemma find_object_app (l1 l2 : Registry) (m : string) :
  find_object (l1 ++ l2) m
  = match find_object l1 m with Some p => Some p | None => find_object l2 m end.
Proof. induction l1 as [|[n p] l1 IH]; simpl; [done|]. by destruct (String.eqb n m). Qed.

Lemma find_object_None (l : Registry) (m : string) :
  find_object l m = None <-> ~ In m (map fst l).
Proof.
  induction l as [|[n p] l IH]; simpl; [tauto|].
  destruct (String.eqb_spec n m) as [->|Hne]; [split; [discriminate | tauto]|].
  rewrite IH; intuition.
Qed.

Lemma delete_object_sub (l : Registry) (n m : string) :
  In m (map fst (delete_object l n)) -> In m (map fst l).
Proof.
  induction l as [|[k p] l IH]; simpl; [done|].
  destruct (String.eqb k n); simpl; intuition.
Qed.

Lemma delete_object_keep (l : Registry) (n m : string) :
  In m (map fst l) -> m <> n -> In m (map fst (delete_object l n)).
Proof.
  induction l as [|[k p] l IH]; simpl; [done|]; intros [<-|Hin] Hne;
    destruct (String.eqb_spec k n) as [->|]; simpl; auto; contradiction.
Qed.

(** In a registry without duplicate names, [delete] removes the name. *)
Lemma delete_object_unique (l : Registry) (n : string) :
  names_unique l ->
  names_unique (delete_object l n) /\ ~ In n (map fst (delete_object l n)).
Proof.
  unfold names_unique; induction l as [|[k p] l IH]; simpl; intro Hu; [split; [apply List.NoDup_nil | tauto]|].
  apply NoDup_cons_iff in Hu as [Hk Hu].
  destruct (String.eqb_spec k n) as [<-|Hne]; [done|].
  destruct (IH Hu) as [Hu' Hn]; simpl; split.
  - constructor; [|done]. intro Hin; apply Hk, (delete_object_sub l n k Hin).
  - intros [E|Hin]; [exact (Hne E) | exact (Hn Hin)].
Qed.

Lemma find_delete_object (l : Registry) (n m : string) :
  names_unique l ->
  find_object (delete_object l n) m = if String.eqb n m then None else find_object l m.
Proof.
  unfold names_unique; induction l as [|[k p] l IH]; simpl; intro Hu;
    [by destruct (String.eqb n m)|].
  apply NoDup_cons_iff in Hu as [Hk Hu].
  destruct (String.eqb_spec k n) as [Ekn|Hne].
  - subst n; destruct (String.eqb_spec k m) as [Ekm|Hkm]; [|done].
    subst m; by apply find_object_None.
  - simpl; rewrite IH by done.
    destruct (String.eqb_spec n m) as [Enm|Hnm]; [subst m|done].
    destruct (String.eqb_spec k n); [contradiction|done].
Qed.

(** What [FindObject] returns after [register p]. *)
Lemma register_find (reg : Registry) (p : Pad F) (m : string) :
  names_unique reg ->
  find_object (register reg p) m
  = if String.eqb (pad_key p) m then Some p else find_object reg m.
Proof.
  intro Hu; unfold register; rewrite find_object_app; cbn [find_object].
  destruct (find_object reg (pad_key p)) as [q|] eqn:Ef.
  - rewrite find_delete_object by done.
    destruct (String.eqb (pad_key p) m); [done|]. by destruct (find_object reg m).
  - destruct (String.eqb_spec (pad_key p) m) as [<-|]; [by rewrite Ef|].
    by destruct (find_object reg m).
Qed.

Lemma register_unique (reg : Registry) (p : Pad F) :
  names_unique reg -> names_unique (register reg p).
Proof.
  intro Hu; unfold register, names_unique; rewrite map_app; simpl.
  apply List.NoDup_app; [destruct (find_object reg _); [apply delete_object_unique|]; done
                        | repeat constructor; simpl; tauto|].
  intros m Hm [<-|[]].
  destruct (find_object reg (pad_key p)) eqn:Ef.
  - exact (proj2 (delete_object_unique reg (pad_key p) Hu) Hm).
  - exact (proj1 (find_object_None reg _) Ef Hm).
Qed.

Lemma CanvasPartition_reg_unique (pads : list (Pad F)) (reg : Registry) :
  names_unique reg -> names_unique (CanvasPartition_reg pads reg).
Proof.
  unfold CanvasPartition_reg; revert reg; induction pads as [|p pads IH]; intros reg Hu;
    [done|]. apply IH, register_unique, Hu.
Qed.

(** ** The pad registered last under a name *)

Lemma latest_acc (pads : list (Pad F)) (m : string) (acc : option (Pad F)) :
  fold_left (fun acc p => if String.eqb (pad_key p) m then Some p else acc) pads acc
  = match latest pads m with Some q => Some q | None => acc end.
Proof.
  unfold latest; revert acc; induction pads as [|p pads IH]; intro acc; [done|].
  cbn [fold_left]; rewrite (IH (if String.eqb (pad_key p) m then Some p else acc)),
    (IH (if String.eqb (pad_key p) m then Some p else None)).
  destruct (fold_left _ pads None); [done|]. by destruct (String.eqb (pad_key p) m).
Qed.

Lemma latest_cons (p : Pad F) (pads : list (Pad F)) (m : string) :
  latest (p :: pads) m
  = match latest pads m with
    | Some q => Some q
    | None => if String.eqb (pad_key p) m then Some p else None
    end.
Proof. unfold latest at 1; simpl; apply latest_acc. Qed.

Lemma latest_Some (pads : list (Pad F)) (m : string) (q : Pad F) :
  latest pads m = Some q -> In q pads /\ pad_key q = m.
Proof.
  induction pads as [|p pads IH]; [done|]; rewrite latest_cons.
  destruct (latest pads m) as [q'|]; intro E.
  - injection E as <-; destruct (IH eq_refl); simpl; auto.
  - destruct (String.eqb_spec (pad_key p) m) as [<-|]; [|done].
    injection E as <-; simpl; auto.
Qed.

Lemma latest_In (pads : list (Pad F)) (p : Pad F) :
  In p pads -> is_Some (latest pads (pad_key p)).
Proof.
  induction pads as [|p' pads IH]; [done|]; rewrite latest_cons; intros [<-|Hin].
  - destruct (latest pads _); [done|]. by rewrite String.eqb_refl.
  - destruct (IH Hin) as [q ->]; done.
Qed.

(** [FindObject] after the pads [pads] were registered in order. *)
Lemma CanvasPartition_reg_find (pads : list (Pad F)) (reg : Registry) (m : string) :
  names_unique reg ->
  find_object (CanvasPartition_reg pads reg) m
  = match latest pads m with Some q => Some q | None => find_object reg m end.
Proof.
  unfold CanvasPartition_reg; revert reg; induction pads as [|p pads IH]; intros reg Hu;
    [done|]; simpl.
  rewrite IH, register_find, latest_cons by (try apply register_unique; done).
  destruct (latest pads m); [done|]. by destruct (String.eqb (pad_key p) m).
Qed.
End Registry.

Arguments Registry : clear implicits.

(** ** The grid of pads *)

Section Grid.
Context {F : Type} `{Double F}.

Lemma axis_spans_length (N : Z) (m1 m2 step sp : F) (i n : nat) (prev : F) :
  length (axis_spans N m1 m2 step sp i n prev) = n.
Proof. revert i prev; induction n as [|n IH]; intros i prev; simpl; [done|]. by rewrite IH. Qed.

Lemma In_combine_seq {A : Type} (l : list A) (n i : nat) (d : A) :
  length l = n -> (i < n)%nat -> In (i, nth i l d) (combine (seq 0 n) l).
Proof.
  intros Hl Hi; replace (i, nth i l d) with (nth i (combine (seq 0 n) l) (0%nat, d)).
  - apply nth_In; rewrite length_combine, length_seq; lia.
  - rewrite combine_nth by (rewrite length_seq; lia). by rewrite seq_nth by lia.
Qed.

(** [CanvasPartition] creates a pad at every [(i, j)] of the grid. *)
Lemma CanvasPartition_grid (Nx Ny : nat) (lM rM bM tM : F) (i j : nat) :
  (i < Nx)%nat -> (j < Ny)%nat ->
  exists p, In p (CanvasPartition true (Z.of_nat Nx) (Z.of_nat Ny) lM rM bM tM) /\
            pad_i p = i /\ pad_j p = j.
Proof.
  intros Hi Hj; unfold CanvasPartition; cbn [negb]; cbv zeta.
  rewrite cols_loop_spans, !Nat2Z.id.
  set (dflt := mkSpan (d_of_Z 0) (d_of_Z 0) (d_of_Z 0) (d_of_Z 0)).
  set (hss := axis_spans (Z.of_nat Nx) _ _ _ _ 0 Nx _).
  set (vss := axis_spans (Z.of_nat Ny) _ _ _ _ 0 Ny _).
  set (hs := nth i hss dflt); set (vs := nth j vss dflt).
  exists (mkPad i j (lo hs) (lo vs) (hi hs) (hi vs) (mlo hs) (mhi hs) (mlo vs) (mhi vs)).
  split; [|done].
  apply in_flat_map; exists (i, hs); split; [apply In_combine_seq; [apply axis_spans_length|done]|].
  apply in_map_iff; exists (j, vs); split; [reflexivity|].
  apply In_combine_seq; [apply axis_spans_length|done].
Qed.

(** After the partition, the name of [(i, j)] leads to the pad created at
    [(i, j)]. *)
Lemma partition_find (Nx Ny : nat) (lM rM bM tM : F) (reg : Registry F) (i j : nat) :
  names_unique reg -> (i < Nx)%nat -> (j < Ny)%nat ->
  let pads := CanvasPartition true (Z.of_nat Nx) (Z.of_nat Ny) lM rM bM tM in
  exists p, find_object (CanvasPartition_reg pads reg) (pad_name (Z.of_nat i) (Z.of_nat j)) = Some p /\
            In p pads /\ pad_i p = i /\ pad_j p = j.
Proof.
  intros Hu Hi Hj pads.
  destruct (CanvasPartition_grid Nx Ny lM rM bM tM i j Hi Hj) as (p0 & Hin & <- & <-).
  rewrite CanvasPartition_reg_find by done.
  destruct (latest_In pads p0 Hin) as [q Hq]; unfold pad_key in Hq; rewrite Hq.
  destruct (latest_Some pads _ q Hq) as [Hqin Hk]; unfold pad_key in Hk.
  apply pad_name_inj in Hk as [Ei Ej].
  exists q; split_and!; [done | done | lia | lia].
Qed.
(** After the partition, the lookup loop finds a pad at every [(i, j)]. *)
Lemma lookup_pads_partition (Nx Ny : nat) (lM rM bM tM : F) (reg : Registry F) :
  names_unique reg ->
  is_Some (lookup_pads (CanvasPartition_reg (CanvasPartition true (Z.of_nat Nx) (Z.of_nat Ny)
                                               lM rM bM tM) reg) Nx Ny).
Proof.
  intro Hu.
  apply mapM_is_Some_2, Forall_forall; intros i Hi%list_elem_of_In%in_seq.
  apply mapM_is_Some_2, Forall_forall; intros j Hj%list_elem_of_In%in_seq.
  destruct (partition_find Nx Ny lM rM bM tM reg i j Hu ltac:(lia) ltac:(lia)) as (p & Hp & _).
  unfold compose; exists p; exact Hp.
Qed.
End Grid.

Section Rerun.
Context {F : Type}.

Lemma delete_object_length (l : Registry F) (n : string) (q : Pad F) :
  find_object l n = Some q -> S (length (delete_object l n)) = length l.
Proof.
  induction l as [|[k p] l IH]; simpl; [done|].
  destruct (String.eqb k n); [done|]. intro E; simpl; by rewrite IH.
Qed.

(** Registering a pad whose name is already present keeps the size. *)
Lemma register_length (reg : Registry F) (p : Pad F) :
  is_Some (find_object reg (pad_key p)) -> length (register reg p) = length reg.
Proof.
  intros [q Hq]; unfold register; rewrite Hq, length_app; simpl.
  rewrite <- (delete_object_length reg _ q Hq); lia.
Qed.

Lemma register_keeps (reg : Registry F) (p : Pad F) (m : string) :
  names_unique reg -> is_Some (find_object reg m) -> is_Some (find_object (register reg p) m).
Proof. intros Hu Hm; rewrite register_find by done. by destruct (String.eqb (pad_key p) m). Qed.

Lemma CanvasPartition_reg_length (pads : list (Pad F)) (reg : Registry F) :
  names_unique reg -> (forall p, In p pads -> is_Some (find_object reg (pad_key p))) ->
  length (CanvasPartition_reg pads reg) = length reg.
Proof.
  unfold CanvasPartition_reg; revert reg; induction pads as [|p pads IH]; intros reg Hu Hall;
    [done|]; simpl.
  rewrite IH, register_length by (try apply register_unique; try intros q Hq;
    try apply register_keeps; auto with datatypes).
  done.
Qed.
End Rerun.


(** ** The registry's theorems *)

(** C13. After [CanvasPartition], the lookup loop of the macros never
    meets a null pointer, and [pad[i][j]] is the pad just created at
    [(i, j)]: for every registry without two objects of one name (for
    instance the one a previous run of the macro left), [FindObject]
    returns the new pad and not a stale one. *)
Theorem pads_found_after_partition {F : Type} `{Double F} (Nx Ny : nat) (lM rM bM tM : F)
    (reg : Registry F) :
  names_unique reg ->
  let pads := CanvasPartition true (Z.of_nat Nx) (Z.of_nat Ny) lM rM bM tM in
  let reg' := CanvasPartition_reg pads reg in
  is_Some (lookup_pads reg' Nx Ny) /\
  forall i j, i < Nx -> j < Ny ->
    exists p, find_object reg' (pad_name (Z.of_nat i) (Z.of_nat j)) = Some p /\
              In p pads /\ pad_i p = i /\ pad_j p = j.
Proof.
  intros Hu pads reg'; split; [apply lookup_pads_partition, Hu|].
  intros i j; apply partition_find; done.
Qed.

(** C27. Running the partition a second time, as rerunning the macro
    does, replaces the pads instead of stacking them: the registry keeps
    its size and every name finds what it found after the first run. *)
Theorem partition_rerun {F : Type} (pads : list (Pad F)) (reg : Registry F) :
  names_unique reg ->
  let reg1 := CanvasPartition_reg pads reg in
  length (CanvasPartition_reg pads reg1) = length reg1 /\
  forall m, find_object (CanvasPartition_reg pads reg1) m = find_object reg1 m.
Proof.
  intros Hu reg1; pose proof (CanvasPartition_reg_unique pads reg Hu) as Hu1.
  split.
  - apply CanvasPartition_reg_length; [done|]; intros p Hp.
    unfold reg1; rewrite CanvasPartition_reg_find by done.
    destruct (latest_In pads p Hp) as [q ->]; done.
  - intro m; unfold reg1; rewrite !CanvasPartition_reg_find by done.
    by destruct (latest pads m).
Qed.

(** [register] keeps the registry free of two objects of one name,
    and its names are the old ones and the new pad's. *)
Theorem register_names {F : Type} (reg : Registry F) (p : Pad F) :
  names_unique reg ->
  names_unique (register reg p) /\
  forall m, In m (map fst (register reg p)) <-> m = pad_key p \/ In m (map fst reg).
Proof.
  intro Hu; split; [by apply register_unique|]; intro m.
  unfold register; rewrite map_app, in_app_iff; simpl.
  destruct (find_object reg (pad_key p)) eqn:Ef.
  - split; [intros [Hm%delete_object_sub|[<-|[]]]; auto|].
    intros [->|Hm]; [auto|].
    destruct (String.eqb_spec m (pad_key p)) as [->|Hne]; [auto|left].
    by apply delete_object_keep.
  - intuition congruence.
Qed.

(** C32. [char name[16]] holds the name and its terminating zero for
    every pair of indices below [10^5]; [sprintf] does not check the
    bound, and for the largest [Int_t] indices the name has 25 characters,
    past the end of the buffer. *)
Theorem pad_name_buffer :
  (forall i j : Z, (0 <= i < 100000)%Z -> (0 <= j < 100000)%Z ->
     String.length (pad_name i j) < 16) /\
  String.length (pad_name (2 ^ 31 - 1) (2 ^ 31 - 1)) = 25.
Proof.
  split; [|vm_compute; reflexivity].
  intros i j Hi Hj; unfold pad_name; rewrite !string_length_app.
  pose proof (length_pretty_Z 5 i ltac:(lia) ltac:(simpl; lia)).
  pose proof (length_pretty_Z 5 j ltac:(lia) ltac:(simpl; lia)).
  simpl; lia.
Qed.

(** ** Witnesses on the layout of the macros *)

Lemma pads_found_after_partition_witness :
  names_unique (F := R) [] /\
  (let pads := CanvasPartition true (Z.of_nat 2) (Z.of_nat 2)
                 (dec 1409 4) (dec 1209 4) (dec 8 2) (dec 5 2) in
   let reg' := CanvasPartition_reg pads [] in
   is_Some (lookup_pads reg' 2 2) /\
   forall i j, i < 2 -> j < 2 ->
     exists p, find_object reg' (pad_name (Z.of_nat i) (Z.of_nat j)) = Some p /\
               In p pads /\ pad_i p = i /\ pad_j p = j).
Proof.
  assert (Hu : names_unique (F := R) []) by apply List.NoDup_nil.
  split; [exact Hu | apply pads_found_after_partition, Hu].
Defined.

Lemma partition_rerun_witness :
  names_unique (F := R) [] /\
  (let reg1 := CanvasPartition_reg macro_layout [] in
   length (CanvasPartition_reg macro_layout reg1) = length reg1 /\
   forall m, find_object (CanvasPartition_reg macro_layout reg1) m = find_object reg1 m).
Proof.
  assert (Hu : names_unique (F := R) []) by apply List.NoDup_nil.
  split; [exact Hu | apply partition_rerun, Hu].
Defined.

Lemma pad_name_buffer_witness :
  ((0 <= 1 < 100000)%Z /\ (0 <= 1 < 100000)%Z) /\ String.length (pad_name 1 1) < 16.
Proof. split; [lia | apply (proj1 pad_name_buffer); lia]. Defined.

