(* ===== verification/CanvasCpp.v ===== *)
(** * [CanvasPartition] as the C++ runs it: its variables, its loops, its pads

    [Canvas] models the geometry of [CanvasPartition] by functions on spans,
    and [Registry] the effect of the pads on ROOT's list of objects.  This
    file translates the function once more, statement by statement, as
    [gr2.cpp:262-338] writes it (the same code as [gr1.cpp:304-380]): the
    ten [Float_t] variables [hposl, hposr, hmarl, hmarr, hfactor] and
    [vposd, vposu, vmard, vmaru, vfactor], declared without a value
    ([gr2.cpp:272-273]), are the record [CPVars]; [col_branch] and
    [row_branch] are the [if (i==0) ... else if (i == Nx-1) ... else]
    blocks ([gr2.cpp:277-295], [299-317]); [create_pad] is the [sprintf],
    [FindObject], [delete], [new TPad] and margin calls ([gr2.cpp:321-329]);
    the two loops are [Loops.for_loop]s with their [Int_t] counters.
    [CanvasPartition_cpp] returns the registry after the call, [None] when a
    loop runs out of fuel.

    Theorem: for [Int_t] values [Nx], [Ny] and fuel above both, whatever
    the uninitialised variables held, [CanvasPartition_cpp] stops and leaves
    the registry [CanvasPartition_reg] computes from the pads of
    [Canvas.CanvasPartition], in creation order; with a null canvas it
    returns at once. *)

From Stdlib Require Import ZArith Lia List Floats.
From stdpp Require Import base list.
From S2P Require Import Prelude Loops FloatModel Canvas Registry.
Import ListNotations.

Section CanvasCpp.
Context {F : Type} `{Double F}.
Local Open Scope dbl_scope.

(** [Float_t vposd,vposu,vmard,vmaru,vfactor; Float_t hposl,hposr,hmarl,hmarr,hfactor;] *)
Record CPVars := mkCPVars {
  hposl : F; hposr : F; hmarl : F; hmarr : F; hfactor : F;
  vposd : F; vposu : F; vmard : F; vmaru : F; vfactor : F
}.

(** [if (i==0) {...} else if (i == Nx-1) {...} else {...}] on the column
    variables. *)
Definition col_branch (Nx : Z) (lMargin rMargin hStep hSpacing : F) (i : Z) (v : CPVars)
    : CPVars :=
  if Z.eqb i 0 then
    let hposl := #0 in
    let hposr := lMargin + hStep in
    let hfactor := hposr - hposl in
    let hmarl := lMargin / hfactor in
    let hmarr := #0 in
    mkCPVars hposl hposr hmarl hmarr hfactor (vposd v) (vposu v) (vmard v) (vmaru v) (vfactor v)
  else if Z.eqb i (Nx - 1) then
    let hposl := hposr v + hSpacing in
    let hposr := hposl + hStep + rMargin in
    let hfactor := hposr - hposl in
    let hmarl := #0 in
    let hmarr := rMargin / hfactor in
    mkCPVars hposl hposr hmarl hmarr hfactor (vposd v) (vposu v) (vmard v) (vmaru v) (vfactor v)
  else
    let hposl := hposr v + hSpacing in
    let hposr := hposl + hStep in
    let hfactor := hposr - hposl in
    let hmarl := #0 in
    let hmarr := #0 in
    mkCPVars hposl hposr hmarl hmarr hfactor (vposd v) (vposu v) (vmard v) (vmaru v) (vfactor v).

(** [if (j==0) {...} else if (j == Ny-1) {...} else {...}] on the row
    variables. *)
Definition row_branch (Ny : Z) (bMargin tMargin vStep vSpacing : F) (j : Z) (v : CPVars)
    : CPVars :=
  if Z.eqb j 0 then
    let vposd := #0 in
    let vposu := bMargin + vStep in
    let vfactor := vposu - vposd in
    let vmard := bMargin / vfactor in
    let vmaru := #0 in
    mkCPVars (hposl v) (hposr v) (hmarl v) (hmarr v) (hfactor v) vposd vposu vmard vmaru vfactor
  else if Z.eqb j (Ny - 1) then
    let vposd := vposu v + vSpacing in
    let vposu := vposd + vStep + tMargin in
    let vfactor := vposu - vposd in
    let vmard := #0 in
    let vmaru := tMargin / vfactor in
    mkCPVars (hposl v) (hposr v) (hmarl v) (hmarr v) (hfactor v) vposd vposu vmard vmaru vfactor
  else
    let vposd := vposu v + vSpacing in
    let vposu := vposd + vStep in
    let vfactor := vposu - vposd in
    let vmard := #0 in
    let vmaru := #0 in
    mkCPVars (hposl v) (hposr v) (hmarl v) (hmarr v) (hfactor v) vposd vposu vmard vmaru vfactor.

(** [sprintf(name, "pad_%i_%i", i, j); pad = FindObject(name); if (pad)
    delete pad; pad = new TPad(name, "", hposl, vposd, hposr, vposu);]
    and the four [Set...Margin] calls. *)
Definition create_pad (i j : Z) (v : CPVars) (reg : Registry F) : Registry F :=
  register reg (mkPad (Z.to_nat i) (Z.to_nat j) (hposl v) (vposd v) (hposr v) (vposu v)
                  (hmarl v) (hmarr v) (vmard v) (vmaru v)).

(** The body of [for (Int_t j=0;j<Ny;j++)]. *)
Definition row_body (Ny : Z) (bMargin tMargin vStep vSpacing : F) (i j : Z)
    (st : CPVars * Registry F) : CPVars * Registry F :=
  let '(v, reg) := st in
  let v' := row_branch Ny bMargin tMargin vStep vSpacing j v in
  (v', create_pad i j v' reg).

(** The body of [for (Int_t i=0;i<Nx;i++)]: the column branch, then the
    inner loop. *)
Definition col_body (fuel : nat) (Nx Ny : Z) (lMargin rMargin bMargin tMargin hStep hSpacing
    vStep vSpacing : F) (i : Z) (st : option (CPVars * Registry F))
    : option (CPVars * Registry F) :=
  match st with
  | None => None
  | Some (v, reg) =>
      for_loop fuel (row_body Ny bMargin tMargin vStep vSpacing i) 0 Ny
        (col_branch Nx lMargin rMargin hStep hSpacing i v, reg)
  end.

(** [CanvasPartition(C, Nx, Ny, lMargin, rMargin, bMargin, tMargin)] from
    the variables [v0] as they were uninitialised and the registry [reg]. *)
Definition CanvasPartition_cpp (fuel : nat) (C : bool) (Nx Ny : Z)
    (lMargin rMargin bMargin tMargin : F) (v0 : CPVars) (reg : Registry F) : option (Registry F) :=
  if negb C then Some reg
  else
    let vSpacing := dec 3 2 in
    let vStep := axis_pitch Ny bMargin tMargin vSpacing in
    let hSpacing := dec 3 2 in
    let hStep := axis_pitch Nx lMargin rMargin hSpacing in
    match for_loop fuel (col_body fuel Nx Ny lMargin rMargin bMargin tMargin hStep hSpacing
                           vStep vSpacing) 0 Nx (Some (v0, reg)) with
    | Some (Some (_, reg')) => Some reg'
    | _ => None
    end.
End CanvasCpp.

Arguments CPVars : clear implicits.

(** ** The loops compute the geometry of [Canvas] *)

Section Simulation.
Context {F : Type} `{Double F}.

(** The column and the row variables as the spans of [Canvas]. *)
Definition h_span (v : CPVars F) : Span F := mkSpan (hposl v) (hposr v) (hmarl v) (hmarr v).
Definition v_span (v : CPVars F) : Span F := mkSpan (vposd v) (vposu v) (vmard v) (vmaru v).

Lemma col_branch_spans (Nx : Z) (lM rM hStep hSp : F) (i : nat) (v : CPVars F) :
  h_span (col_branch Nx lM rM hStep hSp (Z.of_nat i) v) = axis_step Nx lM rM hStep hSp i (hposr v) /\
  vposu (col_branch Nx lM rM hStep hSp (Z.of_nat i) v) = vposu v.
Proof.
  unfold col_branch, axis_step.
  destruct (Z.eqb (Z.of_nat i) 0); [|destruct (Z.eqb (Z.of_nat i) (Nx - 1))]; split; reflexivity.
Qed.

Lemma row_branch_spans (Ny : Z) (bM tM vStep vSp : F) (j : nat) (v : CPVars F) :
  v_span (row_branch Ny bM tM vStep vSp (Z.of_nat j) v) = axis_step Ny bM tM vStep vSp j (vposu v) /\
  h_span (row_branch Ny bM tM vStep vSp (Z.of_nat j) v) = h_span v.
Proof.
  unfold row_branch, axis_step.
  destruct (Z.eqb (Z.of_nat j) 0); [|destruct (Z.eqb (Z.of_nat j) (Ny - 1))]; split; reflexivity.
Qed.

Lemma create_pad_spans (i j : nat) (v : CPVars F) (reg : Registry F) :
  create_pad (Z.of_nat i) (Z.of_nat j) v reg
  = register reg (mkPad i j (lo (h_span v)) (lo (v_span v)) (hi (h_span v)) (hi (v_span v))
                    (mlo (h_span v)) (mhi (h_span v)) (mlo (v_span v)) (mhi (v_span v))).
Proof. unfold create_pad; now rewrite !Nat2Z.id. Qed.

(** [n] iterations of the inner loop from [j] register the pads of
    [rows_loop], and leave [vposu] where [rows_loop] leaves it. *)
Lemma rows_iterate (Ny : Z) (bM tM vStep vSp : F) (i : nat) (n : nat) :
  forall (j : nat) (v : CPVars F) (reg : Registry F),
  exists v', iterate_from (row_body Ny bM tM vStep vSp (Z.of_nat i)) (Z.of_nat j) n (v, reg)
    = (v', fold_left register (fst (rows_loop Ny bM tM vStep vSp i (h_span v) j n (vposu v))) reg)
    /\ vposu v' = snd (rows_loop Ny bM tM vStep vSp i (h_span v) j n (vposu v))
    /\ h_span v' = h_span v.
Proof.
  induction n as [|n IH]; intros j v reg; [exists v; auto|].
  cbn [iterate_from rows_loop row_body].
  set (v1 := row_branch Ny bM tM vStep vSp (Z.of_nat j) v).
  destruct (row_branch_spans Ny bM tM vStep vSp j v) as [Ev Eh]; fold v1 in Ev, Eh.
  replace (Z.of_nat j + 1)%Z with (Z.of_nat (S j)) by lia.
  destruct (IH (S j) v1 (create_pad (Z.of_nat i) (Z.of_nat j) v1 reg)) as (v' & E & Hu & Hh).
  rewrite Eh in E, Hu; exists v'; rewrite E.
  replace (hi (axis_step Ny bM tM vStep vSp j (vposu v))) with (vposu v1) by (rewrite <- Ev; reflexivity).
  destruct (rows_loop Ny bM tM vStep vSp i (h_span v) (S j) n (vposu v1)) as [pads v2] eqn:R.
  cbn [fst snd] in *; split_and!; [|exact Hu | rewrite Hh; exact Eh].
  cbn [fold_left]; rewrite create_pad_spans, Eh; change (vposu v1) with (hi (v_span v1)).
  rewrite Ev; reflexivity.
Qed.
(** [n] iterations of the outer loop from [i] register the pads of
    [cols_loop], when the inner loop has the fuel of its [Ny] tests. *)
Lemma cols_iterate (fuel : nat) (Nx Ny : Z) (lM rM bM tM hStep hSp vStep vSp : F) (n : nat) :
  (Ny <= Int_max)%Z -> (Z.to_nat Ny < fuel)%nat ->
  forall (i : nat) (v : CPVars F) (reg : Registry F),
  exists v', iterate_from (col_body fuel Nx Ny lM rM bM tM hStep hSp vStep vSp) (Z.of_nat i) n
               (Some (v, reg))
    = Some (v', fold_left register
                  (cols_loop Nx Ny lM rM bM tM hStep hSp vStep vSp i n (hposr v) (vposu v)) reg).
Proof.
  intros HNy Hf; induction n as [|n IH]; intros i v reg; [exists v; reflexivity|].
  cbn [iterate_from cols_loop col_body].
  set (v1 := col_branch Nx lM rM hStep hSp (Z.of_nat i) v).
  destruct (col_branch_spans Nx lM rM hStep hSp i v) as [Eh Ev]; fold v1 in Eh, Ev.
  rewrite (for_loop_run _ Ny (Z.to_nat (Ny - 0)) fuel 0) by (unfold Int_min in *; lia).
  replace (Z.to_nat (Ny - 0) <? fuel)%nat with true by (symmetry; apply Nat.ltb_lt; lia).
  destruct (rows_iterate Ny bM tM vStep vSp i (Z.to_nat (Ny - 0)) 0 v1 reg) as (v2 & E & Hu & Hh).
  change (Z.of_nat 0) with 0%Z in E; rewrite E.
  replace (Z.of_nat i + 1)%Z with (Z.of_nat (S i)) by lia.
  rewrite Eh, Ev, Z.sub_0_r in *.
  destruct (rows_loop Ny bM tM vStep vSp i _ 0 (Z.to_nat Ny) (vposu v)) as [pads v'] eqn:R.
  cbn [fst snd] in *.
  destruct (IH (S i) v2 (fold_left register pads reg)) as (v3 & E3).
  exists v3; rewrite E3, fold_left_app.
  replace (hposr v2) with (hi (h_span v2)) by reflexivity; rewrite Hh, Hu; reflexivity.
Qed.
End Simulation.

(** The first column and the first row do not read the carried
    positions, so the pads do not depend on their initial values. *)
Lemma cols_loop_start {F : Type} `{Double F} (Nx Ny : Z) (lM rM bM tM hStep hSp vStep vSp : F)
    (n : nat) (p q p' q' : F) :
  cols_loop Nx Ny lM rM bM tM hStep hSp vStep vSp 0 n p q
  = cols_loop Nx Ny lM rM bM tM hStep hSp vStep vSp 0 n p' q'.
Proof. rewrite !cols_loop_spans, (axis_spans_start Nx lM rM hStep hSp n p p'); reflexivity. Qed.

(** ** The C++ loops refine the geometry *)

(** C14. [CanvasPartition] as the C++ runs it
    (its uninitialised [Float_t] variables threaded through the two [Int_t]
    loops, every pad created and registered as soon as its row branch has
    run) stops and leaves in ROOT's list of objects exactly what the
    functional geometry [Canvas.CanvasPartition] registered in creation
    order gives, whatever the variables held before the loops, for [Int_t]
    values [Nx], [Ny] and fuel above both; with a null canvas the list is
    unchanged. *)
Theorem CanvasPartition_cpp_refines {F : Type} `{Double F} (fuel : nat) (C : bool) (Nx Ny : Z)
    (lM rM bM tM : F) (v0 : CPVars F) (reg : Registry F) :
  int32_in Nx = true -> int32_in Ny = true -> (Z.to_nat Nx < fuel)%nat -> (Z.to_nat Ny < fuel)%nat ->
  CanvasPartition_cpp fuel C Nx Ny lM rM bM tM v0 reg
  = Some (CanvasPartition_reg (CanvasPartition C Nx Ny lM rM bM tM) reg).
Proof.
  intros HNx HNy Hfx Hfy; apply int32_in_spec in HNx, HNy.
  destruct C; [|reflexivity]; unfold CanvasPartition_cpp, CanvasPartition; cbn [negb].
  rewrite (for_loop_run _ Nx (Z.to_nat (Nx - 0)) fuel 0) by (unfold Int_min in *; lia).
  replace (Z.to_nat (Nx - 0) <? fuel)%nat with true by (symmetry; apply Nat.ltb_lt; lia).
  destruct (cols_iterate fuel Nx Ny lM rM bM tM (axis_pitch Nx lM rM (dec 3 2)) (dec 3 2)
              (axis_pitch Ny bM tM (dec 3 2)) (dec 3 2) (Z.to_nat (Nx - 0))
              ltac:(lia) Hfy 0 v0 reg) as [v' E].
  change (Z.of_nat 0) with 0%Z in E; rewrite E, Z.sub_0_r.
  unfold CanvasPartition_reg; f_equal; f_equal; apply cols_loop_start.
Qed.

Lemma CanvasPartition_cpp_refines_witness :
  (int32_in 2 = true /\ int32_in 2 = true /\ (Z.to_nat 2 < 3)%nat /\ (Z.to_nat 2 < 3)%nat) /\
  CanvasPartition_cpp 3 true 2 2 (dec (F := PrimFloat.float) 1409 4) (dec 1209 4) (dec 8 2) (dec 5 2)
    (mkCPVars 0 0 0 0 0 0 0 0 0 0)%float []
  = Some (CanvasPartition_reg (CanvasPartition true 2 2 (dec 1409 4) (dec 1209 4) (dec 8 2) (dec 5 2)) []).
Proof.
  assert (H : int32_in 2 = true /\ int32_in 2 = true /\ (Z.to_nat 2 < 3)%nat /\ (Z.to_nat 2 < 3)%nat)
    by (split_and!; reflexivity || lia).
  destruct H as (H1 & H2 & H3 & H4); split; [exact (conj H1 (conj H2 (conj H3 H4)))|].
  apply CanvasPartition_cpp_refines; assumption.
Defined.
