(* ===== verification/Plots.v ===== *)
(** * The graph of the simulated series

    [gr1()] draws the series its Monte Carlo produced three times, once per
    material, as [new TGraphErrors(npts, tiempo, temperatura, sigmatiempo,
    sigmatemperatura)] ([gr1.cpp:116], [152], [189]): the times are the
    abscissae and the temperatures the ordinates.  [sim_graph] builds that
    graph from the four arrays, [columns] gives the arrays the loop leaves
    ([MonteCarloArrays.simulate_cpp_refines]).

    Theorem: with a generator that returns the nominal temperature, every
    point of the graph whose nominal temperature lies strictly between
    [Ta] and [To] has a positive time and lies on the exact cooling curve
    [closed_form], the curve the fitted model approximates: temperature,
    inverse time and curve make a round trip through the Monte Carlo, the
    histogram and the clamp. *)

From Stdlib Require Import ZArith Reals Lra Lia List.
From S2P Require Import Prelude RealModel Config Fit Inverse Histogram MonteCarlo MonteCarloArrays.
Import ListNotations.

Section Graphs.
Context {F : Type} `{Double F}.

(** [new TGraphErrors(npts, tiempo, temperatura, sigmatiempo, sigmatemperatura)] *)
Definition sim_graph (e : Experiment F) (a : SimArrays F) : TGraphErrors F :=
  TGraphErrors_new (npts e) (a_tiempo a) (a_temperatura a) (a_sigmatiempo a)
    (a_sigmatemperatura a).

(** The arrays holding the series [ps], one column per field. *)
Definition columns (ps : list (SimPoint F)) : SimArrays F :=
  mkSimArrays (map sp_temperatura ps) (map sp_tiempo ps) (map sp_sigmatiempo ps)
    (map sp_sigmatemperatura ps).
End Graphs.

Local Open Scope R_scope.

Lemma nth_map_default {A B : Type} (f : A -> B) (l : list A) (d : A) (b : B) (j : nat) :
  f d = b -> nth j (map f l) b = f (nth j l d).
Proof. intros <-; apply map_nth. Qed.

(** C18. Round trip through the Monte Carlo: when the generator returns
    the nominal temperature, the point [j] of the simulated graph, for a
    nominal temperature strictly between [Ta] and [To], has a positive
    time and lies on the exact cooling curve. *)
Theorem simulated_points_on_curve {RNG : Type} (Gaus : RNG -> R -> R -> R * RNG)
    (g : Globals R) (e : Experiment R) (rng : RNG) (j : nat) :
  (forall r m sg, Gaus r m sg = (m, r)) -> 0 < k g -> (1 <= nerr e)%nat -> (j < npts e)%nat ->
  Ta g < checkpoint_temperature e j < To g ->
  let gr := sim_graph e (columns (fst (simulate Gaus g e rng))) in
  0 < nth j (gx gr) 0 /\ closed_form g (nth j (gx gr) 0) = nth j (gy gr) 0.
Proof.
  intros HG Hk Hn Hj HT gr.
  destruct (time_for_between g _ Hk ltac:(lra) HT) as (t0 & Ht0 & Hpos).
  set (d0 := mkSimPoint 0 0 0 0).
  unfold gr, sim_graph, TGraphErrors_new, columns; cbn [gx gy a_tiempo a_temperatura].
  rewrite !nth_firstn; apply Nat.ltb_lt in Hj as Hj'; rewrite Hj'.
  rewrite (nth_map_default sp_tiempo _ d0 0 j), (nth_map_default sp_temperatura _ d0 0 j)
    by reflexivity.
  unfold simulate; destruct (simulate_from_nth_point Gaus g e 0 (npts e) rng j d0 Hj) as [r ->].
  rewrite Nat.add_0_l.
  destruct (checkpoint_noiseless_stats Gaus g e j r t0 HG Hn Ht0) as [-> _].
  rewrite checkpoint_fields; cbn [sp_temperatura].
  rewrite clamp_time_id by lra; split; [exact Hpos|].
  apply closed_form_at_inverse; [lra | exact Ht0].
Qed.

Lemma simulated_points_on_curve_witness :
  ((forall (r : unit) (m sg : R), nominal_gaus r m sg = (m, r)) /\ 0 < k (gr1_globals (F := R)) /\
   (1 <= nerr (gr1_experiment (F := R)))%nat /\ (8 < npts (gr1_experiment (F := R)))%nat /\
   Ta (gr1_globals (F := R)) < checkpoint_temperature gr1_experiment 8 < To gr1_globals) /\
  let gr := sim_graph gr1_experiment (columns (fst (simulate nominal_gaus gr1_globals gr1_experiment tt))) in
  0 < nth 8 (gx gr) 0 /\ closed_form gr1_globals (nth 8 (gx gr) 0) = nth 8 (gy gr) 0.
Proof.
  assert (H : (forall (r : unit) (m sg : R), nominal_gaus r m sg = (m, r)) /\
              0 < k (gr1_globals (F := R)) /\ (1 <= nerr (gr1_experiment (F := R)))%nat /\
              (8 < npts (gr1_experiment (F := R)))%nat /\
              Ta (gr1_globals (F := R)) < checkpoint_temperature gr1_experiment 8 < To gr1_globals).
  { split; [reflexivity|]; unfold gr1_globals, gr1_experiment, checkpoint_temperature; simpl;
      dsimpl; repeat split; lra || lia. }
  destruct H as (HG & Hk & Hn & Hj & HT).
  split; [exact (conj HG (conj Hk (conj Hn (conj Hj HT))))|].
  apply simulated_points_on_curve; assumption.
Defined.

