(* ===== verification/Macro.v ===== *)
(** * The macro [gr1()] from the first statement to the last

    [gr1()] runs its Monte Carlo ([gr1.cpp:46-64]), creates [f1]
    ([gr1.cpp:66-68]), partitions the canvas ([gr1.cpp:77-88]), fetches the
    pads back and draws them ([gr1.cpp:90-105]), creates and fits its
    graphs ([gr1.cpp:116-207]) and fetches the three fitted curves with
    [GetFunction], whose results it dereferences ([gr1.cpp:236-246]).
    [plots_run] is the part from the partition to the curves, which
    [gr2()] shares ([gr2.cpp:46-205]); [gr1_run] is the macro.  A null
    pointer dereferenced (a pad not found, a graph without a fitted
    function) or a loop out of fuel makes the run [None].  [gr2()] has no
    run here: [gr2.cpp] does not compile ([334.0.38] at [gr2.cpp:32], a
    second declaration of [leg2] at [gr2.cpp:181]).

    Theorem: [gr1()] runs to its end on every registry of named objects
    without two objects of one name (a previous run's included), every
    generator and every minimiser, when the loops have the fuel of their
    trip counts: it leaves in its arrays the columns of
    [MonteCarlo.simulate] and draws the curves of its three fits. *)

From Stdlib Require Import ZArith Lia List Reals.
From stdpp Require Import base list.
From S2P Require Import Prelude Loops RealModel Config Fit FitSession Histogram MonteCarlo MonteCarloArrays Canvas Registry Plots.
Import ListNotations.

Section Macros.
Context {F : Type} `{Double F} `{DoubleLog F}.

(** From [CanvasPartition] to [f4 = gr6->GetFunction("f1")]: the pads are
    fetched (a missing one is dereferenced by [Draw]), the graphs [grs]
    fitted, and the three functions fetched (a missing one is dereferenced
    by [SetLineColor]); the result is the parameters of the three curves
    drawn. *)
Definition plots_run (bk : FitBackend F) (g : Globals F) (grs : list (TGraphErrors F))
    (reg : Registry F) : option (list (list F)) :=
  match lookup_pads (CanvasPartition_reg macro_layout reg) 2 2 with
  | None => None
  | Some _ =>
      match fit_sequence bk g grs fit_ptrs with
      | None => None
      | Some st => mapM (fun o => o) (overlay st)
      end
  end.

(** [gr1()]: the Monte Carlo into the arrays [a] with the buffer [buf],
    then the plots, with the simulated graph drawn three times. *)
Definition gr1_run {RNG : Type} (Gaus : RNG -> F -> F -> F * RNG) (fuel : nat)
    (bk : FitBackend F) (a : SimArrays F) (buf : list (option F)) (rng : RNG)
    (reg : Registry F) : option (SimArrays F * list (list F)) :=
  match simulate_cpp Gaus fuel gr1_globals gr1_experiment a buf rng with
  | None => None
  | Some (a', _, _) =>
      match plots_run bk gr1_globals (gr1_heap (sim_graph gr1_experiment a')) reg with
      | None => None
      | Some curves => Some (a', curves)
      end
  end.

End Macros.

(** The three fits on six graphs, and the partition of the macros, leave
    [plots_run] nothing to fail on. *)
Lemma plots_run_six {F : Type} `{Double F} (bk : FitBackend F) (g : Globals F)
    (a b c d e f : TGraphErrors F) (reg : Registry F) :
  names_unique reg ->
  let p1 := minimize bk (chi2 bk g b) [To g; k g] in
  let p2 := minimize bk (chi2 bk g d) p1 in
  let p3 := minimize bk (chi2 bk g f) p2 in
  plots_run bk g [a; b; c; d; e; f] reg = Some [p1; p2; p3].
Proof.
  intro Hu; unfold plots_run, macro_layout.
  destruct (lookup_pads_partition 2 2 (dec 1409 4) (dec 1209 4) (dec 8 2) (dec 5 2) reg Hu)
    as [pads Hp]; change (Z.of_nat 2) with 2%Z in Hp; rewrite Hp.
  rewrite fit_sequence_six; reflexivity.
Qed.

(** ** The macros run to their end *)

(** C10. [gr1()] runs to its last statement, whatever the registry
    held (without two objects of one name, as a previous run leaves it),
    whatever the generator and the minimiser, and whatever the
    uninitialised arrays and buffer held, when the loops have more fuel
    than their trip counts: no loop runs out, no pad and no fitted function
    is a null pointer.  It leaves in its arrays the columns of
    [MonteCarlo.simulate] and draws the curves of its three fits, chained
    through [f1]. *)
Theorem gr1_run_to_end {F : Type} `{Double F} `{DoubleLog F} {RNG : Type}
    (Gaus : RNG -> F -> F -> F * RNG) (fuel : nat) (bk : FitBackend F) (a : SimArrays F)
    (buf : list (option F)) (rng : RNG) (reg : Registry F) :
  names_unique reg -> arrays_length a (npts gr1_experiment) ->
  length buf = nerr gr1_experiment -> (nerr gr1_experiment < fuel)%nat ->
  match gr1_graphs with
  | [ga; gb; gc] =>
      let p1 := minimize bk (chi2 bk gr1_globals ga) [To gr1_globals; k gr1_globals] in
      let p2 := minimize bk (chi2 bk gr1_globals gb) p1 in
      let p3 := minimize bk (chi2 bk gr1_globals gc) p2 in
      gr1_run Gaus fuel bk a buf rng reg
        = Some (columns (fst (simulate Gaus gr1_globals gr1_experiment rng)), [p1; p2; p3])
  | _ => False
  end.
Proof.
  intros Hu Ha Hb Hf; cbn [gr1_graphs]; unfold gr1_run.
  destruct (simulate_cpp_run Gaus fuel gr1_globals gr1_experiment a buf rng Ha Hb)
    as [buf' ->]; try (cbn in *; unfold Int_max; lia).
  cbn [gr1_heap gr1_graphs]; rewrite plots_run_six by exact Hu; reflexivity.
Qed.

Lemma gr1_run_to_end_witness :
  (names_unique (F := R) [] /\
   arrays_length (mkSimArrays (repeat 0%R 10) (repeat 0%R 10) (repeat 0%R 10) (repeat 0%R 10))
     (npts (gr1_experiment (F := R))) /\
   length (repeat (@None R) 1000) = nerr (gr1_experiment (F := R)) /\
   (nerr (gr1_experiment (F := R)) < 1001)%nat) /\
  match gr1_graphs (F := R) with
  | [ga; gb; gc] =>
      let p1 := minimize idle_backend (chi2 idle_backend gr1_globals ga)
                  [To gr1_globals; k gr1_globals] in
      let p2 := minimize idle_backend (chi2 idle_backend gr1_globals gb) p1 in
      let p3 := minimize idle_backend (chi2 idle_backend gr1_globals gc) p2 in
      gr1_run nominal_gaus 1001 idle_backend
        (mkSimArrays (repeat 0%R 10) (repeat 0%R 10) (repeat 0%R 10) (repeat 0%R 10))
        (repeat None 1000) tt []
        = Some (columns (fst (simulate nominal_gaus gr1_globals gr1_experiment tt)),
                [p1; p2; p3])
  | _ => False
  end.
Proof.
  assert (Hu : names_unique (F := R) []) by apply List.NoDup_nil.
  assert (Ha : arrays_length (mkSimArrays (repeat 0%R 10) (repeat 0%R 10) (repeat 0%R 10)
                 (repeat 0%R 10)) (npts (gr1_experiment (F := R))))
    by (repeat split; reflexivity).
  assert (Hb : length (repeat (@None R) 1000) = nerr (gr1_experiment (F := R))) by reflexivity.
  assert (Hf : (nerr (gr1_experiment (F := R)) < 1001)%nat) by (cbn; lia).
  split; [exact (conj Hu (conj Ha (conj Hb Hf)))|].
  exact (gr1_run_to_end nominal_gaus 1001 idle_backend _ _ tt [] Hu Ha Hb Hf).
Defined.
